(** * Account health core of claude-relay-service

    A shallow embedding of
      - [src/services/accountAutoDisableService.js]  (quarantine on 4xx/5xx),
      - [src/services/autoRecoveryService.js]        (periodic re-probing,
        consistency clean-up, manual recovery, start/stop life cycle; the
        version with [_validateAccountData] and [recoverAccountFromTest]),
      - [src/utils/testPayloadHelper.js]             (the connection test
        that reports over server-sent events and calls the two services),
    together with the properties of the account-health state machine.

    The JavaScript is asynchronous but strictly sequential inside one call
    (every external call is awaited), so a call is modelled as a function
    from a world to an outcome and a new world.  The world holds the account
    records, the Redis sets of the disabled-account index, a counter of the
    external events consumed so far and the trace of external calls. *)

From stdpp Require Import gmap strings list fin_maps pretty.
From Stdlib Require Import ZArith Lia.
From Stdlib Require QArith_base.
From Stdlib.Strings Require Byte.

(** ** JavaScript values stored in account records *)

Inductive jsval : Type :=
  | JNull
  | JBool (b : bool)
  | JNum (n : Z)
  | JStr (s : string).

#[global] Instance jsval_eq_dec : EqDecision jsval.
Proof. solve_decision. Defined.

(** JavaScript truthiness, as used by [!account.autoDisabledAt]. *)
Definition truthy (v : jsval) : bool :=
  match v with
  | JNull => false
  | JBool b => b
  | JNum n => negb (n =? 0)%Z
  | JStr s => negb (String.eqb s EmptyString)
  end.

(** An object literal such as [updates]: fields in source order. *)
Definition fields : Type := list (string * jsval).

(** Reading a property of an account object: an absent property reads as
    [undefined], which is falsy. *)
Definition propTruthy (account : gmap string jsval) (f : string) : bool :=
  from_option truthy false (account !! f).

(** ** JSON.stringify on flat objects *)

Definition dquote : Ascii.ascii := Ascii.ascii_of_nat 34.
Definition backslash : Ascii.ascii := Ascii.ascii_of_nat 92.

Definition hexDigit (n : nat) : Ascii.ascii :=
  Ascii.ascii_of_nat (if Nat.ltb n 10 then 48 + n else 87 + n).

Definition jsonEscapeChar (c : Ascii.ascii) : string :=
  let n := Ascii.nat_of_ascii c in
  if Nat.eqb n 34 then String backslash (String dquote EmptyString)
  else if Nat.eqb n 92 then String backslash (String backslash EmptyString)
  else if Nat.eqb n 8 then String backslash "b"
  else if Nat.eqb n 9 then String backslash "t"
  else if Nat.eqb n 10 then String backslash "n"
  else if Nat.eqb n 12 then String backslash "f"
  else if Nat.eqb n 13 then String backslash "r"
  else if Nat.ltb n 32 then
    String backslash ("u00" ++ String (hexDigit (n / 16)) (String (hexDigit (n mod 16)) EmptyString))
  else String c EmptyString.

Fixpoint jsonEscape (s : string) : string :=
  match s with
  | EmptyString => EmptyString
  | String c rest => jsonEscapeChar c ++ jsonEscape rest
  end.

Definition jsonQuote (s : string) : string :=
  String dquote (jsonEscape s ++ String dquote EmptyString).

Definition jsonValue (v : jsval) : string :=
  match v with
  | JNull => "null"
  | JBool true => "true"
  | JBool false => "false"
  | JNum n => pretty n
  | JStr s => jsonQuote s
  end.

Definition jsonMember (kv : string * jsval) : string :=
  jsonQuote kv.1 ++ ":" ++ jsonValue kv.2.

Fixpoint jsonMembers (o : fields) : string :=
  match o with
  | [] => EmptyString
  | [kv] => jsonMember kv
  | kv :: rest => jsonMember kv ++ "," ++ jsonMembers rest
  end.

Definition JSON_stringify (o : fields) : string :=
  "{" ++ jsonMembers o ++ "}".

(** ** Account services and the provider types that select them *)

Inductive Service : Type :=
  | claudeAccountService
  | claudeConsoleAccountService
  | geminiAccountService
  | bedrockAccountService
  | azureOpenaiAccountService
  | droidAccountService
  | ccrAccountService
  | openaiResponsesAccountService.

#[global] Instance Service_eq_dec : EqDecision Service.
Proof. solve_decision. Defined.

Definition Service_to_nat (s : Service) : nat :=
  match s with
  | claudeAccountService => 0
  | claudeConsoleAccountService => 1
  | geminiAccountService => 2
  | bedrockAccountService => 3
  | azureOpenaiAccountService => 4
  | droidAccountService => 5
  | ccrAccountService => 6
  | openaiResponsesAccountService => 7
  end.

Definition Service_of_nat (n : nat) : option Service :=
  match n with
  | 0 => Some claudeAccountService
  | 1 => Some claudeConsoleAccountService
  | 2 => Some geminiAccountService
  | 3 => Some bedrockAccountService
  | 4 => Some azureOpenaiAccountService
  | 5 => Some droidAccountService
  | 6 => Some ccrAccountService
  | 7 => Some openaiResponsesAccountService
  | _ => None
  end.

#[global] Program Instance Service_countable : Countable Service :=
  inj_countable Service_to_nat Service_of_nat _.
Next Obligation. by intros []. Qed.

(** The [switch (accountType)] shared by [_updateAccountByType] and
    [_getAccountByType]; [None] is the [default:] branch. *)
Definition serviceByType (accountType : string) : option Service :=
  if String.eqb accountType "claude-official" then Some claudeAccountService
  else if String.eqb accountType "claude-console" then Some claudeConsoleAccountService
  else if String.eqb accountType "gemini" then Some geminiAccountService
  else if String.eqb accountType "bedrock" then Some bedrockAccountService
  else if String.eqb accountType "azure-openai" then Some azureOpenaiAccountService
  else if String.eqb accountType "droid" then Some droidAccountService
  else if String.eqb accountType "ccr" then Some ccrAccountService
  else if String.eqb accountType "openai-responses" then Some openaiResponsesAccountService
  else None.

(** The literal [accountTypes] array of [runRecoveryCheck] and
    [cleanupInconsistentData]. *)
Definition accountTypes : list string :=
  [ "claude-official"; "claude-console"; "gemini"; "bedrock";
    "azure-openai"; "droid"; "ccr"; "openai-responses" ].

(** The Redis key template [`auto_disabled_accounts:${accountType}`]. *)
Definition indexKey (accountType : string) : string :=
  "auto_disabled_accounts:" ++ accountType.

(** ** The world: record store, index, event counter, trace *)

Inductive Call : Type :=
  | CGetAccount (svc : Service) (accountId : string)
  | CUpdateAccount (svc : Service) (accountId : string) (updates : fields)
  | CGetClientSafe
  | CSadd (key member : string)
  | CSrem (key member : string)
  | CSmembers (key : string)
  | CSIsMember (key member : string)
  | CTestAccountConnection (svc : Service) (accountId : string).

#[global] Instance Call_eq_dec : EqDecision Call.
Proof. solve_decision. Defined.

(** One external call with whether it took effect ([true]) or raised. *)
Definition Event : Type := (Call * bool)%type.

(** The state a call runs in: the records of the account services keyed by
    service and account id, the Redis sets keyed by their key, the number
    of external events consumed so far, and the external calls made so far
    in chronological order. *)
Record World : Type := mkWorld {
  accounts : gmap (Service * string) (gmap string jsval);
  redisSets : gmap string (gset string);
  ticks : nat;
  trace : list Event
}.

Definition setAccounts (a : gmap (Service * string) (gmap string jsval)) (w : World) : World :=
  mkWorld a (redisSets w) (ticks w) (trace w).

Definition setRedisSets (r : gmap string (gset string)) (w : World) : World :=
  mkWorld (accounts w) r (ticks w) (trace w).

Definition tick (w : World) : World :=
  mkWorld (accounts w) (redisSets w) (S (ticks w)) (trace w).

Definition logCall (c : Call) (ok : bool) (w : World) : World :=
  mkWorld (accounts w) (redisSets w) (ticks w) (trace w ++ [(c, ok)]).

(** The members of the Redis set [key]; a key that was never written
    holds the empty set. *)
Definition smembersOf (key : string) (w : World) : gset string :=
  default ∅ (redisSets w !! key).

(** ** Outcomes and the call monad *)

Inductive Outcome (A : Type) : Type :=
  | Returned (a : A)
  | Thrown (message : string).
Arguments Returned {A} a.
Arguments Thrown {A} message.

(** An [async] function: it runs from a world to what it returns or
    throws, and the world it leaves. *)
Definition M (A : Type) : Type := World -> Outcome A * World.

Definition ret {A} (a : A) : M A := fun w => (Returned a, w).

Definition throw {A} (message : string) : M A := fun w => (Thrown message, w).

Definition bind {A B} (m : M A) (k : A -> M B) : M B :=
  fun w =>
    match m w with
    | (Returned a, w1) => k a w1
    | (Thrown e, w1) => (Thrown e, w1)
    end.

(** [try { body } catch (error) { handler(error.message) }] *)
Definition try_catch {A} (body : M A) (handler : string -> M A) : M A :=
  fun w =>
    match body w with
    | (Returned a, w1) => (Returned a, w1)
    | (Thrown e, w1) => handler e w1
    end.

Notation "'let*' x ':=' m 'in' k" := (bind m (fun x => k))
  (at level 10, x binder, m at level 100, k at level 200).
Notation "'await' m 'in' k" := (bind m (fun _ => k))
  (at level 10, m at level 100, k at level 200).

(** What a connection probe reports: [{ success, error }]. *)
Record ProbeResult : Type := mkProbe {
  success : bool;
  probeError : option string
}.

(** ** The environment of a call

    Everything the services cannot control: the wall clock, which external
    call raises (record store or Redis unavailable, account rejected by the
    store), and what the upstream answers to a probe.  Each is a function of
    the number of external events consumed so far, so every interleaving of
    failures can be expressed. *)
Record Env : Type := mkEnv {
  clock : nat -> Z;
  toISOString : Z -> string;
  fault : nat -> option string;
  probe : nat -> Service -> string -> Outcome ProbeResult
}.

Section Externals.
Variable E : Env.

(** [Date.now()] *)
Definition Date_now : M Z :=
  fun w => (Returned (clock E (ticks w)), tick w).

(** [new Date().toISOString()] *)
Definition new_Date_toISOString : M string :=
  fun w => (Returned (toISOString E (clock E (ticks w))), tick w).

(** An awaited call into the record store or Redis. *)
Definition external {A} (c : Call) (run : World -> A * World) : M A :=
  fun w =>
    let w1 := tick w in
    match fault E (ticks w) with
    | Some message => (Thrown message, logCall c false w1)
    | None => let '(a, w2) := run w1 in (Returned a, logCall c true w2)
    end.

(** Modelled from the spec: how the Account Record Store persists one
    field of [updateAccount(id, partialFields)] (the account services are
    missing).  A field given as [null] is cleared to absent; any other
    value overwrites the attribute. *)
Definition applyField (account : gmap string jsval) (kv : string * jsval) : gmap string jsval :=
  match kv.2 with
  | JNull => delete kv.1 account
  | v => <[kv.1 := v]> account
  end.

(** Modelled from the spec: the partial fields of an update are merged
    into the persisted attributes, in the order of the object literal. *)
Definition applyUpdates (updates : fields) (account : gmap string jsval) : gmap string jsval :=
  foldl applyField account updates.

(** Modelled from the spec: the Account Record Store's
    [updateAccount(id, partialFields)], one per account service (missing).
    A store that rejects the call, for instance for an unknown account,
    is an external call that raises. *)
Definition updateAccount (svc : Service) (accountId : string) (updates : fields) : M unit :=
  external (CUpdateAccount svc accountId updates)
    (fun w =>
       (tt, setAccounts
              (<[(svc, accountId) :=
                   applyUpdates updates (default ∅ (accounts w !! (svc, accountId)))]>
                 (accounts w)) w)).

(** Modelled from the spec: the Account Record Store's [getAccount(id)]
    (missing); an absent record reads as [null]. *)
Definition getAccount (svc : Service) (accountId : string) : M (option (gmap string jsval)) :=
  external (CGetAccount svc accountId)
    (fun w => (accounts w !! (svc, accountId), w)).

(** Modelled from the spec: [redis.getClientSafe()] of the missing Redis
    model, which hands out the client or raises when Redis is not
    available. *)
Definition getClientSafe : M unit :=
  external CGetClientSafe (fun w => (tt, w)).

(** Modelled from the spec: the Disabled-Account Index operation
    [add(type, id)], Redis [SADD] (missing Redis model). *)
Definition sadd (key member : string) : M unit :=
  external (CSadd key member)
    (fun w => (tt, setRedisSets (<[key := {[member]} ∪ smembersOf key w]> (redisSets w)) w)).

(** Modelled from the spec: the Disabled-Account Index operation
    [remove(type, id)], Redis [SREM] (missing Redis model). *)
Definition srem (key member : string) : M unit :=
  external (CSrem key member)
    (fun w => (tt, setRedisSets (<[key := smembersOf key w ∖ {[member]}]> (redisSets w)) w)).

(** Modelled from the spec: the Disabled-Account Index operation
    [members(type)], Redis [SMEMBERS] (missing Redis model). *)
Definition smembers (key : string) : M (list string) :=
  external (CSmembers key) (fun w => (elements (smembersOf key w), w)).

(** Modelled from the spec: the Disabled-Account Index operation
    [isMember(type, id)], Redis [SISMEMBER] (missing Redis model). *)
Definition sIsMember (key member : string) : M bool :=
  external (CSIsMember key member)
    (fun w => (bool_decide (member ∈ smembersOf key w), w)).

(** Modelled from the spec: the Connection Probe
    [testAccountConnection(id)] of an account service (missing).  It
    reports success or failure, or raises, as the environment decides, and
    writes neither records nor index. *)
Definition testAccountConnection (svc : Service) (accountId : string) : M ProbeResult :=
  fun w =>
    let w1 := tick w in
    match probe E (ticks w) svc accountId with
    | Returned r => (Returned r, logCall (CTestAccountConnection svc accountId) true w1)
    | Thrown e => (Thrown e, logCall (CTestAccountConnection svc accountId) false w1)
    end.
End Externals.

(** ** accountAutoDisableService.js *)

Module AccountAutoDisableService.

(** [{ disabled, reason }] or [{ disabled, error }] *)
Record Result : Type := mkResult {
  disabled : bool;
  reason : option string;
  error : option string
}.

Section Service.
Variable E : Env.

Definition _updateAccountByType (accountId accountType : string) (updates : fields) : M unit :=
  match serviceByType accountType with
  | Some svc => updateAccount E svc accountId updates
  | None => throw ("Unknown account type: " ++ accountType)
  end.

(** [`HTTP ${statusCode}: ${errorMessage.substring(0, 200)}`] *)
Definition reasonText (statusCode : Z) (errorMessage : string) : string :=
  "HTTP " ++ pretty statusCode ++ ": " ++ String.substring 0 200 errorMessage.

(** The [updates] object literal of [handleErrorResponse]. *)
Definition disableUpdates (statusCode : Z) (errorMessage apiUrl triggerType : string)
    (autoDisabledAt disabledAt : string) : fields :=
  [ ("schedulable", JBool false);
    ("autoDisabledAt", JStr autoDisabledAt);
    ("autoDisabledReason", JStr (reasonText statusCode errorMessage));
    ("autoDisabledDetails",
      JStr (JSON_stringify
              [ ("statusCode", JNum statusCode);
                ("errorMessage", JStr errorMessage);
                ("apiUrl", JStr apiUrl);
                ("triggerType", JStr triggerType);
                ("disabledAt", JStr disabledAt) ])) ].

Definition handleErrorResponse
    (accountId accountType : string) (statusCode : Z)
    (errorMessage apiUrl triggerType : string) : M Result :=
  if ((statusCode <? 400) || (statusCode >=? 600))%Z then
    ret (mkResult false None None)
  else
    let* autoDisabledAt := new_Date_toISOString E in
    let* disabledAt := new_Date_toISOString E in
    let updates :=
      disableUpdates statusCode errorMessage apiUrl triggerType autoDisabledAt disabledAt in
    try_catch
      (await _updateAccountByType accountId accountType updates in
       await sadd E (indexKey accountType) accountId in
       ret (mkResult true (Some (reasonText statusCode errorMessage)) None))
      (fun message => ret (mkResult false None (Some message))).

(** The first draft of the same method (design document), without the
    [try]/[catch]: a failure is raised to the caller. *)
Definition handleErrorResponse_draft
    (accountId accountType : string) (statusCode : Z)
    (errorMessage apiUrl triggerType : string) : M Result :=
  if ((statusCode <? 400) || (statusCode >=? 600))%Z then
    ret (mkResult false None None)
  else
    let* autoDisabledAt := new_Date_toISOString E in
    let* disabledAt := new_Date_toISOString E in
    let updates :=
      disableUpdates statusCode errorMessage apiUrl triggerType autoDisabledAt disabledAt in
    await _updateAccountByType accountId accountType updates in
    await sadd E (indexKey accountType) accountId in
    ret (mkResult true (Some (reasonText statusCode errorMessage)) None).
End Service.

End AccountAutoDisableService.

(** ** autoRecoveryService.js *)

Module AutoRecoveryService.

(** [{ checked, recovered, failed, cleaned }] of [checkAccountType]. *)
Record Counters : Type := mkCounters {
  checked : nat;
  recovered : nat;
  failed : nat;
  cleaned : nat
}.

(** The loop variables [recovered], [failed], [cleaned]. *)
Record Tally : Type := mkTally {
  nRecovered : nat;
  nFailed : nat;
  nCleaned : nat
}.

(** [{ totalChecked, totalRecovered, totalFailed, totalCleaned, duration }] *)
Record Totals : Type := mkTotals {
  totalChecked : nat;
  totalRecovered : nat;
  totalFailed : nat;
  totalCleaned : nat;
  duration : Z
}.

(** The loop variables of [runRecoveryCheck]. *)
Record Sums : Type := mkSums {
  sChecked : nat;
  sRecovered : nat;
  sFailed : nat;
  sCleaned : nat
}.

(** [{ recovered, reason, error }] of [recoverAccountFromTest]; the
    field [recovered] is named [isRecovered] here. *)
Record TestRecovery : Type := mkTestRecovery {
  isRecovered : bool;
  reason : string;
  error : option string
}.

Section Service.
Variable E : Env.

Definition _getAccountByType (accountId accountType : string)
    : M (option (gmap string jsval)) :=
  match serviceByType accountType with
  | Some svc => getAccount E svc accountId
  | None => throw ("Unknown account type: " ++ accountType)
  end.

Definition _updateAccountByType (accountId accountType : string) (updates : fields) : M unit :=
  match serviceByType accountType with
  | Some svc => updateAccount E svc accountId updates
  | None => throw ("Unknown account type: " ++ accountType)
  end.

Definition _validateAccountData (accountId accountType : string) : M bool :=
  try_catch
    (let* account := _getAccountByType accountId accountType in
     match account with
     | None => ret false
     | Some account =>
         if negb (propTruthy account "autoDisabledAt")
            || negb (propTruthy account "autoDisabledReason")
         then ret false
         else ret true
     end)
    (fun _ => ret false).

Definition _cleanupInconsistentAccount (accountId accountType : string) : M unit :=
  try_catch
    (await getClientSafe E in
     srem E (indexKey accountType) accountId)
    (fun _ => ret tt).

Definition _testAccountConnection (accountId accountType : string) : M ProbeResult :=
  try_catch
    (if String.eqb accountType "claude-console" then
       let* result := testAccountConnection E claudeConsoleAccountService accountId in
       ret (mkProbe (success result) (probeError result))
     else if String.eqb accountType "bedrock" then
       let* result := testAccountConnection E bedrockAccountService accountId in
       ret (mkProbe (success result) (probeError result))
     else
       ret (mkProbe false (Some ("Test not implemented for " ++ accountType)%string)))
    (fun message => ret (mkProbe false (Some message))).

(** The [updates] object literal of [_recoverAccount]. *)
Definition recoverUpdates (lastAutoRecoveryAttempt autoRecoveredAt : string) : fields :=
  [ ("schedulable", JBool true);
    ("autoDisabledAt", JNull);
    ("autoDisabledReason", JNull);
    ("autoDisabledDetails", JNull);
    ("lastAutoRecoveryAttempt", JStr lastAutoRecoveryAttempt);
    ("autoRecoveredAt", JStr autoRecoveredAt) ].

Definition _recoverAccount (accountId accountType : string) : M unit :=
  let* lastAutoRecoveryAttempt := new_Date_toISOString E in
  let* autoRecoveredAt := new_Date_toISOString E in
  let updates := recoverUpdates lastAutoRecoveryAttempt autoRecoveredAt in
  await _updateAccountByType accountId accountType updates in
  await getClientSafe E in
  srem E (indexKey accountType) accountId.

Definition _updateLastRecoveryAttempt (accountId accountType : string) : M unit :=
  let* now := new_Date_toISOString E in
  _updateAccountByType accountId accountType [ ("lastAutoRecoveryAttempt", JStr now) ].

Definition recoverAccountFromTest (accountId accountType : string) : M TestRecovery :=
  try_catch
    (await getClientSafe E in
     let* isAutoDisabled := sIsMember E (indexKey accountType) accountId in
     if negb isAutoDisabled then
       ret (mkTestRecovery false "not_auto_disabled" None)
     else
       await _recoverAccount accountId accountType in
       ret (mkTestRecovery true "test_success" None))
    (fun message => ret (mkTestRecovery false "error" (Some message))).

(** One iteration of the [for (const accountId of disabledAccountIds)]
    loop of [checkAccountType].  Each counter is incremented as the last
    statement of its branch, so no increment is lost when the [catch]
    runs. *)
Definition checkAccount (accountType accountId : string) (c : Tally) : M Tally :=
  try_catch
    (let* isValid := _validateAccountData accountId accountType in
     if negb isValid then
       await _cleanupInconsistentAccount accountId accountType in
       ret (mkTally (nRecovered c) (nFailed c) (S (nCleaned c)))
     else
       await _updateLastRecoveryAttempt accountId accountType in
       let* testResult := _testAccountConnection accountId accountType in
       if success testResult then
         await _recoverAccount accountId accountType in
         ret (mkTally (S (nRecovered c)) (nFailed c) (nCleaned c))
       else
         ret (mkTally (nRecovered c) (S (nFailed c)) (nCleaned c)))
    (fun _ => ret (mkTally (nRecovered c) (S (nFailed c)) (nCleaned c))).

Fixpoint checkAccounts (accountType : string) (disabledAccountIds : list string)
    (c : Tally) : M Tally :=
  match disabledAccountIds with
  | [] => ret c
  | accountId :: rest =>
      let* c1 := checkAccount accountType accountId c in
      checkAccounts accountType rest c1
  end.

Definition checkAccountType (accountType : string) : M Counters :=
  await getClientSafe E in
  let* disabledAccountIds := smembers E (indexKey accountType) in
  if Nat.eqb (length disabledAccountIds) 0 then
    ret (mkCounters 0 0 0 0)
  else
    let* c := checkAccounts accountType disabledAccountIds (mkTally 0 0 0) in
    ret (mkCounters (length disabledAccountIds) (nRecovered c) (nFailed c) (nCleaned c)).

(** One iteration of the [for (const accountType of accountTypes)] loop
    of [runRecoveryCheck]. *)
Definition checkType (accountType : string) (t : Sums) : M Sums :=
  try_catch
    (let* result := checkAccountType accountType in
     ret (mkSums (sChecked t + checked result) (sRecovered t + recovered result)
                 (sFailed t + failed result) (sCleaned t + cleaned result)))
    (fun _ => ret t).

Fixpoint checkTypes (types : list string) (t : Sums) : M Sums :=
  match types with
  | [] => ret t
  | accountType :: rest =>
      let* t1 := checkType accountType t in
      checkTypes rest t1
  end.

Definition runRecoveryCheck : M Totals :=
  let* startTime := Date_now E in
  let* t := checkTypes accountTypes (mkSums 0 0 0 0) in
  let* endTime := Date_now E in
  ret (mkTotals (sChecked t) (sRecovered t) (sFailed t) (sCleaned t)
                (endTime - startTime)%Z).

(** The inner loop of [cleanupInconsistentData]. *)
Definition cleanupAccount (accountType accountId : string) (totalCleaned : nat) : M nat :=
  try_catch
    (let* isValid := _validateAccountData accountId accountType in
     if negb isValid then
       await _cleanupInconsistentAccount accountId accountType in
       ret (S totalCleaned)
     else ret totalCleaned)
    (fun _ => ret totalCleaned).

Fixpoint cleanupAccounts (accountType : string) (disabledAccountIds : list string)
    (totalCleaned : nat) : M nat :=
  match disabledAccountIds with
  | [] => ret totalCleaned
  | accountId :: rest =>
      let* n := cleanupAccount accountType accountId totalCleaned in
      cleanupAccounts accountType rest n
  end.

Definition cleanupType (accountType : string) (totalCleaned : nat) : M nat :=
  try_catch
    (await getClientSafe E in
     let* disabledAccountIds := smembers E (indexKey accountType) in
     if Nat.eqb (length disabledAccountIds) 0 then ret totalCleaned
     else cleanupAccounts accountType disabledAccountIds totalCleaned)
    (fun _ => ret totalCleaned).

Fixpoint cleanupTypes (types : list string) (totalCleaned : nat) : M nat :=
  match types with
  | [] => ret totalCleaned
  | accountType :: rest =>
      let* n := cleanupType accountType totalCleaned in
      cleanupTypes rest n
  end.

Definition cleanupInconsistentData : M nat :=
  cleanupTypes accountTypes 0.
End Service.

(** *** Life cycle: constructor, [start], [stop] *)

(** [config.autoRecovery]; every option may be left out. *)
Record AutoRecoveryConfig : Type := mkAutoRecoveryConfig {
  enabled : option bool;
  intervalMinutes : option Z;
  testTimeoutSeconds : option Z
}.

Record Config : Type := mkConfig {
  autoRecovery : option AutoRecoveryConfig
}.

(** [config.autoRecovery?.f] *)
Definition optional {A} (config : Config) (f : AutoRecoveryConfig -> option A) : option A :=
  match autoRecovery config with
  | Some c => f c
  | None => None
  end.

(** [x || d] on a number that may be undefined. *)
Definition orElse (x : option Z) (d : Z) : Z :=
  match x with
  | Some n => if (n =? 0)%Z then d else n
  | None => d
  end.

(** The work a timer or [start] hands to the event loop without
    awaiting it. *)
Inductive Job : Type :=
  | InitialCleanupThenCheck
  | ScheduledCheck.

Record Timer : Type := mkTimer {
  handle : nat;
  delay : Z;
  job : Job
}.

(** The Node.js side of the process: armed interval timers, the next
    fresh handle, and the promises launched so far. *)
Record Host : Type := mkHost {
  timers : list Timer;
  nextHandle : nat;
  launched : list Job
}.

(** The fields of the singleton [AutoRecoveryService] instance. *)
Record ServiceState : Type := mkServiceState {
  isRunning : bool;
  intervalHandle : option nat;
  testInterval : Z;
  testTimeout : Z
}.

Definition new_AutoRecoveryService (config : Config) : ServiceState :=
  let minutes := orElse (optional config intervalMinutes) 60 in
  mkServiceState false None (minutes * 60 * 1000)%Z
    (orElse (optional config testTimeoutSeconds) 30).

Definition launch (j : Job) (h : Host) : Host :=
  mkHost (timers h) (nextHandle h) (launched h ++ [j]).

Definition setInterval (j : Job) (ms : Z) (h : Host) : nat * Host :=
  (nextHandle h,
   mkHost (timers h ++ [mkTimer (nextHandle h) ms j]) (S (nextHandle h)) (launched h)).

Definition clearInterval (id : nat) (h : Host) : Host :=
  mkHost (filter (fun t => handle t ≠ id) (timers h)) (nextHandle h) (launched h).

(** One firing of the timer [id]: its callback launches its job; the
    timer stays armed. *)
Definition fire (id : nat) (h : Host) : Host :=
  match filter (fun t => handle t = id) (timers h) with
  | t :: _ => launch (job t) h
  | [] => h
  end.

Definition start (config : Config) (this : ServiceState) (h : Host) : ServiceState * Host :=
  if isRunning this then (this, h)
  else if bool_decide (optional config enabled = Some false) then (this, h)
  else
    let this1 := mkServiceState true (intervalHandle this) (testInterval this) (testTimeout this) in
    let h1 := launch InitialCleanupThenCheck h in
    let '(id, h2) := setInterval ScheduledCheck (testInterval this1) h1 in
    (mkServiceState (isRunning this1) (Some id) (testInterval this1) (testTimeout this1), h2).

Definition stop (this : ServiceState) (h : Host) : ServiceState * Host :=
  let '(this1, h1) :=
    match intervalHandle this with
    | Some id =>
        (mkServiceState (isRunning this) None (testInterval this) (testTimeout this),
         clearInterval id h)
    | None => (this, h)
    end in
  (mkServiceState false (intervalHandle this1) (testInterval this1) (testTimeout this1), h1).

(** What a launched job does once the event loop runs it. *)
Definition runJob (E : Env) (j : Job) : M unit :=
  match j with
  | InitialCleanupThenCheck =>
      try_catch
        (await cleanupInconsistentData E in
         await runRecoveryCheck E in
         ret tt)
        (fun _ => ret tt)
  | ScheduledCheck =>
      try_catch (await runRecoveryCheck E in ret tt) (fun _ => ret tt)
  end.

End AutoRecoveryService.


(** ** Example environments and worlds *)

(** An environment in which every dependency answers, the clock advances
    by one millisecond per event and every probe succeeds. *)
Definition calmEnv : Env :=
  mkEnv (fun n => (1768478400000 + Z.of_nat n)%Z)
        (fun ms => ("t" ++ pretty ms)%string)
        (fun _ => None)
        (fun _ _ _ => Returned (mkProbe true None)).

(** As [calmEnv], but the external call consuming event [n] raises. *)
Definition faultyEnv (n : nat) (message : string) : Env :=
  mkEnv (clock calmEnv) (toISOString calmEnv)
        (fun k => if Nat.eqb k n then Some message else None)
        (probe calmEnv).

Definition emptyWorld : World := mkWorld ∅ ∅ 0 [].

(** A healthy console account [X]. *)
Definition healthyX : gmap string jsval :=
  <["name" := JStr "X"]> (<["schedulable" := JBool true]> ∅).

Definition worldX : World :=
  mkWorld (<[(claudeConsoleAccountService, "X") := healthyX]> ∅) ∅ 0 [].

(** ** Vocabulary of the properties *)

(** The postcondition [Q] holds of the outcome and world of running [m]. *)
Definition wp {A} (m : M A) (Q : Outcome A -> World -> Prop) (w : World) : Prop :=
  Q (m w).1 (m w).2.

(** The timestamp read at event [n]. *)
Definition isoAt (E : Env) (n : nat) : string := toISOString E (clock E n).

(** The record after [updateAccount] merged [updates] into it. *)
Definition merged (svc : Service) (accountId : string) (updates : fields) (w : World)
    : gmap string jsval :=
  applyUpdates updates (default ∅ (accounts w !! (svc, accountId))).

(** The world after the record write of a qualifying [handleErrorResponse]
    or of [_recoverAccount]; in both the write follows two clock reads. *)
Definition afterRecordWrite (svc : Service) (accountId : string) (updates : fields)
    (w : World) : World :=
  logCall (CUpdateAccount svc accountId updates) true
    (setAccounts (<[(svc, accountId) := merged svc accountId updates w]> (accounts w))
       (tick (tick (tick w)))).

(** The external calls made between [w] and [w']. *)
Definition added (w w' : World) : list Event :=
  drop (length (trace w)) (trace w').

(** The record read by [getAccount] is absent or lacks [autoDisabledAt]
    or [autoDisabledReason] (absent, [null] and the empty string all read
    as lacking): what [_validateAccountData] treats as inconsistent. *)
Definition inconsistent (account : option (gmap string jsval)) : Prop :=
  match account with
  | None => True
  | Some a =>
      propTruthy a "autoDisabledAt" = false \/ propTruthy a "autoDisabledReason" = false
  end.

(** The event is not a write (attempted or committed) to the record of
    [accountId] held by [svc]. *)
Definition noUpdateOf (svc : Service) (accountId : string) (ev : Event) : Prop :=
  forall updates, ev.1 <> CUpdateAccount svc accountId updates.

(** From [w] to [w'] time went on, the record of [accountId] was not
    written, and its entry in the set [key] was at most removed. *)
Definition untouched (svc : Service) (accountId key : string) (w w' : World) : Prop :=
  ticks w <= ticks w'
  /\ accounts w' !! (svc, accountId) = accounts w !! (svc, accountId)
  /\ (accountId ∈ smembersOf key w' -> accountId ∈ smembersOf key w)
  /\ exists evs, trace w' = trace w ++ evs /\ Forall (noUpdateOf svc accountId) evs.

(** As [untouched], and the entry in the set [key] was kept as well. *)
Definition undisturbed (svc : Service) (accountId key : string) (w w' : World) : Prop :=
  untouched svc accountId key w w'
  /\ (accountId ∈ smembersOf key w -> accountId ∈ smembersOf key w').

(** How many accounts a tally has counted. *)
Definition tallied (c : AutoRecoveryService.Tally) : nat :=
  AutoRecoveryService.nRecovered c + AutoRecoveryService.nFailed c
  + AutoRecoveryService.nCleaned c.

(** The loop variables of [runRecoveryCheck] add up. *)
Definition balanced (t : AutoRecoveryService.Sums) : Prop :=
  AutoRecoveryService.sChecked t
  = AutoRecoveryService.sRecovered t + AutoRecoveryService.sFailed t
    + AutoRecoveryService.sCleaned t.

(** No external call raises. *)
Definition dependable (E : Env) : Prop := forall n, fault E n = None.

(** The counters [checkAccountType] returns for each provider type of
    [types], in the order [runRecoveryCheck] obtains them; a provider type
    whose check raised has none. *)
Fixpoint perTypeCounters (E : Env) (types : list string) (w : World)
    : list AutoRecoveryService.Counters :=
  match types with
  | [] => []
  | accountType :: rest =>
      match AutoRecoveryService.checkAccountType E accountType w with
      | (Returned r, w1) => r :: perTypeCounters E rest w1
      | (Thrown _, w1) => perTypeCounters E rest w1
      end
  end.

(** A console account [X] quarantined by a 404, as [handleErrorResponse]
    leaves it. *)
Definition quarantinedX : World :=
  (AccountAutoDisableService.handleErrorResponse calmEnv "X" "claude-console" 404
     "not found" "https://relay.example/v1/messages" "request" worldX).2.

(** A console account [Y] that sits in the index although its record has
    no [autoDisabledAt] (a crash between the two writes). *)
Definition strayY : World :=
  mkWorld
    (<[(claudeConsoleAccountService, "Y") :=
         <["autoDisabledReason" := JStr "HTTP 500: boom"]>
           (<["schedulable" := JBool false]> ∅)]> ∅)
    (<[indexKey "claude-console" := {["Y"]}]> ∅)
    0 [].

(** The state a successful re-admission leaves behind, with its two clock
    reads taken at events [n] and [n + 1]: the quarantine fields are absent,
    the account is schedulable again, both timestamps are set, the account
    is out of the index, and the record write carried [null] (not the empty
    string) for the three cleared fields. *)
Definition reinstatedAt (E : Env) (svc : Service) (accountId accountType : string)
    (n : nat) (w' : World) : Prop :=
  exists account,
    accounts w' !! (svc, accountId) = Some account
    /\ account !! "autoDisabledAt" = None
    /\ account !! "autoDisabledReason" = None
    /\ account !! "autoDisabledDetails" = None
    /\ account !! "schedulable" = Some (JBool true)
    /\ account !! "lastAutoRecoveryAttempt" = Some (JStr (isoAt E n))
    /\ account !! "autoRecoveredAt" = Some (JStr (isoAt E (S n)))
    /\ (accountId ∉ smembersOf (indexKey accountType) w')
    /\ (CUpdateAccount svc accountId
          (AutoRecoveryService.recoverUpdates (isoAt E n) (isoAt E (S n))), true) ∈ trace w'.

(** ** testPayloadHelper.js *)

Module TestPayloadHelper.

(** JavaScript values, as [JSON.parse] returns them and as the object
    literals of this file build them.  A number is kept as a fraction; an
    object is the list of its members in insertion order, the first
    binding of a name being the one a property read finds. *)
Unset Elimination Schemes.
Inductive value : Type :=
  | VUndefined
  | VNull
  | VBool (b : bool)
  | VNumber (q : QArith_base.Q)
  | VString (s : string)
  | VArray (items : list value)
  | VObject (members : list (string * value)).
Set Elimination Schemes.

Definition number (n : Z) : value := VNumber (QArith_base.Qmake n 1).

(** JavaScript truthiness. *)
Definition toBoolean (v : value) : bool :=
  match v with
  | VUndefined | VNull => false
  | VBool b => b
  | VNumber q => negb (QArith_base.Qnum q =? 0)%Z
  | VString s => negb (String.eqb s EmptyString)
  | VArray _ | VObject _ => true
  end.

(** [a || b] *)
Definition or (a b : value) : value := if toBoolean a then a else b.

(** [v === undefined || v === null] *)
Definition nullish (v : value) : bool :=
  match v with
  | VUndefined | VNull => true
  | _ => false
  end.

Fixpoint member (name : string) (members : list (string * value)) : value :=
  match members with
  | [] => VUndefined
  | (k, v) :: rest => if String.eqb k name then v else member name rest
  end.

(** [v.name] for a [v] that is neither [null] nor [undefined], and for
    the property names this file reads ([message], [error], [type],
    [delta], [text], [stream], [prompt], [maxTokens]), none of which a
    string, a number, a boolean or an array has. *)
Definition get (v : value) (name : string) : value :=
  match v with
  | VObject members => member name members
  | _ => VUndefined
  end.

(** [v?.name] *)
Definition optGet (v : value) (name : string) : value :=
  if nullish v then VUndefined else get v name.

(** A default of a parameter or of a destructuring pattern: it applies
    to [undefined] only. *)
Definition orDefault (v d : value) : value :=
  match v with
  | VUndefined => d
  | _ => v
  end.

(** [v === s] for a string literal [s] *)
Definition isString (v : value) (s : string) : bool :=
  match v with
  | VString s' => String.eqb s' s
  | _ => false
  end.

(** *** Strings *)

Definition LF : Ascii.ascii := Ascii.ascii_of_nat 10.

(** [s.split(sep)] for a one-character separator: never empty. *)
Fixpoint split (sep : Ascii.ascii) (s : string) : list string :=
  match s with
  | EmptyString => [EmptyString]
  | String c rest =>
      if Ascii.eqb c sep then EmptyString :: split sep rest
      else match split sep rest with
           | first :: others => String c first :: others
           | [] => [String c EmptyString]
           end
  end.

(** [s.startsWith(prefix)] *)
Fixpoint startsWith (prefix s : string) : bool :=
  match prefix, s with
  | EmptyString, _ => true
  | String p prefix', String c s' => Ascii.eqb p c && startsWith prefix' s'
  | String _ _, EmptyString => false
  end.

(** [s.substring(n)] *)
Fixpoint substringFrom (n : nat) (s : string) : string :=
  match n, s with
  | 0, _ => s
  | S n', String _ s' => substringFrom n' s'
  | S _, EmptyString => EmptyString
  end.

(** White space and line terminators among the code units below 256. *)
Definition isWhiteSpace (c : Ascii.ascii) : bool :=
  let n := Ascii.nat_of_ascii c in
  (Nat.leb 9 n && Nat.leb n 13) || Nat.eqb n 32 || Nat.eqb n 160.

Fixpoint trimStart (s : string) : string :=
  match s with
  | String c rest => if isWhiteSpace c then trimStart rest else s
  | EmptyString => EmptyString
  end.

Fixpoint trimEnd (s : string) : string :=
  match s with
  | EmptyString => EmptyString
  | String c rest =>
      match trimEnd rest with
      | EmptyString => if isWhiteSpace c then EmptyString else String c EmptyString
      | rest' => String c rest'
      end
  end.

(** [s.trim()] *)
Definition trim (s : string) : string := trimEnd (trimStart s).

(** [buffer.toString('hex')] *)
Definition hexByte (b : Byte.byte) : string :=
  let n := Byte.to_nat b in
  String (hexDigit (n / 16)) (String (hexDigit (n mod 16)) EmptyString).

Fixpoint toHex (bytes : list Byte.byte) : string :=
  match bytes with
  | [] => EmptyString
  | b :: rest => (hexByte b ++ toHex rest)%string
  end.

(** *** The request handed to axios and what comes back *)

Record RequestConfig : Type := mkRequestConfig {
  method : string;
  url : string;
  data : value;
  headers : gmap string string;
  timeout : Z;
  responseType : string;
  validateStatus : Z -> bool;
  httpAgent : option string;
  httpsAgent : option string;
  proxy : option bool
}.

(** What happens after the response headers arrived: the events of the
    upstream body stream, and the client of the test closing its
    connection (which sets [responseStream.destroyed]). *)
Inductive Happening : Type :=
  | Data (chunk : list Byte.byte)
  | End
  | Error (message : string)
  | ClientGone.

(** [await axios(requestConfig)]: it raises (with whether the client
    left meanwhile), or answers with a status and a body stream. *)
Inductive AxiosOutcome : Type :=
  | Rejected (message : string) (clientGone : bool)
  | Response (status : Z) (body : list Happening).

(** The built-ins and the surroundings of a call: the random source,
    [JSON.parse] ([None] when it raises a [SyntaxError]),
    [JSON.stringify], the decoding done by [Buffer.prototype.toString],
    axios, and which calls of [responseStream.write] raise. *)
Record Runtime : Type := mkRuntime {
  crypto_randomBytes : nat -> list Byte.byte;
  crypto_randomUUID : string;
  JSON_parse : string -> option value;
  JSON_stringify : value -> string;
  Buffer_toString : list Byte.byte -> string;
  axios : RequestConfig -> AxiosOutcome;
  writeThrows : nat -> bool
}.

(** The Express response the test reports to. *)
Record ResponseStream : Type := mkResponseStream {
  headersSent : bool;
  destroyed : bool;
  writableEnded : bool;
  head : option (Z * list (string * string));
  written : list string;
  writeCalls : nat
}.

(** [sendStreamTestRequest(options)] *)
Record Options : Type := mkOptions {
  apiUrl : string;
  authorization : string;
  payload : value;
  proxyAgent : option string;
  timeoutOption : option Z;
  extraHeaders : option (gmap string string);
  accountId : option string;
  accountType : option string
}.

(** A call into the account-health services that is not awaited. *)
Inductive Launch : Type :=
  | LaunchDisable (accountId accountType : string) (statusCode : Z)
      (errorMessage : value) (apiUrl triggerType : string)
  | LaunchRecover (accountId accountType : string).

(** The state of one test: the response stream, the request made, the
    calls launched, whether the returned promise has resolved, and the
    variables [chunks] and [buffer] of the body handlers. *)
Record Run : Type := mkRun {
  responseStream : ResponseStream;
  request : option RequestConfig;
  launches : list Launch;
  resolved : bool;
  chunks : list (list Byte.byte);
  buffer : string
}.

Section Helper.
Variable R : Runtime.

(** [randomHex(bytes = 32)] *)
Definition randomHex (bytes : option nat) : string :=
  toHex (crypto_randomBytes R (default 32 bytes)).

Definition generateSessionString : string :=
  ("user_" ++ randomHex (Some 32) ++ "_account__session_" ++ crypto_randomUUID R)%string.

Definition ephemeral : value := VObject [("type", VString "ephemeral")].

(** [createClaudeTestPayload(model = 'claude-sonnet-4-5-20250929', options = {})];
    destructuring [null] raises. *)
Definition createClaudeTestPayload (model options : value) : Outcome value :=
  let model := orDefault model (VString "claude-sonnet-4-5-20250929") in
  let options := orDefault options (VObject []) in
  if nullish options then
    Thrown "Cannot destructure property 'stream' of 'options' as it is null."
  else
    let stream := get options "stream" in
    let prompt := orDefault (get options "prompt") (VString "hi") in
    let maxTokens := orDefault (get options "maxTokens") (number 1000) in
    let payload :=
      [ ("model", model);
        ("messages",
          VArray [ VObject [ ("role", VString "user");
                             ("content",
                               VArray [ VObject [ ("type", VString "text");
                                                  ("text", prompt);
                                                  ("cache_control", ephemeral) ] ]) ] ]);
        ("system",
          VArray [ VObject [ ("type", VString "text");
                             ("text",
                               VString "You are Claude Code, Anthropic's official CLI for Claude.");
                             ("cache_control", ephemeral) ] ]);
        ("metadata", VObject [ ("user_id", VString generateSessionString) ]);
        ("max_tokens", maxTokens);
        ("temperature", number 1) ] in
    Returned (VObject (if toBoolean stream then payload ++ [("stream", VBool true)]
                       else payload)).

(** [createGeminiTestPayload(_model = 'gemini-2.5-pro', options = {})] *)
Definition createGeminiTestPayload (_model options : value) : Outcome value :=
  let options := orDefault options (VObject []) in
  if nullish options then
    Thrown "Cannot destructure property 'prompt' of 'options' as it is null."
  else
    let prompt := orDefault (get options "prompt") (VString "hi") in
    let maxTokens := orDefault (get options "maxTokens") (number 100) in
    Returned
      (VObject
         [ ("contents",
             VArray [ VObject [ ("role", VString "user");
                                ("parts", VArray [ VObject [ ("text", prompt) ] ]) ] ]);
           ("generationConfig",
             VObject [ ("maxOutputTokens", maxTokens); ("temperature", number 1) ]) ]).

(** [createOpenAITestPayload(model = 'gpt-5', options = {})] *)
Definition createOpenAITestPayload (model options : value) : Outcome value :=
  let model := orDefault model (VString "gpt-5") in
  let options := orDefault options (VObject []) in
  if nullish options then
    Thrown "Cannot destructure property 'prompt' of 'options' as it is null."
  else
    let prompt := orDefault (get options "prompt") (VString "hi") in
    let maxTokens := orDefault (get options "maxTokens") (number 100) in
    Returned
      (VObject
         [ ("model", model);
           ("input", VArray [ VObject [ ("role", VString "user"); ("content", prompt) ] ]);
           ("max_output_tokens", maxTokens);
           ("stream", VBool true) ]).

(** *** The response stream *)

Definition writeHead (status : Z) (headers : list (string * string)) (s : ResponseStream)
    : ResponseStream :=
  mkResponseStream true (destroyed s) (writableEnded s) (Some (status, headers))
    (written s) (writeCalls s).

(** [responseStream.write(chunk)]: whether it returned, and the stream
    after it. *)
Definition write (chunk : string) (s : ResponseStream) : bool * ResponseStream :=
  if writeThrows R (writeCalls s) then
    (false,
     mkResponseStream (headersSent s) (destroyed s) (writableEnded s) (head s)
       (written s) (S (writeCalls s)))
  else
    (true,
     mkResponseStream (headersSent s) (destroyed s) (writableEnded s) (head s)
       (written s ++ [chunk]) (S (writeCalls s))).

(** [responseStream.end()] *)
Definition end_ (s : ResponseStream) : ResponseStream :=
  mkResponseStream (headersSent s) (destroyed s) true (head s) (written s) (writeCalls s).

Definition destroy (s : ResponseStream) : ResponseStream :=
  mkResponseStream (headersSent s) true (writableEnded s) (head s) (written s) (writeCalls s).

(** [`data: ${JSON.stringify(v)}\n\n`] *)
Definition frame (v : value) : string :=
  ("data: " ++ JSON_stringify R v ++ String LF (String LF EmptyString))%string.

Definition writable (s : ResponseStream) : bool :=
  negb (destroyed s) && negb (writableEnded s).

(** The closure [sendSSE(type, data = {})]; no call site passes a
    member named [type] in [data]. *)
Definition sendSSE (type : string) (data : list (string * value)) (s : ResponseStream)
    : ResponseStream :=
  if writable s then (write (frame (VObject (("type", VString type) :: data))) s).2
  else s.

(** The object [endTest] reports. *)
Definition completion (success : bool) (error : value) : value :=
  VObject [ ("type", VString "test_complete");
            ("success", VBool success);
            ("error", or error VUndefined) ].

(** The closure [endTest(success, error = null)]: when the write raises,
    [end()] is not reached. *)
Definition endTest (success : bool) (error : value) (s : ResponseStream) : ResponseStream :=
  if writable s then
    let '(returned, s1) := write (frame (completion success error)) s in
    if returned then end_ s1 else s1
  else s.

(** *** The request *)

Definition requestHeaders (o : Options) : gmap string string :=
  default ∅ (extraHeaders o)
  ∪ <["authorization" := authorization o]>
      (<["User-Agent" := "claude-cli/2.0.52 (external, cli)"]>
         (<["anthropic-version" := "2023-06-01"]>
            (<["Content-Type" := "application/json"]> ∅))).

Definition requestConfig (o : Options) (payload : value) : RequestConfig :=
  mkRequestConfig "POST" (apiUrl o) payload (requestHeaders o)
    (default 30000%Z (timeoutOption o)) "stream" (fun _ => true)
    (proxyAgent o) (proxyAgent o)
    (match proxyAgent o with Some _ => Some false | None => None end).

(** *** The handlers of the body of a response that is not a 200 *)

(** The error message extracted from the body:
    [json.message || json.error?.message || json.error || errorMsg],
    and in the [catch] the body itself when it is shorter than 200. *)
Definition errorMessageOf (status : Z) (errorData : string) : value :=
  let errorMsg := VString ("API Error: " ++ pretty status) in
  let caught :=
    if Nat.ltb (String.length errorData) 200 then or (VString errorData) errorMsg
    else errorMsg in
  match JSON_parse R errorData with
  | Some json =>
      if nullish json then caught
      else or (or (or (get json "message") (optGet (get json "error") "message"))
                  (get json "error")) errorMsg
  | None => caught
  end.

(** [accountId && accountType] *)
Definition accountGiven (o : Options) : option (string * string) :=
  match accountId o, accountType o with
  | Some id, Some type =>
      if negb (String.eqb id EmptyString) && negb (String.eqb type EmptyString)
      then Some (id, type) else None
  | _, _ => None
  end.

Definition onErrorData (chunk : list Byte.byte) (r : Run) : Run :=
  mkRun (responseStream r) (request r) (launches r) (resolved r)
    (chunks r ++ [chunk]) (buffer r).

Definition onErrorEnd (o : Options) (status : Z) (r : Run) : Run :=
  let errorData := Buffer_toString R (concat (chunks r)) in
  let errorMsg := errorMessageOf status errorData in
  let launched :=
    if (400 <=? status)%Z && (status <? 600)%Z then
      match accountGiven o with
      | Some (id, type) => [LaunchDisable id type status errorMsg (apiUrl o) "test"]
      | None => []
      end
    else [] in
  mkRun (endTest false errorMsg (responseStream r)) (request r)
    (launches r ++ launched) true (chunks r) (buffer r).

(** The ['error'] handler of both kinds of body. *)
Definition onBodyError (message : string) (r : Run) : Run :=
  mkRun (endTest false (VString message) (responseStream r)) (request r)
    (launches r) true (chunks r) (buffer r).

(** *** The handlers of the body of a 200 response *)

(** The text the upstream reports in an [error] event:
    [data.error?.message || data.message || data.error || 'Unknown error'] *)
Definition streamErrorOf (data : value) : value :=
  or (or (or (optGet (get data "error") "message") (get data "message"))
         (get data "error")) (VString "Unknown error").

(** One iteration of [for (const line of lines)]. *)
Definition onLine (s : ResponseStream) (line : string) : ResponseStream :=
  if negb (startsWith "data:" line) then s
  else
    let jsonStr := trim (substringFrom 5 line) in
    if String.eqb jsonStr EmptyString || String.eqb jsonStr "[DONE]" then s
    else
      match JSON_parse R jsonStr with
      | None => s
      | Some data =>
          if nullish data then s
          else
            let s1 :=
              if isString (get data "type") "content_block_delta"
                 && toBoolean (optGet (get data "delta") "text")
              then sendSSE "content" [("text", optGet (get data "delta") "text")] s
              else s in
            let s2 :=
              if isString (get data "type") "message_stop"
              then sendSSE "message_stop" [] s1
              else s1 in
            if isString (get data "type") "error" || toBoolean (get data "error")
            then sendSSE "error" [("error", streamErrorOf data)] s2
            else s2
      end.

Definition onData (chunk : list Byte.byte) (r : Run) : Run :=
  let buffer := (buffer r ++ Buffer_toString R chunk)%string in
  let lines := split LF buffer in
  mkRun (foldl onLine (responseStream r) (removelast lines)) (request r)
    (launches r) (resolved r) (chunks r) (List.last lines EmptyString).

Definition onEnd (o : Options) (r : Run) : Run :=
  let launched :=
    match accountGiven o with
    | Some (id, type) => [LaunchRecover id type]
    | None => []
    end in
  mkRun (if writable (responseStream r) then endTest true VNull (responseStream r)
         else responseStream r)
    (request r) (launches r ++ launched) true (chunks r) (buffer r).

Definition onClientGone (r : Run) : Run :=
  mkRun (destroy (responseStream r)) (request r) (launches r) (resolved r)
    (chunks r) (buffer r).

(** What one happening does to a test whose response had [status]. *)
Definition happen (o : Options) (status : Z) (r : Run) (h : Happening) : Run :=
  match h with
  | ClientGone => onClientGone r
  | Error message => onBodyError message r
  | Data chunk => if (status =? 200)%Z then onData chunk r else onErrorData chunk r
  | End => if (status =? 200)%Z then onEnd o r else onErrorEnd o status r
  end.

Definition sseHeaders : list (string * string) :=
  [ ("Content-Type", "text/event-stream");
    ("Cache-Control", "no-cache");
    ("Connection", "keep-alive");
    ("X-Accel-Buffering", "no") ].

Definition sendStreamTestRequest (o : Options) (s : ResponseStream) : Outcome Run :=
  match (match payload o with
         | VUndefined =>
             createClaudeTestPayload (VString "claude-sonnet-4-5-20250929")
               (VObject [("stream", VBool true)])
         | p => Returned p
         end) with
  | Thrown message => Thrown message
  | Returned payload =>
      let s1 := if headersSent s then s else writeHead 200 sseHeaders s in
      let s2 := sendSSE "test_start" [("message", VString "Test started")] s1 in
      let config := requestConfig o payload in
      let r0 := mkRun s2 (Some config) [] false [] EmptyString in
      match axios R config with
      | Rejected message clientGone =>
          let s3 := if clientGone then destroy s2 else s2 in
          Returned (mkRun (endTest false (VString message) s3) (Some config) [] true
                      [] EmptyString)
      | Response status body => Returned (foldl (happen o status) r0 body)
      end
  end.
End Helper.

(** What a launched call does once the event loop runs it; its
    rejection is caught by the [.catch] of the call site. *)
Definition handleErrorResponse_of (E : Env) (accountId accountType : string) (statusCode : Z)
    (errorMessage : value) (apiUrl triggerType : string)
    : M AccountAutoDisableService.Result :=
  if ((statusCode <? 400) || (statusCode >=? 600))%Z then
    ret (AccountAutoDisableService.mkResult false None None)
  else
    match errorMessage with
    | VString message =>
        AccountAutoDisableService.handleErrorResponse E accountId accountType statusCode
          message apiUrl triggerType
    | VUndefined => throw "Cannot read properties of undefined (reading 'substring')"
    | VNull => throw "Cannot read properties of null (reading 'substring')"
    | _ => throw "errorMessage.substring is not a function"
    end.

Definition runLaunch (E : Env) (l : Launch) : M unit :=
  match l with
  | LaunchDisable accountId accountType statusCode errorMessage apiUrl triggerType =>
      try_catch
        (await handleErrorResponse_of E accountId accountType statusCode errorMessage
                 apiUrl triggerType in
         ret tt)
        (fun _ => ret tt)
  | LaunchRecover accountId accountType =>
      try_catch
        (await AutoRecoveryService.recoverAccountFromTest E accountId accountType in
         ret tt)
        (fun _ => ret tt)
  end.

End TestPayloadHelper.

(** ** An example runtime and an example test *)

(** An error body as the upstream sends it when it is overloaded:
    an [error] object without a [message]. *)
Definition overloadedBody : string :=
  ("{" ++ jsonQuote "error" ++ ":{" ++ jsonQuote "type" ++ ":"
   ++ jsonQuote "overloaded_error" ++ "}}")%string.

(** An example runtime: random bytes that are all zero, a parser that
    knows [overloadedBody] and rejects every other text, ASCII decoding,
    an upstream that refuses the connection and a response stream whose
    writes never raise. *)
Definition plainRuntime : TestPayloadHelper.Runtime :=
  TestPayloadHelper.mkRuntime
    (fun n => repeat Byte.x00 n)
    "123e4567-e89b-42d3-a456-426614174000"
    (fun text =>
       if String.eqb text overloadedBody then
         Some (TestPayloadHelper.VObject
                 [("error", TestPayloadHelper.VObject
                              [("type", TestPayloadHelper.VString "overloaded_error")])])
       else None)
    (fun _ => "{}")
    String.string_of_list_byte
    (fun _ => TestPayloadHelper.Rejected "connect ECONNREFUSED" false)
    (fun _ => false).

(** A test of the console account [X] with the default payload. *)
Definition testOfX : TestPayloadHelper.Options :=
  TestPayloadHelper.mkOptions "https://relay.example/v1/messages" "Bearer key"
    TestPayloadHelper.VUndefined None None None (Some "X") (Some "claude-console").

(** A response on which nothing was sent yet. *)
Definition freshStream : TestPayloadHelper.ResponseStream :=
  TestPayloadHelper.mkResponseStream false false false None [] 0.

(** ** Vocabulary of the further properties *)

(** The attribute [f] of the record of [accountId] held by [svc]; [None]
    when the record or the attribute is absent. *)
Definition fieldOf (w : World) (svc : Service) (accountId f : string) : option jsval :=
  accounts w !! (svc, accountId) ≫= (fun account => account !! f).

(** What [_validateAccountData] accepts: the record is present and both
    [autoDisabledAt] and [autoDisabledReason] are truthy. *)
Definition consistent (account : option (gmap string jsval)) : bool :=
  match account with
  | None => false
  | Some a => propTruthy a "autoDisabledAt" && propTruthy a "autoDisabledReason"
  end.

(** [consistent] for the record that [_getAccountByType] would read for a
    provider type; an unknown provider type makes the read raise, which
    [_validateAccountData] reports as not valid. *)
Definition consistentOf (w : World) (accountType accountId : string) : bool :=
  match serviceByType accountType with
  | Some svc => consistent (accounts w !! (svc, accountId))
  | None => false
  end.

(** The members of the index of [accountType] that a validation would
    reject, in the order [smembers] returns them. *)
Definition strays (w : World) (accountType : string) : list string :=
  filter (fun accountId => consistentOf w accountType accountId = false)
         (elements (smembersOf (indexKey accountType) w)).

(** The event is neither a record update nor an index add. *)
Definition readOrRemove (ev : Event) : Prop :=
  match ev.1 with
  | CUpdateAccount _ _ _ | CSadd _ _ => False
  | _ => True
  end.

(** From [w] to [w'] no record changed, no index set gained a member, and
    no record update or index add was even attempted. *)
Definition pruned (w w' : World) : Prop :=
  accounts w' = accounts w
  /\ (forall key member, member ∈ smembersOf key w' -> member ∈ smembersOf key w)
  /\ exists evs, trace w' = trace w ++ evs /\ Forall readOrRemove evs.

(** Between [w] and [w'] no attribute of any record changed, except
    possibly [lastAutoRecoveryAttempt]. *)
Definition stampedOnly (w w' : World) : Prop :=
  forall svc accountId f,
    f <> "lastAutoRecoveryAttempt" ->
    fieldOf w' svc accountId f = fieldOf w svc accountId f.

(** The account is out of the index of its provider type, or its record
    passes the validation. *)
Definition settled (svc : Service) (accountType accountId : string) (w : World) : Prop :=
  accountId ∉ smembersOf (indexKey accountType) w
  \/ consistent (accounts w !! (svc, accountId)) = true.

(** What the process may do with the service instance. *)
Inductive Op : Type :=
  | OpStart
  | OpStop
  | OpFire.

(** One operation on the instance and the Node.js host; [OpFire] is a
    firing of the timer the instance currently holds. *)
Definition step (config : AutoRecoveryService.Config)
    (sh : AutoRecoveryService.ServiceState * AutoRecoveryService.Host) (op : Op)
    : AutoRecoveryService.ServiceState * AutoRecoveryService.Host :=
  match op with
  | OpStart => AutoRecoveryService.start config sh.1 sh.2
  | OpStop => AutoRecoveryService.stop sh.1 sh.2
  | OpFire =>
      match AutoRecoveryService.intervalHandle sh.1 with
      | Some id => (sh.1, AutoRecoveryService.fire id sh.2)
      | None => sh
      end
  end.

(** The timer the instance holds, as [start] armed it. *)
Definition armed (s : AutoRecoveryService.ServiceState) : list AutoRecoveryService.Timer :=
  match AutoRecoveryService.intervalHandle s with
  | Some id =>
      [AutoRecoveryService.mkTimer id (AutoRecoveryService.testInterval s)
         AutoRecoveryService.ScheduledCheck]
  | None => []
  end.

(** The instance and the host agree: besides the timers [others] of the
    rest of the process, the host holds exactly the timer of the instance,
    and the instance holds a timer exactly when it is running. *)
Definition wellArmed (others : list AutoRecoveryService.Timer)
    (sh : AutoRecoveryService.ServiceState * AutoRecoveryService.Host) : Prop :=
  Forall (fun t => AutoRecoveryService.handle t < AutoRecoveryService.nextHandle sh.2)
         (AutoRecoveryService.timers sh.2)
  /\ (AutoRecoveryService.isRunning sh.1 = true
      <-> is_Some (AutoRecoveryService.intervalHandle sh.1))
  /\ AutoRecoveryService.timers sh.2 = others ++ armed sh.1
  /\ (forall id, AutoRecoveryService.intervalHandle sh.1 = Some id ->
        Forall (fun t => AutoRecoveryService.handle t < id) others).

(** A frame that reports progress: [test_start], [content],
    [message_stop] or [error]. *)
Definition progressFrame (R : TestPayloadHelper.Runtime) (s : string) : Prop :=
  exists type data,
    type ∈ ["test_start"; "content"; "message_stop"; "error"]
    /\ s = TestPayloadHelper.frame R
             (TestPayloadHelper.VObject (("type", TestPayloadHelper.VString type) :: data)).

(** What a test wrote to a response stream between [s0] and [s]: frames
    of progress, then at most one [test_complete] frame, written exactly
    when the test ended the stream; nothing once the stream was ended. *)
Definition reported (R : TestPayloadHelper.Runtime)
    (s0 s : TestPayloadHelper.ResponseStream) : Prop :=
  exists progress final,
    TestPayloadHelper.written s = TestPayloadHelper.written s0 ++ progress ++ final
    /\ Forall (progressFrame R) progress
    /\ (final = []
        \/ exists success error,
             final = [TestPayloadHelper.frame R (TestPayloadHelper.completion success error)])
    /\ (TestPayloadHelper.writableEnded s = true
        <-> TestPayloadHelper.writableEnded s0 = true \/ final <> [])
    /\ (TestPayloadHelper.writableEnded s0 = true -> progress = [] /\ final = []).

(** The calls a test with response status [status] may launch. *)
Definition launchOf (o : TestPayloadHelper.Options) (status : Z)
    (l : TestPayloadHelper.Launch) : Prop :=
  match l with
  | TestPayloadHelper.LaunchDisable accountId accountType statusCode errorMessage apiUrl
      triggerType =>
      TestPayloadHelper.accountGiven o = Some (accountId, accountType)
      /\ statusCode = status
      /\ (400 <= status < 600)%Z
      /\ TestPayloadHelper.toBoolean errorMessage = true
      /\ apiUrl = TestPayloadHelper.apiUrl o
      /\ triggerType = "test"
  | TestPayloadHelper.LaunchRecover accountId accountType =>
      TestPayloadHelper.accountGiven o = Some (accountId, accountType)
      /\ status = 200%Z
  end.

(** The runtime [R] with an upstream that answers every request with
    [outcome]. *)
Definition answering (R : TestPayloadHelper.Runtime) (outcome : TestPayloadHelper.AxiosOutcome)
    : TestPayloadHelper.Runtime :=
  TestPayloadHelper.mkRuntime
    (TestPayloadHelper.crypto_randomBytes R) (TestPayloadHelper.crypto_randomUUID R)
    (TestPayloadHelper.JSON_parse R) (TestPayloadHelper.JSON_stringify R)
    (TestPayloadHelper.Buffer_toString R) (fun _ => outcome)
    (TestPayloadHelper.writeThrows R).

(** The text of a body received in the chunks [cs], each decoded on its
    own as the ['data'] handler of a 200 response does. *)
Fixpoint textOf (R : TestPayloadHelper.Runtime) (cs : list (list Byte.byte)) : string :=
  match cs with
  | [] => EmptyString
  | c :: rest => (TestPayloadHelper.Buffer_toString R c ++ textOf R rest)%string
  end.

(** The character [c] occurs in [s]. *)
Fixpoint occurs (c : Ascii.ascii) (s : string) : bool :=
  match s with
  | EmptyString => false
  | String a rest => Ascii.eqb a c || occurs c rest
  end.

(** A stream the test can write to, on which no write raises. *)
Definition healthy (R : TestPayloadHelper.Runtime) (s : TestPayloadHelper.ResponseStream)
    : Prop :=
  TestPayloadHelper.destroyed s = false
  /\ TestPayloadHelper.writableEnded s = false
  /\ forall n, TestPayloadHelper.writeThrows R n = false.

(** All characters of [s] are lower-case hexadecimal digits. *)
Fixpoint isHex (s : string) : bool :=
  match s with
  | EmptyString => true
  | String c rest =>
      let n := Ascii.nat_of_ascii c in
      ((Nat.leb 48 n && Nat.leb n 57) || (Nat.leb 97 n && Nat.leb n 102)) && isHex rest
  end.

(** The response stream once the test has sent the headers (unless they
    were sent already) and the [test_start] frame. *)
Definition started (R : TestPayloadHelper.Runtime) (s : TestPayloadHelper.ResponseStream)
    : TestPayloadHelper.ResponseStream :=
  TestPayloadHelper.sendSSE R "test_start"
    [("message", TestPayloadHelper.VString "Test started")]
    (if TestPayloadHelper.headersSent s then s
     else TestPayloadHelper.writeHead 200 TestPayloadHelper.sseHeaders s).

Definition isEnd (h : TestPayloadHelper.Happening) : bool :=
  match h with
  | TestPayloadHelper.End => true
  | _ => false
  end.

Definition isBodyError (h : TestPayloadHelper.Happening) : bool :=
  match h with
  | TestPayloadHelper.Error _ => true
  | _ => false
  end.

(** The payload a test sends: the one given, or the default Claude
    payload with [stream: true]. *)
Definition payloadSent (R : TestPayloadHelper.Runtime) (o : TestPayloadHelper.Options)
    : Outcome TestPayloadHelper.value :=
  match TestPayloadHelper.payload o with
  | TestPayloadHelper.VUndefined =>
      TestPayloadHelper.createClaudeTestPayload R
        (TestPayloadHelper.VString "claude-sonnet-4-5-20250929")
        (TestPayloadHelper.VObject [("stream", TestPayloadHelper.VBool true)])
  | p => Returned p
  end.

(* ===================================================================== *)
(** * Properties *)

(** ** Reasoning about calls: postconditions of a run *)

Lemma wp_ret {A} (a : A) Q w : Q (Returned a) w -> wp (ret a) Q w.
Proof. done. Qed.

Lemma wp_throw {A} e (Q : Outcome A -> World -> Prop) w :
  Q (Thrown e) w -> wp (throw e) Q w.
Proof. done. Qed.

Lemma wp_bind {A B} (m : M A) (k : A -> M B) Q w :
  wp m (fun o w1 => match o with
                    | Returned a => wp (k a) Q w1
                    | Thrown e => Q (Thrown e) w1
                    end) w ->
  wp (bind m k) Q w.
Proof. unfold wp, bind. by destruct (m w) as [[a|e] w1]. Qed.

Lemma wp_try_catch {A} (body : M A) (h : string -> M A) Q w :
  wp body (fun o w1 => match o with
                       | Returned a => Q (Returned a) w1
                       | Thrown e => wp (h e) Q w1
                       end) w ->
  wp (try_catch body h) Q w.
Proof. unfold wp, try_catch. by destruct (body w) as [[a|e] w1]. Qed.

Lemma wp_intro {A} (m : M A) (Q : Outcome A -> World -> Prop) w :
  (forall o w', m w = (o, w') -> Q o w') -> wp m Q w.
Proof. unfold wp. intros H. apply H. by destruct (m w). Qed.

Lemma wp_external {A} E c (run : World -> A * World) Q w :
  (forall e, fault E (ticks w) = Some e -> Q (Thrown e) (logCall c false (tick w))) ->
  (fault E (ticks w) = None ->
   Q (Returned (run (tick w)).1) (logCall c true (run (tick w)).2)) ->
  wp (external E c run) Q w.
Proof.
  unfold wp, external. intros Hf Hok.
  destruct (fault E (ticks w)) as [e|]; [by apply Hf|].
  destruct (run (tick w)) as [a w2]. by apply Hok.
Qed.

Lemma wp_date E Q w :
  Q (Returned (toISOString E (clock E (ticks w)))) (tick w) ->
  wp (new_Date_toISOString E) Q w.
Proof. done. Qed.

Lemma wp_probe E svc accountId Q w :
  (forall o, Q o (logCall (CTestAccountConnection svc accountId)
                    (match o with Returned _ => true | Thrown _ => false end) (tick w))) ->
  wp (testAccountConnection E svc accountId) Q w.
Proof.
  unfold wp, testAccountConnection. intros H.
  destruct (probe E (ticks w) svc accountId) as [r|e]; apply H.
Qed.

Lemma added_app w w' evs : trace w' = trace w ++ evs -> added w w' = evs.
Proof. intros H. unfold added. rewrite H. apply drop_app_length. Qed.

Lemma added_untouched svc accountId key w w' :
  untouched svc accountId key w w' -> Forall (noUpdateOf svc accountId) (added w w').
Proof. intros (_ & _ & _ & evs & H & Hf). by rewrite (added_app _ _ _ H). Qed.

(** ** Provider types *)

Lemma serviceByType_recognized accountType :
  accountType ∈ accountTypes <-> is_Some (serviceByType accountType).
Proof.
  unfold accountTypes, serviceByType. split.
  - intros H.
    repeat (apply elem_of_cons in H as [->|H]; [by eexists|]).
    by apply elem_of_nil in H.
  - intros [svc H].
    repeat match type of H with
    | context [String.eqb ?a ?b] =>
        destruct (String.eqb_spec a b) as [->|_]; [set_solver|]
    end.
    done.
Qed.

Lemma serviceByType_unknown accountType :
  accountType ∉ accountTypes <-> serviceByType accountType = None.
Proof.
  rewrite serviceByType_recognized, <- eq_None_not_Some. done.
Qed.

Lemma serviceByType_inj t1 t2 svc :
  serviceByType t1 = Some svc -> serviceByType t2 = Some svc -> t1 = t2.
Proof.
  unfold serviceByType. intros H1 H2.
  repeat match type of H1 with
  | context [String.eqb ?a ?b] => destruct (String.eqb_spec a b) as [->|_]
  end;
  repeat match type of H2 with
  | context [String.eqb ?a ?b] => destruct (String.eqb_spec a b) as [->|_]
  end; congruence.
Qed.

Lemma indexKey_inj t1 t2 : indexKey t1 = indexKey t2 -> t1 = t2.
Proof. unfold indexKey. intros H. by simplify_eq/=. Qed.

Lemma gate_closed (statusCode : Z) :
  (statusCode < 400 \/ 599 < statusCode)%Z ->
  ((statusCode <? 400) || (statusCode >=? 600))%Z = true.
Proof.
  intros H. rewrite Z.geb_leb. apply orb_true_iff.
  rewrite Z.ltb_lt, Z.leb_le. lia.
Qed.

Lemma gate_open (statusCode : Z) :
  (400 <= statusCode <= 599)%Z ->
  ((statusCode <? 400) || (statusCode >=? 600))%Z = false.
Proof.
  intros H. rewrite Z.geb_leb. apply orb_false_iff.
  rewrite Z.ltb_ge, Z.leb_gt. lia.
Qed.

(** ** The disable path, run step by step *)

Section DisablePath.
Import AccountAutoDisableService.
Variable E : Env.

Lemma handleErrorResponse_closed accountId accountType statusCode errorMessage apiUrl triggerType w :
  (statusCode < 400 \/ 599 < statusCode)%Z ->
  handleErrorResponse E accountId accountType statusCode errorMessage apiUrl triggerType w
  = (Returned (mkResult false None None), w).
Proof. intros H. unfold handleErrorResponse. by rewrite gate_closed. Qed.

Lemma handleErrorResponse_run accountId accountType svc statusCode errorMessage apiUrl triggerType w :
  (400 <= statusCode <= 599)%Z ->
  serviceByType accountType = Some svc ->
  let updates :=
    disableUpdates statusCode errorMessage apiUrl triggerType
      (isoAt E (ticks w)) (isoAt E (1 + ticks w)) in
  let w3 := afterRecordWrite svc accountId updates w in
  handleErrorResponse E accountId accountType statusCode errorMessage apiUrl triggerType w
  = match fault E (2 + ticks w) with
    | Some e =>
        (Returned (mkResult false None (Some e)),
         logCall (CUpdateAccount svc accountId updates) false (tick (tick (tick w))))
    | None =>
        match fault E (3 + ticks w) with
        | Some e =>
            (Returned (mkResult false None (Some e)),
             logCall (CSadd (indexKey accountType) accountId) false (tick w3))
        | None =>
            (Returned (mkResult true (Some (reasonText statusCode errorMessage)) None),
             logCall (CSadd (indexKey accountType) accountId) true
               (setRedisSets
                  (<[indexKey accountType :=
                       {[accountId]} ∪ smembersOf (indexKey accountType) w]> (redisSets w))
                  (tick w3)))
        end
    end.
Proof.
  intros Hr Hs. unfold handleErrorResponse. rewrite (gate_open _ Hr).
  unfold bind, try_catch, new_Date_toISOString, _updateAccountByType. simpl.
  rewrite Hs. unfold updateAccount, sadd, external, ret, bind. simpl.
  destruct (fault E (S (S (ticks w)))) as [e|]; [done|]. simpl.
  destruct (fault E (S (S (S (ticks w))))) as [e|]; done.
Qed.

Lemma handleErrorResponse_unknown accountId accountType statusCode errorMessage apiUrl triggerType w :
  (400 <= statusCode <= 599)%Z ->
  serviceByType accountType = None ->
  handleErrorResponse E accountId accountType statusCode errorMessage apiUrl triggerType w
  = (Returned (mkResult false None (Some ("Unknown account type: " ++ accountType)%string)),
     tick (tick w)).
Proof.
  intros Hr Hs. unfold handleErrorResponse. rewrite (gate_open _ Hr).
  unfold bind, try_catch, new_Date_toISOString, _updateAccountByType. simpl.
  by rewrite Hs.
Qed.

Lemma handleErrorResponse_draft_unknown accountId accountType statusCode errorMessage apiUrl triggerType w :
  (400 <= statusCode <= 599)%Z ->
  serviceByType accountType = None ->
  handleErrorResponse_draft E accountId accountType statusCode errorMessage apiUrl triggerType w
  = (Thrown ("Unknown account type: " ++ accountType)%string, tick (tick w)).
Proof.
  intros Hr Hs. unfold handleErrorResponse_draft. rewrite (gate_open _ Hr).
  unfold bind, new_Date_toISOString, _updateAccountByType. simpl.
  by rewrite Hs.
Qed.

Lemma handleErrorResponse_draft_run accountId accountType svc statusCode errorMessage apiUrl triggerType w :
  (400 <= statusCode <= 599)%Z ->
  serviceByType accountType = Some svc ->
  let updates :=
    disableUpdates statusCode errorMessage apiUrl triggerType
      (isoAt E (ticks w)) (isoAt E (1 + ticks w)) in
  let w3 := afterRecordWrite svc accountId updates w in
  handleErrorResponse_draft E accountId accountType statusCode errorMessage apiUrl triggerType w
  = match fault E (2 + ticks w) with
    | Some e =>
        (Thrown e,
         logCall (CUpdateAccount svc accountId updates) false (tick (tick (tick w))))
    | None =>
        match fault E (3 + ticks w) with
        | Some e =>
            (Thrown e, logCall (CSadd (indexKey accountType) accountId) false (tick w3))
        | None =>
            (Returned (mkResult true (Some (reasonText statusCode errorMessage)) None),
             logCall (CSadd (indexKey accountType) accountId) true
               (setRedisSets
                  (<[indexKey accountType :=
                       {[accountId]} ∪ smembersOf (indexKey accountType) w]> (redisSets w))
                  (tick w3)))
        end
    end.
Proof.
  intros Hr Hs. unfold handleErrorResponse_draft. rewrite (gate_open _ Hr).
  unfold bind, new_Date_toISOString, _updateAccountByType. simpl.
  rewrite Hs. unfold updateAccount, sadd, external, ret, bind. simpl.
  destruct (fault E (S (S (ticks w)))) as [e|]; [done|]. simpl.
  destruct (fault E (S (S (S (ticks w))))) as [e|]; done.
Qed.
End DisablePath.

(** ** Properties of [handleErrorResponse] *)

Section DisableProperties.
Import AccountAutoDisableService.

(** C1 (amended).  A status code outside 400..599 makes
    [handleErrorResponse] a no-op: it returns [{ disabled: false }] and
    the world (records, index, trace) is unchanged.  A status code inside
    400..599 makes it write the record and add to the index whenever the
    provider type is a recognized one and the record store and the index
    accept the two calls. *)
Theorem handleErrorResponse_status_gate
    E accountId accountType statusCode errorMessage apiUrl triggerType w :
  ((statusCode < 400 \/ 599 < statusCode)%Z ->
   handleErrorResponse E accountId accountType statusCode errorMessage apiUrl triggerType w
   = (Returned (mkResult false None None), w))
  /\ (forall svc,
        (400 <= statusCode <= 599)%Z ->
        serviceByType accountType = Some svc ->
        fault E (2 + ticks w) = None ->
        fault E (3 + ticks w) = None ->
        exists updates w',
          handleErrorResponse E accountId accountType statusCode errorMessage apiUrl triggerType w
          = (Returned (mkResult true (Some (reasonText statusCode errorMessage)) None), w')
          /\ trace w' = trace w ++ [ (CUpdateAccount svc accountId updates, true);
                                     (CSadd (indexKey accountType) accountId, true) ]
          /\ accounts w' !! (svc, accountId) = Some (merged svc accountId updates w)
          /\ accountId ∈ smembersOf (indexKey accountType) w').
Proof.
  split; [apply handleErrorResponse_closed|].
  intros svc Hr Hs Hf2 Hf3.
  pose proof (handleErrorResponse_run E accountId accountType svc statusCode
                errorMessage apiUrl triggerType w Hr Hs) as Hrun.
  simpl in Hrun. eexists _, _. rewrite Hrun. simpl in Hf2, Hf3.
  rewrite Hf2, Hf3. split; [reflexivity|].
  unfold afterRecordWrite, smembersOf. simpl.
  split; [by rewrite <- app_assoc|].
  split; [by rewrite lookup_insert_eq|].
  rewrite lookup_insert_eq. simpl.
  apply elem_of_union. left. by apply elem_of_singleton.
Qed.

Lemma handleErrorResponse_status_gate_witness :
  AccountAutoDisableService.handleErrorResponse calmEnv "X" "claude-console" 200
    "ok" "https://relay.example/v1/messages" "request" worldX
  = (Returned (mkResult false None None), worldX)
  /\ exists updates w',
       handleErrorResponse calmEnv "X" "claude-console" 404
         "not found" "https://relay.example/v1/messages" "request" worldX
       = (Returned (mkResult true (Some (reasonText 404 "not found")) None), w')
       /\ trace w' = trace worldX ++ [ (CUpdateAccount claudeConsoleAccountService "X" updates, true);
                                       (CSadd (indexKey "claude-console") "X", true) ]
       /\ accounts w' !! (claudeConsoleAccountService, "X")
          = Some (merged claudeConsoleAccountService "X" updates worldX)
       /\ "X" ∈ smembersOf (indexKey "claude-console") w'.
Proof.
  split.
  - apply (proj1 (handleErrorResponse_status_gate calmEnv "X" "claude-console" 200
                    "ok" "https://relay.example/v1/messages" "request" worldX)).
    left. lia.
  - apply (proj2 (handleErrorResponse_status_gate calmEnv "X" "claude-console" 404
                    "not found" "https://relay.example/v1/messages" "request" worldX)
             claudeConsoleAccountService).
    + lia.
    + reflexivity.
    + reflexivity.
    + reflexivity.
Defined.

(** C1 as stated fails: a 404 reported for the provider type
    [gemini-api], which the [switch] of [_updateAccountByType] does not
    know, is inside 400..599 and yet neither the record store nor the
    index is written. *)
Lemma status_404_unknown_type_writes_nothing :
  let run := handleErrorResponse calmEnv "X" "gemini-api" 404
               "not found" "https://relay.example/v1/messages" "request" worldX in
  (400 <= 404 <= 599)%Z
  /\ run.1 = Returned (mkResult false None (Some "Unknown account type: gemini-api"))
  /\ accounts run.2 = accounts worldX
  /\ redisSets run.2 = redisSets worldX
  /\ trace run.2 = trace worldX.
Proof. split; [lia|]. repeat split; vm_compute; reflexivity. Qed.

Lemma applyUpdates_disable account statusCode errorMessage apiUrl triggerType t1 t2 :
  applyUpdates (disableUpdates statusCode errorMessage apiUrl triggerType t1 t2) account
  = <["autoDisabledDetails" :=
        JStr (JSON_stringify
                [ ("statusCode", JNum statusCode);
                  ("errorMessage", JStr errorMessage);
                  ("apiUrl", JStr apiUrl);
                  ("triggerType", JStr triggerType);
                  ("disabledAt", JStr t2) ])]>
      (<["autoDisabledReason" := JStr (reasonText statusCode errorMessage)]>
         (<["autoDisabledAt" := JStr t1]>
            (<["schedulable" := JBool false]> account))).
Proof. reflexivity. Qed.

(** C5 (amended).  On a qualifying input (status code in 400..599) whose
    provider type is recognized, and when the record store and the index
    accept the calls, [handleErrorResponse] writes [schedulable = false],
    [autoDisabledAt = now], [autoDisabledReason] = "HTTP <status>: <first
    200 characters of the message>" and [autoDisabledDetails] = the JSON
    text of status code, full message, target URL, trigger kind (and a
    second timestamp), leaves the other attributes alone, and then adds the
    account to the index of its provider type.  A 404 with message
    "not found" gives the reason "HTTP 404: not found". *)
Theorem handleErrorResponse_quarantine_fields
    E accountId accountType svc statusCode errorMessage apiUrl triggerType w :
  (400 <= statusCode <= 599)%Z ->
  serviceByType accountType = Some svc ->
  fault E (2 + ticks w) = None ->
  fault E (3 + ticks w) = None ->
  let reason :=
    ("HTTP " ++ pretty statusCode ++ ": " ++ String.substring 0 200 errorMessage)%string in
  let details :=
    JSON_stringify [ ("statusCode", JNum statusCode);
                     ("errorMessage", JStr errorMessage);
                     ("apiUrl", JStr apiUrl);
                     ("triggerType", JStr triggerType);
                     ("disabledAt", JStr (isoAt E (1 + ticks w))) ] in
  exists updates account w',
    handleErrorResponse E accountId accountType statusCode errorMessage apiUrl triggerType w
    = (Returned (mkResult true (Some reason) None), w')
    /\ accounts w' !! (svc, accountId) = Some account
    /\ account !! "schedulable" = Some (JBool false)
    /\ account !! "autoDisabledAt" = Some (JStr (isoAt E (ticks w)))
    /\ account !! "autoDisabledReason" = Some (JStr reason)
    /\ account !! "autoDisabledDetails" = Some (JStr details)
    /\ (forall f,
          f ∉ ["schedulable"; "autoDisabledAt"; "autoDisabledReason"; "autoDisabledDetails"] ->
          account !! f = default ∅ (accounts w !! (svc, accountId)) !! f)
    /\ accountId ∈ smembersOf (indexKey accountType) w'
    /\ trace w' = trace w ++ [ (CUpdateAccount svc accountId updates, true);
                               (CSadd (indexKey accountType) accountId, true) ]
    /\ reasonText 404 "not found" = "HTTP 404: not found".
Proof.
  intros Hr Hs Hf2 Hf3 reason details.
  pose proof (handleErrorResponse_run E accountId accountType svc statusCode
                errorMessage apiUrl triggerType w Hr Hs) as Hrun.
  simpl in Hrun, Hf2, Hf3. rewrite Hf2, Hf3 in Hrun.
  eexists _, _, _. split; [exact Hrun|].
  unfold afterRecordWrite, smembersOf, merged, logCall, setRedisSets, setAccounts, tick.
  cbn [accounts redisSets trace ticks].
  split; [by rewrite lookup_insert_eq, applyUpdates_disable|].
  split; [by rewrite !lookup_insert_ne, lookup_insert_eq by done|].
  split; [by rewrite !lookup_insert_ne, lookup_insert_eq by done|].
  split; [by rewrite lookup_insert_ne, lookup_insert_eq by done|].
  split; [by rewrite lookup_insert_eq|].
  split.
  { intros f Hf. rewrite !elem_of_cons, elem_of_nil in Hf.
    rewrite !lookup_insert_ne; [done|..]; intros <-; tauto. }
  split; [rewrite lookup_insert_eq; simpl; apply elem_of_union; left;
          by apply elem_of_singleton|].
  split; [by rewrite <- app_assoc|].
  reflexivity.
Qed.

Lemma handleErrorResponse_quarantine_fields_witness :
  exists updates account w',
    handleErrorResponse calmEnv "X" "claude-console" 404
      "not found" "https://relay.example/v1/messages" "request" worldX
    = (Returned (mkResult true (Some "HTTP 404: not found") None), w')
    /\ accounts w' !! (claudeConsoleAccountService, "X") = Some account
    /\ account !! "schedulable" = Some (JBool false)
    /\ account !! "autoDisabledAt" = Some (JStr "t1768478400000")
    /\ account !! "autoDisabledReason" = Some (JStr "HTTP 404: not found")
    /\ account !! "autoDisabledDetails"
       = Some (JStr (JSON_stringify
                       [ ("statusCode", JNum 404);
                         ("errorMessage", JStr "not found");
                         ("apiUrl", JStr "https://relay.example/v1/messages");
                         ("triggerType", JStr "request");
                         ("disabledAt", JStr "t1768478400001") ]))
    /\ (forall f,
          f ∉ ["schedulable"; "autoDisabledAt"; "autoDisabledReason"; "autoDisabledDetails"] ->
          account !! f = default ∅ (accounts worldX !! (claudeConsoleAccountService, "X")) !! f)
    /\ "X" ∈ smembersOf (indexKey "claude-console") w'
    /\ trace w' = trace worldX ++ [ (CUpdateAccount claudeConsoleAccountService "X" updates, true);
                                    (CSadd (indexKey "claude-console") "X", true) ]
    /\ reasonText 404 "not found" = "HTTP 404: not found".
Proof.
  apply (handleErrorResponse_quarantine_fields calmEnv "X" "claude-console"
           claudeConsoleAccountService 404 "not found"
           "https://relay.example/v1/messages" "request" worldX).
  - lia.
  - reflexivity.
  - reflexivity.
  - reflexivity.
Defined.

(** C5 as stated fails: a 500 for the provider type [openai], unknown to
    [_updateAccountByType], qualifies by its status code, yet no field of
    the record is written and the account is not added to the index. *)
Lemma status_500_unknown_type_sets_no_field :
  let run := handleErrorResponse calmEnv "X" "openai" 500
               "upstream failure" "https://relay.example/v1/responses" "test" worldX in
  (400 <= 500 <= 599)%Z
  /\ run.1 = Returned (mkResult false None (Some "Unknown account type: openai"))
  /\ accounts run.2 !! (claudeConsoleAccountService, "X") = Some healthyX
  /\ healthyX !! "schedulable" = Some (JBool true)
  /\ healthyX !! "autoDisabledReason" = None
  /\ ("X" ∉ smembersOf (indexKey "openai") run.2)
  /\ trace run.2 = [].
Proof.
  split; [lia|]. repeat split; try (vm_compute; reflexivity).
  intros H. vm_compute in H. discriminate H.
Qed.

(** C8.  A provider type that is not one of the recognized ones makes
    [handleErrorResponse] fail for that call only, with nothing written:
    the records, the index and the trace of external calls are unchanged,
    the result is not-disabled, and for a qualifying status code it
    carries the error "Unknown account type: <type>" (the first draft
    raises that error instead). *)
Theorem handleErrorResponse_unrecognized_type
    E accountId accountType statusCode errorMessage apiUrl triggerType w :
  accountType ∉ accountTypes ->
  (exists r w',
     handleErrorResponse E accountId accountType statusCode errorMessage apiUrl triggerType w
     = (Returned r, w')
     /\ disabled r = false
     /\ accounts w' = accounts w
     /\ redisSets w' = redisSets w
     /\ trace w' = trace w
     /\ ((400 <= statusCode <= 599)%Z ->
         error r = Some ("Unknown account type: " ++ accountType)%string))
  /\ (exists o w',
        handleErrorResponse_draft E accountId accountType statusCode errorMessage
          apiUrl triggerType w = (o, w')
        /\ accounts w' = accounts w
        /\ redisSets w' = redisSets w
        /\ trace w' = trace w
        /\ ((400 <= statusCode <= 599)%Z ->
            o = Thrown ("Unknown account type: " ++ accountType)%string)).
Proof.
  intros Hu. apply serviceByType_unknown in Hu.
  destruct (decide (400 <= statusCode <= 599)%Z) as [Hr|Hr].
  - split.
    + eexists _, _. rewrite handleErrorResponse_unknown by assumption.
      repeat split; reflexivity.
    + eexists _, _. rewrite handleErrorResponse_draft_unknown by assumption.
      repeat split; reflexivity.
  - assert (statusCode < 400 \/ 599 < statusCode)%Z as Hc by lia.
    split.
    + eexists _, _. rewrite handleErrorResponse_closed by assumption.
      repeat split; try reflexivity. intros; lia.
    + eexists _, _. unfold handleErrorResponse_draft. rewrite gate_closed by assumption.
      repeat split; try reflexivity. intros; lia.
Qed.

Lemma handleErrorResponse_unrecognized_type_witness :
  exists r w',
    handleErrorResponse calmEnv "X" "gemini-api" 404
      "not found" "https://relay.example/v1/messages" "request" worldX = (Returned r, w')
    /\ disabled r = false
    /\ accounts w' = accounts worldX
    /\ redisSets w' = redisSets worldX
    /\ trace w' = trace worldX
    /\ ((400 <= 404 <= 599)%Z ->
        error r = Some ("Unknown account type: " ++ "gemini-api")%string).
Proof.
  apply (handleErrorResponse_unrecognized_type calmEnv "X" "gemini-api" 404
           "not found" "https://relay.example/v1/messages" "request" worldX).
  apply serviceByType_unknown. reflexivity.
Defined.
End DisableProperties.

(** ** The re-admission path, run step by step *)

Section RecoveryPath.
Import AutoRecoveryService.
Variable E : Env.

Lemma _recoverAccount_unknown accountId accountType w :
  serviceByType accountType = None ->
  _recoverAccount E accountId accountType w
  = (Thrown ("Unknown account type: " ++ accountType)%string, tick (tick w)).
Proof.
  intros Hs. unfold _recoverAccount, bind, new_Date_toISOString, _updateAccountByType.
  simpl. by rewrite Hs.
Qed.

Lemma _recoverAccount_run accountId accountType svc w :
  serviceByType accountType = Some svc ->
  let updates := recoverUpdates (isoAt E (ticks w)) (isoAt E (1 + ticks w)) in
  let w3 := afterRecordWrite svc accountId updates w in
  let w4 := logCall CGetClientSafe true (tick w3) in
  _recoverAccount E accountId accountType w
  = match fault E (2 + ticks w) with
    | Some e =>
        (Thrown e, logCall (CUpdateAccount svc accountId updates) false (tick (tick (tick w))))
    | None =>
        match fault E (3 + ticks w) with
        | Some e => (Thrown e, logCall CGetClientSafe false (tick w3))
        | None =>
            match fault E (4 + ticks w) with
            | Some e =>
                (Thrown e, logCall (CSrem (indexKey accountType) accountId) false (tick w4))
            | None =>
                (Returned tt,
                 logCall (CSrem (indexKey accountType) accountId) true
                   (setRedisSets
                      (<[indexKey accountType :=
                           smembersOf (indexKey accountType) w ∖ {[accountId]}]> (redisSets w))
                      (tick w4)))
            end
        end
    end.
Proof.
  intros Hs. unfold _recoverAccount, bind, new_Date_toISOString, _updateAccountByType.
  simpl. rewrite Hs. unfold updateAccount, getClientSafe, srem, external. simpl.
  destruct (fault E (S (S (ticks w)))) as [e|]; [done|]. simpl.
  destruct (fault E (S (S (S (ticks w))))) as [e|]; [done|]. simpl.
  destruct (fault E (S (S (S (S (ticks w)))))) as [e|]; done.
Qed.

Lemma applyUpdates_recover account t1 t2 :
  applyUpdates (recoverUpdates t1 t2) account
  = <["autoRecoveredAt" := JStr t2]>
      (<["lastAutoRecoveryAttempt" := JStr t1]>
         (delete "autoDisabledDetails"
            (delete "autoDisabledReason"
               (delete "autoDisabledAt"
                  (<["schedulable" := JBool true]> account))))).
Proof. reflexivity. Qed.
End RecoveryPath.

Section Ordering.
Import AccountAutoDisableService AutoRecoveryService.

(** C6 (amended).  On the disable path and on the re-admission path the
    record update is applied before the index operation is attempted:
    whenever the call attempts the index add (or the index removal), the
    external calls it made are exactly the committed record update followed
    by that attempt, and the record already holds the update.  When the
    index add fails after the record update committed,
    [handleErrorResponse] returns [{ disabled: false, error }] with the
    record left updated and the index unchanged. *)
Theorem record_update_precedes_index_operation E accountId accountType w :
  (forall statusCode errorMessage apiUrl triggerType key member ok,
     let w' := (handleErrorResponse E accountId accountType statusCode errorMessage
                  apiUrl triggerType w).2 in
     (CSadd key member, ok) ∈ added w w' ->
     exists svc updates,
       added w w' = [ (CUpdateAccount svc accountId updates, true);
                      (CSadd (indexKey accountType) accountId, ok) ]
       /\ accounts w' !! (svc, accountId) = Some (merged svc accountId updates w))
  /\ (forall key member ok,
        let w' := (_recoverAccount E accountId accountType w).2 in
        (CSrem key member, ok) ∈ added w w' ->
        exists svc updates,
          added w w' = [ (CUpdateAccount svc accountId updates, true);
                         (CGetClientSafe, true);
                         (CSrem (indexKey accountType) accountId, ok) ]
          /\ accounts w' !! (svc, accountId) = Some (merged svc accountId updates w))
  /\ (forall svc statusCode errorMessage apiUrl triggerType e,
        (400 <= statusCode <= 599)%Z ->
        serviceByType accountType = Some svc ->
        fault E (2 + ticks w) = None ->
        fault E (3 + ticks w) = Some e ->
        exists updates w',
          handleErrorResponse E accountId accountType statusCode errorMessage apiUrl triggerType w
          = (Returned (AccountAutoDisableService.mkResult false None (Some e)), w')
          /\ added w w' = [ (CUpdateAccount svc accountId updates, true);
                            (CSadd (indexKey accountType) accountId, false) ]
          /\ accounts w' !! (svc, accountId) = Some (merged svc accountId updates w)
          /\ redisSets w' = redisSets w).
Proof.
  split; [|split].
  - intros statusCode errorMessage apiUrl triggerType key member ok.
    destruct (decide (400 <= statusCode <= 599)%Z) as [Hr|Hr].
    + destruct (serviceByType accountType) as [svc|] eqn:Hs.
      * pose proof (handleErrorResponse_run E accountId accountType svc statusCode
                      errorMessage apiUrl triggerType w Hr Hs) as Hrun.
        simpl in Hrun. rewrite Hrun.
        destruct (fault E (S (S (ticks w)))) as [e|].
        { cbn zeta. erewrite added_app by reflexivity.
          intros Hin. apply list_elem_of_singleton in Hin. discriminate. }
        destruct (fault E (S (S (S (ticks w))))) as [e|].
        all: cbn zeta;
          erewrite added_app
            by (unfold afterRecordWrite; simpl; rewrite <- app_assoc; reflexivity);
          intros Hin;
          apply elem_of_cons in Hin as [Hin|Hin]; [discriminate|];
          apply list_elem_of_singleton in Hin; injection Hin as -> -> ->;
          eexists _, _; split; [reflexivity|];
          unfold afterRecordWrite; simpl; by rewrite lookup_insert_eq.
      * rewrite handleErrorResponse_unknown by assumption.
        cbn zeta. erewrite added_app by (simpl; symmetry; apply app_nil_r).
        intros Hin. by apply elem_of_nil in Hin.
    + rewrite handleErrorResponse_closed by lia.
      cbn zeta. erewrite added_app by (simpl; symmetry; apply app_nil_r).
      intros Hin. by apply elem_of_nil in Hin.
  - intros key member ok.
    destruct (serviceByType accountType) as [svc|] eqn:Hs.
    + pose proof (_recoverAccount_run E accountId accountType svc w Hs) as Hrun.
      simpl in Hrun. rewrite Hrun.
      destruct (fault E (S (S (ticks w)))) as [e|].
      { cbn zeta. erewrite added_app by reflexivity.
        intros Hin. apply list_elem_of_singleton in Hin. discriminate. }
      destruct (fault E (S (S (S (ticks w))))) as [e|].
      { cbn zeta.
        erewrite added_app
          by (unfold afterRecordWrite; simpl; rewrite <- app_assoc; reflexivity).
        intros Hin.
        apply elem_of_cons in Hin as [Hin|Hin]; [discriminate|].
        apply list_elem_of_singleton in Hin. discriminate. }
      destruct (fault E (S (S (S (S (ticks w)))))) as [e|].
      all: cbn zeta;
        erewrite added_app
          by (unfold afterRecordWrite; simpl; rewrite <- !app_assoc; reflexivity);
        intros Hin;
        apply elem_of_cons in Hin as [Hin|Hin]; [discriminate|];
        apply elem_of_cons in Hin as [Hin|Hin]; [discriminate|];
        apply list_elem_of_singleton in Hin; injection Hin as -> -> ->;
        eexists _, _; split; [reflexivity|];
        unfold afterRecordWrite; simpl; by rewrite lookup_insert_eq.
    + rewrite _recoverAccount_unknown by assumption.
      cbn zeta. erewrite added_app by (simpl; symmetry; apply app_nil_r).
      intros Hin. by apply elem_of_nil in Hin.
  - intros svc statusCode errorMessage apiUrl triggerType e Hr Hs Hf2 Hf3.
    pose proof (handleErrorResponse_run E accountId accountType svc statusCode
                  errorMessage apiUrl triggerType w Hr Hs) as Hrun.
    simpl in Hrun, Hf2, Hf3. rewrite Hf2, Hf3 in Hrun.
    eexists _, _. split; [exact Hrun|].
    split.
    { apply added_app. unfold afterRecordWrite. simpl. by rewrite <- app_assoc. }
    unfold afterRecordWrite. simpl.
    split; [by rewrite lookup_insert_eq|reflexivity].
Qed.

Lemma record_update_precedes_index_operation_witness :
  (exists updates w',
     handleErrorResponse (faultyEnv 3 "Redis unavailable") "X" "claude-console" 404
       "not found" "https://relay.example/v1/messages" "request" worldX
     = (Returned (AccountAutoDisableService.mkResult false None (Some "Redis unavailable")), w')
     /\ added worldX w' = [ (CUpdateAccount claudeConsoleAccountService "X" updates, true);
                            (CSadd (indexKey "claude-console") "X", false) ]
     /\ accounts w' !! (claudeConsoleAccountService, "X")
        = Some (merged claudeConsoleAccountService "X" updates worldX)
     /\ redisSets w' = redisSets worldX)
  /\ (let w' := (handleErrorResponse calmEnv "X" "claude-console" 404
                   "not found" "https://relay.example/v1/messages" "request" worldX).2 in
      exists svc updates,
        added worldX w' = [ (CUpdateAccount svc "X" updates, true);
                            (CSadd (indexKey "claude-console") "X", true) ]
        /\ accounts w' !! (svc, "X") = Some (merged svc "X" updates worldX))
  /\ (let w' := (_recoverAccount calmEnv "X" "claude-console" quarantinedX).2 in
      exists svc updates,
        added quarantinedX w' = [ (CUpdateAccount svc "X" updates, true);
                                  (CGetClientSafe, true);
                                  (CSrem (indexKey "claude-console") "X", true) ]
        /\ accounts w' !! (svc, "X") = Some (merged svc "X" updates quarantinedX)).
Proof.
  split_and!.
  - apply (proj2 (proj2 (record_update_precedes_index_operation
                           (faultyEnv 3 "Redis unavailable") "X" "claude-console" worldX))
             claudeConsoleAccountService 404%Z "not found"
             "https://relay.example/v1/messages" "request" "Redis unavailable").
    + lia.
    + reflexivity.
    + reflexivity.
    + reflexivity.
  - apply (proj1 (record_update_precedes_index_operation
                    calmEnv "X" "claude-console" worldX)
             404%Z "not found" "https://relay.example/v1/messages" "request"
             (indexKey "claude-console") "X" true).
    apply (bool_decide_unpack _). vm_compute. exact I.
  - apply (proj1 (proj2 (record_update_precedes_index_operation
                           calmEnv "X" "claude-console" quarantinedX))
             (indexKey "claude-console") "X" true).
    apply (bool_decide_unpack _). vm_compute. exact I.
Defined.

(** C6 as stated fails in its last part: when Redis rejects the index add
    after the record update has committed, the call does not report
    success; it returns [{ disabled: false, error }]. *)
Lemma failed_index_add_reports_not_disabled :
  let run := handleErrorResponse (faultyEnv 3 "Redis unavailable") "X" "claude-console" 404
               "not found" "https://relay.example/v1/messages" "request" worldX in
  added worldX run.2
  = [ (CUpdateAccount claudeConsoleAccountService "X"
         (disableUpdates 404 "not found" "https://relay.example/v1/messages" "request"
            "t1768478400000" "t1768478400001"), true);
      (CSadd (indexKey "claude-console") "X", false) ]
  /\ merged claudeConsoleAccountService "X"
       (disableUpdates 404 "not found" "https://relay.example/v1/messages" "request"
          "t1768478400000" "t1768478400001") worldX !! "schedulable" = Some (JBool false)
  /\ run.1 = Returned (AccountAutoDisableService.mkResult false None (Some "Redis unavailable"))
  /\ disabled (AccountAutoDisableService.mkResult false None (Some "Redis unavailable")) = false.
Proof. repeat split; vm_compute; reflexivity. Qed.
End Ordering.


(** ** Frames: what a run leaves alone *)

Section Frames.
Variables (svc : Service) (accountId key : string).

Lemma untouched_refl w : untouched svc accountId key w w.
Proof.
  unfold untouched. split_and!; [lia|done|done|]. exists []. by rewrite app_nil_r.
Qed.

Lemma untouched_trans w1 w2 w3 :
  untouched svc accountId key w1 w2 ->
  untouched svc accountId key w2 w3 ->
  untouched svc accountId key w1 w3.
Proof.
  intros (Ht1 & Ha1 & Hi1 & evs1 & He1 & Hf1) (Ht2 & Ha2 & Hi2 & evs2 & He2 & Hf2).
  unfold untouched. split_and!; [lia|congruence|auto|].
  exists (evs1 ++ evs2). split; [by rewrite He2, He1, app_assoc|].
  by apply Forall_app.
Qed.

Lemma untouched_tick w X :
  untouched svc accountId key w X -> untouched svc accountId key w (tick X).
Proof.
  intros H. eapply untouched_trans; [exact H|].
  unfold untouched. split_and!; simpl; [lia|done|done|]. exists []. by rewrite app_nil_r.
Qed.

Lemma untouched_log c ok w X :
  (forall updates, c <> CUpdateAccount svc accountId updates) ->
  untouched svc accountId key w X -> untouched svc accountId key w (logCall c ok X).
Proof.
  intros Hc H. eapply untouched_trans; [exact H|].
  unfold untouched. split_and!; simpl; [lia|done|done|]. exists [(c, ok)]. split; [done|].
  by apply Forall_singleton.
Qed.

Lemma untouched_setAccounts k v w X :
  k <> (svc, accountId) ->
  untouched svc accountId key w X ->
  untouched svc accountId key w (setAccounts (<[k := v]> (accounts X)) X).
Proof.
  intros Hk H. eapply untouched_trans; [exact H|].
  unfold untouched. split_and!; simpl; [lia|by rewrite lookup_insert_ne|done|].
  exists []. by rewrite app_nil_r.
Qed.

Lemma untouched_srem k member w X :
  untouched svc accountId key w X ->
  untouched svc accountId key w
    (setRedisSets (<[k := smembersOf k X ∖ {[member]}]> (redisSets X)) X).
Proof.
  intros H. eapply untouched_trans; [exact H|].
  unfold untouched. split_and!; simpl; [lia|done| |exists []; by rewrite app_nil_r].
  unfold smembersOf. simpl. destruct (decide (k = key)) as [->|Hne].
  - rewrite lookup_insert_eq. simpl. intros Hin. by apply elem_of_difference in Hin as [? _].
  - by rewrite lookup_insert_ne.
Qed.

Lemma undisturbed_refl w : undisturbed svc accountId key w w.
Proof. split; [apply untouched_refl|done]. Qed.

Lemma undisturbed_trans w1 w2 w3 :
  undisturbed svc accountId key w1 w2 ->
  undisturbed svc accountId key w2 w3 ->
  undisturbed svc accountId key w1 w3.
Proof.
  intros [H1 K1] [H2 K2]. split; [by eapply untouched_trans|auto].
Qed.

Lemma undisturbed_tick w X :
  undisturbed svc accountId key w X -> undisturbed svc accountId key w (tick X).
Proof. intros [H K]. split; [by apply untouched_tick|done]. Qed.

Lemma undisturbed_log c ok w X :
  (forall updates, c <> CUpdateAccount svc accountId updates) ->
  undisturbed svc accountId key w X -> undisturbed svc accountId key w (logCall c ok X).
Proof. intros Hc [H K]. split; [by apply untouched_log|done]. Qed.

Lemma undisturbed_setAccounts k v w X :
  k <> (svc, accountId) ->
  undisturbed svc accountId key w X ->
  undisturbed svc accountId key w (setAccounts (<[k := v]> (accounts X)) X).
Proof. intros Hk [H K]. split; [by apply untouched_setAccounts|done]. Qed.

Lemma undisturbed_srem k member w X :
  (k, member) <> (key, accountId) ->
  undisturbed svc accountId key w X ->
  undisturbed svc accountId key w
    (setRedisSets (<[k := smembersOf k X ∖ {[member]}]> (redisSets X)) X).
Proof.
  intros Hk [H K]. split; [by apply untouched_srem|].
  intros Hin. apply K in Hin. unfold smembersOf in *. simpl.
  destruct (decide (k = key)) as [->|Hne].
  - rewrite lookup_insert_eq. simpl. apply elem_of_difference. split; [done|].
    intros Hm. apply elem_of_singleton in Hm. congruence.
  - by rewrite lookup_insert_ne.
Qed.
End Frames.

(** ** One account of the recovery loop *)

Ltac wp_unfold_helpers :=
  progress unfold
    AutoRecoveryService._validateAccountData,
    AutoRecoveryService._cleanupInconsistentAccount,
    AutoRecoveryService._testAccountConnection,
    AutoRecoveryService._updateLastRecoveryAttempt,
    AutoRecoveryService._getAccountByType,
    AutoRecoveryService._updateAccountByType,
    updateAccount, getAccount, getClientSafe, srem, smembers, sIsMember.

Ltac wp_unfold :=
  first [ wp_unfold_helpers | progress unfold AutoRecoveryService._recoverAccount ].

Ltac wp_step_with unf :=
  lazymatch goal with
  | |- wp (bind _ _) _ _ => apply wp_bind
  | |- wp (try_catch _ _) _ _ => apply wp_try_catch
  | |- wp (ret _) _ _ => apply wp_ret
  | |- wp (throw _) _ _ => apply wp_throw
  | |- wp (new_Date_toISOString _) _ _ => apply wp_date
  | |- wp (external _ _ _) _ _ => apply wp_external; [intros ? ?|intros ?]
  | |- wp (testAccountConnection _ _ _) _ _ => apply wp_probe; intros [?|?]
  | |- wp (match ?x with _ => _ end) _ _ => destruct x eqn:?
  | |- wp _ _ _ => unf ()
  end; cbn beta iota zeta delta [fst snd negb success probeError].

Ltac wp_step := wp_step_with ltac:(fun _ => wp_unfold).

(** As [wp_step], but [_recoverAccount] is kept whole and its run is
    introduced as a hypothesis. *)
Ltac wp_step_to_recover :=
  first
    [ lazymatch goal with
      | |- wp (AutoRecoveryService._recoverAccount _ _ _) _ _ =>
          let o := fresh "o" in
          apply wp_intro; intros o ? ?; destruct o as [[]|?];
          cbn beta iota zeta delta [fst snd]
      end
    | wp_step_with ltac:(fun _ => wp_unfold_helpers) ].

Ltac wp_go := repeat wp_step.

Section OneAccount.
Import AutoRecoveryService.
Variable E : Env.

(** Whatever fails, one iteration ends normally and increments exactly one
    of the three counters by one. *)
Lemma checkAccount_counts accountType accountId c w :
  wp (checkAccount E accountType accountId c)
     (fun o _ =>
        exists c',
          o = Returned c'
          /\ (c' = mkTally (S (nRecovered c)) (nFailed c) (nCleaned c)
              \/ c' = mkTally (nRecovered c) (S (nFailed c)) (nCleaned c)
              \/ c' = mkTally (nRecovered c) (nFailed c) (S (nCleaned c)))) w.
Proof.
  unfold checkAccount. wp_go.
  all: eexists; split; [reflexivity|];
       first [ left; reflexivity
             | right; left; reflexivity
             | right; right; reflexivity ].
Qed.

Lemma checkAccount_returns accountType accountId c w :
  exists c' w', checkAccount E accountType accountId c w = (Returned c', w')
                /\ tallied c' = S (tallied c)
                /\ nCleaned c <= nCleaned c'.
Proof.
  pose proof (checkAccount_counts accountType accountId c w) as H.
  unfold wp in H. destruct (checkAccount E accountType accountId c w) as [o w'].
  simpl in H. destruct H as (c' & -> & H). exists c', w'. split; [done|].
  unfold tallied. destruct H as [-> | [-> | ->]]; simpl; lia.
Qed.

(** An iteration for another account leaves the record and the index
    entry of [(accountType, accountId)] alone. *)
Lemma checkAccount_other svc accountType accountId accountType' accountId' c w :
  serviceByType accountType = Some svc ->
  (accountType', accountId') <> (accountType, accountId) ->
  wp (checkAccount E accountType' accountId' c)
     (fun _ w' => undisturbed svc accountId (indexKey accountType) w w') w.
Proof.
  intros Hs Hne.
  assert (forall svc', serviceByType accountType' = Some svc' ->
                       (svc', accountId') <> (svc, accountId)) as Hk.
  { intros svc' Hs' [= -> ->]. apply Hne. f_equal.
    exact (serviceByType_inj _ _ _ Hs' Hs). }
  assert ((indexKey accountType', accountId') <> (indexKey accountType, accountId)) as Hi.
  { intros Heq. apply Hne.
    pose proof (f_equal fst Heq) as H1. pose proof (f_equal snd Heq) as H2.
    simpl in H1, H2. apply indexKey_inj in H1. by subst. }
  unfold checkAccount. wp_go.
  all: repeat match goal with H : Some _ = Some _ |- _ => injection H as H; subst end.
  all: repeat
    lazymatch goal with
    | |- undisturbed _ _ _ ?w0 ?w0 => apply undisturbed_refl
    | |- undisturbed _ _ _ _ (tick _) => apply undisturbed_tick
    | |- undisturbed _ _ _ _ (setRedisSets _ _) => apply undisturbed_srem; [exact Hi|]
    | |- undisturbed _ _ _ _ (setAccounts _ _) =>
        apply undisturbed_setAccounts; [by apply Hk|]
    | |- undisturbed _ _ _ _ (logCall _ _ _) =>
        apply undisturbed_log;
          [intros ?; first [discriminate | intros Heq; inversion Heq; subst; by eapply Hk]|]
    end.
Qed.

Lemma _validateAccountData_inconsistent svc accountType accountId w :
  serviceByType accountType = Some svc ->
  inconsistent (accounts w !! (svc, accountId)) ->
  _validateAccountData E accountId accountType w
  = (Returned false,
     logCall (CGetAccount svc accountId) (bool_decide (fault E (ticks w) = None)) (tick w)).
Proof.
  intros Hs Hi. unfold _validateAccountData, try_catch, bind, _getAccountByType.
  rewrite Hs. unfold getAccount, external. simpl.
  destruct (fault E (ticks w)) as [e|]; [done|]. simpl.
  destruct (accounts w !! (svc, accountId)) as [a|]; [|done].
  simpl in Hi. by destruct Hi as [-> | ->]; rewrite ?orb_true_r.
Qed.

Lemma _cleanupInconsistentAccount_run accountType accountId w :
  _cleanupInconsistentAccount E accountId accountType w
  = match fault E (ticks w) with
    | Some _ => (Returned tt, logCall CGetClientSafe false (tick w))
    | None =>
        let w1 := logCall CGetClientSafe true (tick w) in
        match fault E (1 + ticks w) with
        | Some _ =>
            (Returned tt, logCall (CSrem (indexKey accountType) accountId) false (tick w1))
        | None =>
            (Returned tt,
             logCall (CSrem (indexKey accountType) accountId) true
               (setRedisSets
                  (<[indexKey accountType :=
                       smembersOf (indexKey accountType) w ∖ {[accountId]}]> (redisSets w))
                  (tick w1)))
        end
    end.
Proof.
  unfold _cleanupInconsistentAccount, try_catch, bind, getClientSafe, srem, external. simpl.
  destruct (fault E (ticks w)) as [e|]; [done|]. simpl.
  destruct (fault E (S (ticks w))) as [e|]; done.
Qed.

(** The iteration for an account whose record is inconsistent: whatever
    fails, it is counted as cleaned and its record is not written; when the
    index answers, its index entry is gone afterwards. *)
Lemma checkAccount_inconsistent svc accountType accountId c w :
  serviceByType accountType = Some svc ->
  inconsistent (accounts w !! (svc, accountId)) ->
  exists w',
    checkAccount E accountType accountId c w
    = (Returned (mkTally (nRecovered c) (nFailed c) (S (nCleaned c))), w')
    /\ untouched svc accountId (indexKey accountType) w w'
    /\ (fault E (1 + ticks w) = None -> fault E (2 + ticks w) = None ->
        (accountId ∉ smembersOf (indexKey accountType) w')
        /\ (CSrem (indexKey accountType) accountId, true) ∈ trace w').
Proof.
  intros Hs Hi. unfold checkAccount, try_catch, bind.
  rewrite (_validateAccountData_inconsistent svc) by assumption. simpl.
  rewrite _cleanupInconsistentAccount_run. simpl.
  set (b := bool_decide (fault E (ticks w) = None)).
  destruct (fault E (S (ticks w))) as [e1|] eqn:H1.
  { eexists. split; [reflexivity|]. split; [|done].
    apply untouched_log; [done|]. apply untouched_tick.
    apply untouched_log; [done|]. apply untouched_tick. apply untouched_refl. }
  destruct (fault E (S (S (ticks w)))) as [e2|] eqn:H2.
  { eexists. split; [reflexivity|]. split; [|done].
    apply untouched_log; [done|]. apply untouched_tick.
    apply untouched_log; [done|]. apply untouched_tick.
    apply untouched_log; [done|]. apply untouched_tick. apply untouched_refl. }
  eexists. split; [reflexivity|]. split.
  - apply untouched_log; [done|].
    pose proof (untouched_srem svc accountId (indexKey accountType)
                  (indexKey accountType) accountId w
                  (tick (logCall CGetClientSafe true
                           (tick (logCall (CGetAccount svc accountId) b (tick w)))))) as Hrem.
    apply Hrem.
    apply untouched_tick. apply untouched_log; [done|]. apply untouched_tick.
    apply untouched_log; [done|]. apply untouched_tick. apply untouched_refl.
  - intros _ _. split.
    + unfold smembersOf. simpl. rewrite lookup_insert_eq. simpl.
      intros Hin. apply elem_of_difference in Hin as [_ Hin].
      apply Hin. by apply elem_of_singleton.
    + simpl. apply elem_of_app. right. by apply list_elem_of_singleton.
Qed.
End OneAccount.

(** ** The loops of a recovery cycle *)

Section Loops.
Import AutoRecoveryService.
Variable E : Env.

Lemma untouched_of_undisturbed svc accountId key w w' :
  undisturbed svc accountId key w w' -> untouched svc accountId key w w'.
Proof. by intros [H _]. Qed.

Lemma untouched_inconsistent svc accountId key w w' :
  untouched svc accountId key w w' ->
  inconsistent (accounts w !! (svc, accountId)) ->
  inconsistent (accounts w' !! (svc, accountId)).
Proof. intros (_ & -> & _) H. exact H. Qed.

Lemma untouched_event svc accountId key w w' ev :
  untouched svc accountId key w w' -> ev ∈ trace w -> ev ∈ trace w'.
Proof.
  intros (_ & _ & _ & evs & -> & _) H. apply elem_of_app. by left.
Qed.

Lemma checkAccounts_counts accountType ids c w :
  exists c' w',
    checkAccounts E accountType ids c w = (Returned c', w')
    /\ tallied c' = tallied c + length ids
    /\ nCleaned c <= nCleaned c'.
Proof.
  revert c w. induction ids as [|accountId rest IH]; intros c w.
  - exists c, w. simpl. split; [done|]. split; lia.
  - destruct (checkAccount_returns E accountType accountId c w) as (c1 & w1 & H1 & Ht & Hc).
    destruct (IH c1 w1) as (c' & w' & H2 & Ht' & Hc').
    exists c', w'. simpl. unfold bind. rewrite H1, H2.
    split; [done|]. split; lia.
Qed.

(** One iteration leaves an inconsistent account's record alone, whether
    the iteration is its own or another account's. *)
Lemma checkAccount_untouched svc accountType accountId accountType' accountId' c w :
  serviceByType accountType = Some svc ->
  inconsistent (accounts w !! (svc, accountId)) ->
  untouched svc accountId (indexKey accountType) w
    (checkAccount E accountType' accountId' c w).2.
Proof.
  intros Hs Hi.
  destruct (decide ((accountType', accountId') = (accountType, accountId))) as [Heq|Hne].
  - injection Heq as -> ->.
    destruct (checkAccount_inconsistent E svc accountType accountId c w Hs Hi)
      as (w' & -> & Hu & _). exact Hu.
  - apply untouched_of_undisturbed.
    exact (checkAccount_other E svc accountType accountId accountType' accountId' c w Hs Hne).
Qed.

Lemma checkAccounts_untouched svc accountType accountId accountType' ids c w :
  serviceByType accountType = Some svc ->
  inconsistent (accounts w !! (svc, accountId)) ->
  untouched svc accountId (indexKey accountType) w
    (checkAccounts E accountType' ids c w).2.
Proof.
  intros Hs. revert c w. induction ids as [|accountId' rest IH]; intros c w Hi.
  - apply untouched_refl.
  - simpl. unfold bind.
    pose proof (checkAccount_untouched svc accountType accountId accountType' accountId' c w
                  Hs Hi) as H1.
    destruct (checkAccount_returns E accountType' accountId' c w) as (c1 & w1 & Hr & _).
    rewrite Hr in H1 |- *. simpl in H1.
    eapply untouched_trans; [exact H1|].
    apply IH. by eapply untouched_inconsistent.
Qed.

Lemma checkAccounts_other svc accountType accountId accountType' ids c w :
  serviceByType accountType = Some svc ->
  accountType' <> accountType ->
  undisturbed svc accountId (indexKey accountType) w
    (checkAccounts E accountType' ids c w).2.
Proof.
  intros Hs Hne. revert c w. induction ids as [|accountId' rest IH]; intros c w.
  - apply undisturbed_refl.
  - simpl. unfold bind.
    assert ((accountType', accountId') <> (accountType, accountId)) as Hne' by congruence.
    pose proof (checkAccount_other E svc accountType accountId accountType' accountId' c w
                  Hs Hne') as H1.
    unfold wp in H1.
    destruct (checkAccount_returns E accountType' accountId' c w) as (c1 & w1 & Hr & _).
    rewrite Hr in H1 |- *. simpl in H1.
    eapply undisturbed_trans; [exact H1|]. apply IH.
Qed.

(** The loop over a list that holds an inconsistent account removes it
    from the index and counts it as cleaned, when the index answers. *)
Lemma checkAccounts_cleans svc accountType accountId ids c w :
  dependable E ->
  serviceByType accountType = Some svc ->
  inconsistent (accounts w !! (svc, accountId)) ->
  accountId ∈ ids ->
  exists c' w',
    checkAccounts E accountType ids c w = (Returned c', w')
    /\ nCleaned c < nCleaned c'
    /\ (accountId ∉ smembersOf (indexKey accountType) w')
    /\ (CSrem (indexKey accountType) accountId, true) ∈ trace w'.
Proof.
  intros Hd Hs. revert c w. induction ids as [|accountId' rest IH]; intros c w Hi Hin.
  - by apply elem_of_nil in Hin.
  - simpl. unfold bind.
    destruct (decide (accountId' = accountId)) as [->|Hne].
    + destruct (checkAccount_inconsistent E svc accountType accountId c w Hs Hi)
        as (w1 & Hr & Hu & Hgone).
      destruct (Hgone (Hd _) (Hd _)) as [Hout Hev].
      rewrite Hr.
      destruct (checkAccounts_counts accountType rest
                  (mkTally (nRecovered c) (nFailed c) (S (nCleaned c))) w1)
        as (c' & w' & Hr' & _ & Hc').
      pose proof (checkAccounts_untouched svc accountType accountId accountType rest
                    (mkTally (nRecovered c) (nFailed c) (S (nCleaned c))) w1 Hs
                    (untouched_inconsistent _ _ _ _ _ Hu Hi)) as Hu'.
      rewrite Hr' in Hu' |- *. simpl in Hu', Hc'.
      exists c', w'. split; [done|]. split; [lia|]. split.
      * intros Hmem. apply Hout. by apply Hu'.
      * by eapply untouched_event.
    + apply elem_of_cons in Hin as [Heq|Hin]; [congruence|].
      pose proof (checkAccount_untouched svc accountType accountId accountType accountId' c w
                    Hs Hi) as Hu.
      destruct (checkAccount_returns E accountType accountId' c w) as (c1 & w1 & Hr & _ & Hc).
      rewrite Hr in Hu |- *. simpl in Hu.
      destruct (IH c1 w1 (untouched_inconsistent _ _ _ _ _ Hu Hi) Hin)
        as (c' & w' & Hr' & Hc' & Hout & Hev).
      exists c', w'. split; [done|]. split; [lia|]. done.
Qed.

(** [checkAccountType], step by step. *)
Lemma checkAccountType_run accountType w :
  let key := indexKey accountType in
  let w1 := logCall CGetClientSafe true (tick w) in
  let w2 := logCall (CSmembers key) true (tick w1) in
  let ids := elements (smembersOf key w) in
  checkAccountType E accountType w
  = match fault E (ticks w) with
    | Some e => (Thrown e, logCall CGetClientSafe false (tick w))
    | None =>
        match fault E (1 + ticks w) with
        | Some e => (Thrown e, logCall (CSmembers key) false (tick w1))
        | None =>
            if Nat.eqb (length ids) 0 then (Returned (mkCounters 0 0 0 0), w2)
            else
              let r := checkAccounts E accountType ids (mkTally 0 0 0) w2 in
              match r.1 with
              | Returned c =>
                  (Returned (mkCounters (length ids) (nRecovered c) (nFailed c) (nCleaned c)),
                   r.2)
              | Thrown e => (Thrown e, r.2)
              end
        end
    end.
Proof.
  unfold checkAccountType, bind, getClientSafe, smembers, external. simpl.
  destruct (fault E (ticks w)) as [e|]; [done|]. simpl.
  destruct (fault E (S (ticks w))) as [e|]; [done|]. simpl.
  unfold smembersOf at 1 2. simpl. fold (smembersOf (indexKey accountType) w).
  destruct (Nat.eqb (length (elements (smembersOf (indexKey accountType) w))) 0); [done|].
  by destruct (checkAccounts E accountType _ _ _) as [[c|e] w3].
Qed.

Lemma checkAccountType_balanced accountType w r w' :
  checkAccountType E accountType w = (Returned r, w') ->
  checked r = recovered r + failed r + cleaned r.
Proof.
  rewrite checkAccountType_run. simpl.
  destruct (fault E (ticks w)) as [e|]; [done|].
  destruct (fault E (S (ticks w))) as [e|]; [done|].
  destruct (Nat.eqb _ 0); [by intros [= <- _]|].
  match goal with
  | |- context [checkAccounts E ?t ?ids ?c ?w0] =>
      destruct (checkAccounts_counts t ids c w0) as (c' & w3 & -> & Ht & _)
  end.
  simpl. intros [= <- _]. simpl. unfold tallied in Ht. simpl in Ht. lia.
Qed.

Lemma checkAccountType_untouched svc accountType accountId accountType' w :
  serviceByType accountType = Some svc ->
  inconsistent (accounts w !! (svc, accountId)) ->
  untouched svc accountId (indexKey accountType) w (checkAccountType E accountType' w).2.
Proof.
  intros Hs Hi. rewrite checkAccountType_run. simpl.
  destruct (fault E (ticks w)) as [e|].
  { simpl. apply untouched_log; [done|]. apply untouched_tick, untouched_refl. }
  assert (untouched svc accountId (indexKey accountType) w
            (logCall CGetClientSafe true (tick w))) as H1.
  { apply untouched_log; [done|]. apply untouched_tick, untouched_refl. }
  destruct (fault E (S (ticks w))) as [e|].
  { simpl. apply untouched_log; [done|]. by apply untouched_tick. }
  assert (untouched svc accountId (indexKey accountType) w
            (logCall (CSmembers (indexKey accountType')) true
               (tick (logCall CGetClientSafe true (tick w))))) as H2.
  { apply untouched_log; [done|]. by apply untouched_tick. }
  destruct (Nat.eqb _ 0); [exact H2|].
  match goal with
  | |- context [checkAccounts E ?t ?ids ?c ?w0] =>
      pose proof (checkAccounts_untouched svc accountType accountId t ids c w0 Hs
                    (untouched_inconsistent _ _ _ _ _ H2 Hi)) as H3;
      destruct (checkAccounts_counts t ids c w0) as (c' & w3 & Hr & _)
  end.
  rewrite Hr in H3 |- *. simpl in H3 |- *. by eapply untouched_trans.
Qed.

Lemma checkAccountType_other svc accountType accountId accountType' w :
  serviceByType accountType = Some svc ->
  accountType' <> accountType ->
  undisturbed svc accountId (indexKey accountType) w (checkAccountType E accountType' w).2.
Proof.
  intros Hs Hne. rewrite checkAccountType_run. simpl.
  destruct (fault E (ticks w)) as [e|].
  { simpl. apply undisturbed_log; [done|]. apply undisturbed_tick, undisturbed_refl. }
  assert (undisturbed svc accountId (indexKey accountType) w
            (logCall CGetClientSafe true (tick w))) as H1.
  { apply undisturbed_log; [done|]. apply undisturbed_tick, undisturbed_refl. }
  destruct (fault E (S (ticks w))) as [e|].
  { simpl. apply undisturbed_log; [done|]. by apply undisturbed_tick. }
  assert (undisturbed svc accountId (indexKey accountType) w
            (logCall (CSmembers (indexKey accountType')) true
               (tick (logCall CGetClientSafe true (tick w))))) as H2.
  { apply undisturbed_log; [done|]. by apply undisturbed_tick. }
  destruct (Nat.eqb _ 0); [exact H2|].
  match goal with
  | |- context [checkAccounts E ?t ?ids ?c ?w0] =>
      pose proof (checkAccounts_other svc accountType accountId t ids c w0 Hs Hne) as H3;
      destruct (checkAccounts_counts t ids c w0) as (c' & w3 & Hr & _)
  end.
  rewrite Hr in H3 |- *. simpl in H3 |- *. by eapply undisturbed_trans.
Qed.

Lemma checkAccountType_cleans svc accountType accountId w :
  dependable E ->
  serviceByType accountType = Some svc ->
  inconsistent (accounts w !! (svc, accountId)) ->
  accountId ∈ smembersOf (indexKey accountType) w ->
  exists r w',
    checkAccountType E accountType w = (Returned r, w')
    /\ 1 <= cleaned r
    /\ (accountId ∉ smembersOf (indexKey accountType) w')
    /\ (CSrem (indexKey accountType) accountId, true) ∈ trace w'.
Proof.
  intros Hd Hs Hi Hin. rewrite checkAccountType_run. simpl.
  rewrite !Hd.
  assert (accountId ∈ elements (smembersOf (indexKey accountType) w)) as Hel
    by by apply elem_of_elements.
  destruct (elements (smembersOf (indexKey accountType) w)) as [|x xs] eqn:Hids.
  { by apply elem_of_nil in Hel. }
  cbn [length Nat.eqb].
  assert (untouched svc accountId (indexKey accountType) w
            (logCall (CSmembers (indexKey accountType)) true
               (tick (logCall CGetClientSafe true (tick w))))) as H2.
  { apply untouched_log; [done|]. apply untouched_tick.
    apply untouched_log; [done|]. apply untouched_tick, untouched_refl. }
  match goal with
  | |- context [checkAccounts E ?t ?ids ?c ?w0] =>
      destruct (checkAccounts_cleans svc t accountId ids c w0 Hd Hs
                  (untouched_inconsistent _ _ _ _ _ H2 Hi) Hel)
        as (c' & w3 & Hr & Hc & Hout & Hev)
  end.
  rewrite Hr. simpl. eexists _, _. split; [reflexivity|]. simpl in Hc |- *.
  split; [lia|]. done.
Qed.

Lemma checkType_run accountType t w :
  checkType E accountType t w
  = match checkAccountType E accountType w with
    | (Returned r, w1) =>
        (Returned (mkSums (sChecked t + checked r) (sRecovered t + recovered r)
                          (sFailed t + failed r) (sCleaned t + cleaned r)), w1)
    | (Thrown _, w1) => (Returned t, w1)
    end.
Proof.
  unfold checkType, try_catch, bind.
  by destruct (checkAccountType E accountType w) as [[r|e] w1].
Qed.

Lemma checkType_returns accountType t w :
  exists t' w',
    checkType E accountType t w = (Returned t', w')
    /\ w' = (checkAccountType E accountType w).2
    /\ (balanced t -> balanced t')
    /\ sCleaned t <= sCleaned t'.
Proof.
  rewrite checkType_run.
  destruct (checkAccountType E accountType w) as [[r|e] w1] eqn:Hr.
  - eexists _, _. split; [reflexivity|]. split; [done|].
    apply checkAccountType_balanced in Hr. unfold balanced. simpl. split; lia.
  - eexists _, _. split; [reflexivity|]. split; [done|]. split; [done|lia].
Qed.

Lemma checkTypes_returns types t w :
  exists t' w',
    checkTypes E types t w = (Returned t', w')
    /\ (balanced t -> balanced t')
    /\ sCleaned t <= sCleaned t'
    /\ sChecked t' = sChecked t + sum_list (checked <$> perTypeCounters E types w)
    /\ sRecovered t' = sRecovered t + sum_list (recovered <$> perTypeCounters E types w)
    /\ sFailed t' = sFailed t + sum_list (failed <$> perTypeCounters E types w)
    /\ sCleaned t' = sCleaned t + sum_list (cleaned <$> perTypeCounters E types w).
Proof.
  revert t w. induction types as [|accountType rest IH]; intros t w.
  - exists t, w. simpl. split_and!; [done|done|lia..].
  - simpl. unfold bind. rewrite checkType_run.
    destruct (checkAccountType E accountType w) as [[r|e] w1] eqn:Hr.
    + apply checkAccountType_balanced in Hr.
      destruct (IH (mkSums (sChecked t + checked r) (sRecovered t + recovered r)
                           (sFailed t + failed r) (sCleaned t + cleaned r)) w1)
        as (t' & w' & -> & Hb & Hc & H1 & H2 & H3 & H4).
      exists t', w'. simpl in *. split; [done|].
      split; [intros Hbal; apply Hb; unfold balanced in *; simpl; lia|].
      unfold fmap in *. split_and!; lia.
    + destruct (IH t w1) as (t' & w' & -> & Hb & Hc & H1 & H2 & H3 & H4).
      exists t', w'. split; [done|]. split_and!; done.
Qed.

Lemma checkTypes_untouched svc accountType accountId types t w :
  serviceByType accountType = Some svc ->
  inconsistent (accounts w !! (svc, accountId)) ->
  untouched svc accountId (indexKey accountType) w (checkTypes E types t w).2.
Proof.
  intros Hs. revert t w. induction types as [|accountType' rest IH]; intros t w Hi.
  - apply untouched_refl.
  - simpl. unfold bind.
    destruct (checkType_returns accountType' t w) as (t1 & w1 & -> & -> & _).
    pose proof (checkAccountType_untouched svc accountType accountId accountType' w Hs Hi)
      as H1.
    eapply untouched_trans; [exact H1|].
    apply IH. by eapply untouched_inconsistent.
Qed.

Lemma checkTypes_cleans svc accountType accountId types t w :
  dependable E ->
  serviceByType accountType = Some svc ->
  inconsistent (accounts w !! (svc, accountId)) ->
  accountType ∈ types ->
  accountId ∈ smembersOf (indexKey accountType) w ->
  exists t' w',
    checkTypes E types t w = (Returned t', w')
    /\ sCleaned t < sCleaned t'
    /\ (accountId ∉ smembersOf (indexKey accountType) w')
    /\ (CSrem (indexKey accountType) accountId, true) ∈ trace w'.
Proof.
  intros Hd Hs. revert t w.
  induction types as [|accountType' rest IH]; intros t w Hi Hty Hin.
  - by apply elem_of_nil in Hty.
  - simpl. unfold bind. rewrite checkType_run.
    destruct (decide (accountType' = accountType)) as [->|Hne].
    + destruct (checkAccountType_cleans svc accountType accountId w Hd Hs Hi Hin)
        as (r & w1 & Hr & Hc & Hout & Hev).
      pose proof (checkAccountType_untouched svc accountType accountId accountType w Hs Hi)
        as Hu.
      rewrite Hr in Hu |- *. simpl in Hu.
      match goal with
      | |- context [checkTypes E rest ?t1 w1] =>
          destruct (checkTypes_returns rest t1 w1) as (t' & w' & Hr' & _ & Hc' & _);
          pose proof (checkTypes_untouched svc accountType accountId rest t1 w1 Hs
                        (untouched_inconsistent _ _ _ _ _ Hu Hi)) as Hu'
      end.
      rewrite Hr' in Hu' |- *. simpl in Hu', Hc'.
      exists t', w'. split; [done|]. split; [lia|]. split.
      * intros Hmem. apply Hout. by apply Hu'.
      * by eapply untouched_event.
    + apply elem_of_cons in Hty as [Heq|Hty]; [congruence|].
      pose proof (checkAccountType_other svc accountType accountId accountType' w Hs Hne)
        as [Hu Hkeep].
      destruct (checkAccountType E accountType' w) as [[r|e] w1]; simpl in Hu, Hkeep.
      * match goal with
        | |- context [checkTypes E rest ?t1 w1] =>
            destruct (IH t1 w1 (untouched_inconsistent _ _ _ _ _ Hu Hi) Hty (Hkeep Hin))
              as (t' & w' & Hr' & Hc' & Hout & Hev)
        end.
        exists t', w'. split; [done|]. simpl in Hc'. split; [lia|]. done.
      * destruct (IH t w1 (untouched_inconsistent _ _ _ _ _ Hu Hi) Hty (Hkeep Hin))
          as (t' & w' & Hr' & Hc' & Hout & Hev).
        exists t', w'. done.
Qed.

(** [runRecoveryCheck] in terms of its loop. *)
Lemma runRecoveryCheck_run w :
  let r := checkTypes E accountTypes (mkSums 0 0 0 0) (tick w) in
  runRecoveryCheck E w
  = match r.1 with
    | Returned t =>
        (Returned (mkTotals (sChecked t) (sRecovered t) (sFailed t) (sCleaned t)
                            (clock E (ticks r.2) - clock E (ticks w))%Z),
         tick r.2)
    | Thrown e => (Thrown e, r.2)
    end.
Proof.
  unfold runRecoveryCheck, bind, Date_now. cbv beta zeta.
  by destruct (checkTypes E accountTypes (mkSums 0 0 0 0) (tick w)) as [[t|e] w1].
Qed.
End Loops.

(** ** Errors inside one iteration *)

Ltac refute_member H :=
  repeat (apply elem_of_cons in H as [H|H]; [discriminate H|]);
  by apply elem_of_nil in H.

Section IterationErrors.
Import AutoRecoveryService.
Variable E : Env.

(** Once an iteration has got past the consistency check (it attempted a
    record update), any external call that raises makes it count the
    account as failed. *)
Lemma checkAccount_errors accountType accountId c w :
  wp (checkAccount E accountType accountId c)
     (fun o w' =>
        exists evs c',
          trace w' = trace w ++ evs
          /\ o = Returned c'
          /\ ((exists svc i u ok, (CUpdateAccount svc i u, ok) ∈ evs) ->
              (exists call, (call, false) ∈ evs) ->
              c' = mkTally (nRecovered c) (S (nFailed c)) (nCleaned c))) w.
Proof.
  unfold checkAccount. wp_go.
  all: cbn [trace logCall tick setAccounts setRedisSets];
       rewrite <- ?app_assoc; cbn [app];
       eexists _, _; split; [first [reflexivity | symmetry; apply app_nil_r]|];
       (split; [reflexivity|]);
       intros (svc' & i & u & ok & Hupd) (call & Hfail);
       first [ reflexivity | refute_member Hupd | refute_member Hfail ].
Qed.
End IterationErrors.

(** ** Properties of a recovery cycle *)

Section CycleProperties.
Import AutoRecoveryService.

Lemma runRecoveryCheck_returns E w :
  exists totals w',
    runRecoveryCheck E w = (Returned totals, w')
    /\ w' = tick (checkTypes E accountTypes (mkSums 0 0 0 0) (tick w)).2
    /\ totalChecked totals
       = sum_list (checked <$> perTypeCounters E accountTypes (tick w))
    /\ totalRecovered totals
       = sum_list (recovered <$> perTypeCounters E accountTypes (tick w))
    /\ totalFailed totals
       = sum_list (failed <$> perTypeCounters E accountTypes (tick w))
    /\ totalCleaned totals
       = sum_list (cleaned <$> perTypeCounters E accountTypes (tick w))
    /\ totalChecked totals
       = totalRecovered totals + totalFailed totals + totalCleaned totals.
Proof.
  rewrite runRecoveryCheck_run. cbv zeta.
  destruct (checkTypes_returns E accountTypes (mkSums 0 0 0 0) (tick w))
    as (t & w1 & -> & Hb & _ & H1 & H2 & H3 & H4).
  eexists _, _. split; [reflexivity|]. split; [reflexivity|].
  cbn [totalChecked totalRecovered totalFailed totalCleaned fst snd].
  split_and!; [done..|]. by apply Hb.
Qed.

(** C10.  The counters of [checkAccountType] satisfy
    [checked = recovered + failed + cleaned], because every iteration of
    its loop increments exactly one of [recovered], [failed], [cleaned];
    and the totals of [runRecoveryCheck] are the sums of the per-type
    counters over the provider types (so the totals add up in the same
    way). *)
Theorem recovery_counters_add_up E w :
  (forall accountType w0 r w1,
     checkAccountType E accountType w0 = (Returned r, w1) ->
     checked r = recovered r + failed r + cleaned r)
  /\ (forall accountType accountId c w0,
        exists c',
          (checkAccount E accountType accountId c w0).1 = Returned c'
          /\ (c' = mkTally (S (nRecovered c)) (nFailed c) (nCleaned c)
              \/ c' = mkTally (nRecovered c) (S (nFailed c)) (nCleaned c)
              \/ c' = mkTally (nRecovered c) (nFailed c) (S (nCleaned c))))
  /\ exists totals w',
       runRecoveryCheck E w = (Returned totals, w')
       /\ totalChecked totals
          = sum_list (checked <$> perTypeCounters E accountTypes (tick w))
       /\ totalRecovered totals
          = sum_list (recovered <$> perTypeCounters E accountTypes (tick w))
       /\ totalFailed totals
          = sum_list (failed <$> perTypeCounters E accountTypes (tick w))
       /\ totalCleaned totals
          = sum_list (cleaned <$> perTypeCounters E accountTypes (tick w))
       /\ totalChecked totals
          = totalRecovered totals + totalFailed totals + totalCleaned totals.
Proof.
  split; [|split].
  - intros accountType w0 r w1. apply checkAccountType_balanced.
  - intros accountType accountId c w0.
    exact (checkAccount_counts E accountType accountId c w0).
  - destruct (runRecoveryCheck_returns E w) as (totals & w' & H & _ & Hrest).
    by exists totals, w'.
Qed.

Lemma recovery_counters_add_up_witness :
  exists r w1,
    checkAccountType calmEnv "claude-console" quarantinedX = (Returned r, w1)
    /\ checked r = 1
    /\ checked r = recovered r + failed r + cleaned r.
Proof.
  destruct (checkAccountType calmEnv "claude-console" quarantinedX) as [o w1] eqn:Hrun.
  assert (o = Returned (mkCounters 1 1 0 0)) as ->.
  { pose proof (f_equal fst Hrun) as Ho. vm_compute in Ho. congruence. }
  exists (mkCounters 1 1 0 0), w1. split; [reflexivity|]. split; [reflexivity|].
  exact (proj1 (recovery_counters_add_up calmEnv emptyWorld)
           "claude-console" quarantinedX (mkCounters 1 1 0 0) w1 Hrun).
Defined.

(** X26.  A recovery cycle contains every error: [runRecoveryCheck]
    always returns; the per-account loop always runs to the end of its list
    and counts each account once; an error raised while enumerating one
    provider type is swallowed and the remaining types are processed; and
    once the iteration for an account is past the consistency check (it
    attempted a record update), any external call that raises (record
    update, index, re-admission) makes the account count as failed. *)
Theorem recovery_cycle_contains_errors E :
  (forall w, exists totals w', runRecoveryCheck E w = (Returned totals, w'))
  /\ (forall accountType ids c w,
        exists c' w',
          checkAccounts E accountType ids c w = (Returned c', w')
          /\ tallied c' = tallied c + length ids)
  /\ (forall accountType types t w e w1,
        checkAccountType E accountType w = (Thrown e, w1) ->
        checkTypes E (accountType :: types) t w = checkTypes E types t w1)
  /\ (forall accountType accountId c w svc i u ok call,
        let run := checkAccount E accountType accountId c w in
        (CUpdateAccount svc i u, ok) ∈ added w run.2 ->
        (call, false) ∈ added w run.2 ->
        run.1 = Returned (mkTally (nRecovered c) (S (nFailed c)) (nCleaned c))).
Proof.
  split_and!.
  - intros w. destruct (runRecoveryCheck_returns E w) as (totals & w' & H & _).
    by exists totals, w'.
  - intros accountType ids c w.
    destruct (checkAccounts_counts E accountType ids c w) as (c' & w' & H & Ht & _).
    by exists c', w'.
  - intros accountType types t w e w1 H. simpl. unfold bind.
    by rewrite checkType_run, H.
  - intros accountType accountId c w svc i u ok call run Hupd Hfail.
    pose proof (checkAccount_errors E accountType accountId c w) as H.
    unfold wp in H. fold run in H.
    destruct H as (evs & c' & Htr & Ho & Himp).
    rewrite (added_app _ _ _ Htr) in Hupd, Hfail.
    rewrite Ho. f_equal. apply Himp; eauto.
Qed.

(** C3.  An index member whose record is absent or lacks [autoDisabledAt]
    or [autoDisabledReason] is handled by one recovery cycle as follows: its
    record is not written (no record update is even attempted, so
    [schedulable] keeps its value), its iteration counts it as cleaned, and
    when the index answers the cycle removes it from the index and reports
    at least one cleaned account. *)
Theorem recovery_cycle_cleans_inconsistent_entry E svc accountType accountId w :
  serviceByType accountType = Some svc ->
  accountId ∈ smembersOf (indexKey accountType) w ->
  inconsistent (accounts w !! (svc, accountId)) ->
  let run := runRecoveryCheck E w in
  accounts run.2 !! (svc, accountId) = accounts w !! (svc, accountId)
  /\ Forall (noUpdateOf svc accountId) (added w run.2)
  /\ (forall account,
        accounts w !! (svc, accountId) = Some account ->
        exists account',
          accounts run.2 !! (svc, accountId) = Some account'
          /\ account' !! "schedulable" = account !! "schedulable")
  /\ (forall c w1,
        accounts w1 !! (svc, accountId) = accounts w !! (svc, accountId) ->
        (checkAccount E accountType accountId c w1).1
        = Returned (mkTally (nRecovered c) (nFailed c) (S (nCleaned c))))
  /\ (dependable E ->
      (accountId ∉ smembersOf (indexKey accountType) run.2)
      /\ exists totals, run.1 = Returned totals /\ 1 <= totalCleaned totals).
Proof.
  intros Hs Hin Hi run.
  assert (untouched svc accountId (indexKey accountType) w run.2) as Hu.
  { subst run. destruct (runRecoveryCheck_returns E w) as (totals & w' & -> & -> & _).
    cbn [snd]. apply untouched_tick.
    eapply untouched_trans; [apply untouched_tick, untouched_refl|].
    by apply checkTypes_untouched. }
  split; [by destruct Hu as (_ & Ha & _)|].
  split; [by eapply added_untouched|].
  split.
  { intros account Ha. exists account. split; [|done].
    destruct Hu as (_ & -> & _). exact Ha. }
  split.
  { intros c w1 Hsame.
    assert (inconsistent (accounts w1 !! (svc, accountId))) as Hi1 by by rewrite Hsame.
    by destruct (checkAccount_inconsistent E svc accountType accountId c w1 Hs Hi1)
      as (w2 & -> & _). }
  intros Hd. subst run. rewrite runRecoveryCheck_run. cbv zeta.
  assert (accountType ∈ accountTypes) as Hty by (apply serviceByType_recognized; eauto).
  destruct (checkTypes_cleans E svc accountType accountId accountTypes (mkSums 0 0 0 0)
              (tick w) Hd Hs Hi Hty Hin) as (t' & w' & -> & Hc & Hout & _).
  simpl in Hc |- *. split; [exact Hout|].
  eexists. split; [reflexivity|]. simpl. lia.
Qed.

Lemma recovery_cycle_cleans_inconsistent_entry_witness :
  let run := runRecoveryCheck calmEnv strayY in
  accounts run.2 !! (claudeConsoleAccountService, "Y")
  = accounts strayY !! (claudeConsoleAccountService, "Y")
  /\ (dependable calmEnv ->
      ("Y" ∉ smembersOf (indexKey "claude-console") run.2)
      /\ exists totals, run.1 = Returned totals /\ 1 <= totalCleaned totals).
Proof.
  assert (serviceByType "claude-console" = Some claudeConsoleAccountService) as Hs
    by reflexivity.
  assert ("Y" ∈ smembersOf (indexKey "claude-console") strayY) as Hin
    by (apply (bool_decide_unpack _); vm_compute; exact I).
  assert (inconsistent (accounts strayY !! (claudeConsoleAccountService, "Y"))) as Hi
    by (vm_compute; left; reflexivity).
  destruct (recovery_cycle_cleans_inconsistent_entry calmEnv claudeConsoleAccountService
              "claude-console" "Y" strayY Hs Hin Hi) as (Ha & _ & _ & _ & Hd).
  split; [exact Ha|exact Hd].
Defined.

Lemma recovery_cycle_contains_errors_witness :
  checkTypes (faultyEnv 0 "Redis unavailable") ("claude-official" :: ["claude-console"])
    (mkSums 0 0 0 0) strayY
  = checkTypes (faultyEnv 0 "Redis unavailable") ["claude-console"] (mkSums 0 0 0 0)
      (logCall CGetClientSafe false (tick strayY))
  /\ (checkAccount (faultyEnv 6 "record store unavailable") "claude-console" "X"
        (mkTally 0 0 0) quarantinedX).1
     = Returned (mkTally 0 1 0).
Proof.
  split.
  - apply (proj1 (proj2 (proj2 (recovery_cycle_contains_errors
                                  (faultyEnv 0 "Redis unavailable"))))
             "claude-official" ["claude-console"] (mkSums 0 0 0 0) strayY
             "Redis unavailable").
    reflexivity.
  - apply (proj2 (proj2 (proj2 (recovery_cycle_contains_errors
                                  (faultyEnv 6 "record store unavailable"))))
             "claude-console" "X" (mkTally 0 0 0) quarantinedX
             claudeConsoleAccountService "X"
             [("lastAutoRecoveryAttempt", JStr "t1768478400005")] false
             (CUpdateAccount claudeConsoleAccountService "X"
                [("lastAutoRecoveryAttempt", JStr "t1768478400005")])).
    + apply (bool_decide_unpack _). vm_compute. exact I.
    + apply (bool_decide_unpack _). vm_compute. exact I.
Defined.

(** C7 as stated fails: when the record store raises while the record of
    a properly quarantined account is read for the consistency check, the
    account is not counted as failed; it is counted as cleaned and its
    index entry is removed. *)
Lemma failed_record_read_counts_as_cleaned :
  let run := runRecoveryCheck (faultyEnv 9 "record store unavailable") quarantinedX in
  "X" ∈ smembersOf (indexKey "claude-console") quarantinedX
  /\ (CGetAccount claudeConsoleAccountService "X", false) ∈ added quarantinedX run.2
  /\ (exists duration, run.1 = Returned (mkTotals 1 0 0 1 duration))
  /\ ("X" ∉ smembersOf (indexKey "claude-console") run.2).
Proof.
  split_and!.
  - apply (bool_decide_unpack _). vm_compute. exact I.
  - apply (bool_decide_unpack _). vm_compute. exact I.
  - eexists. vm_compute. reflexivity.
  - apply (bool_decide_unpack _). vm_compute. exact I.
Qed.

(** C7 (defect of the code).  The failing input is a recovery cycle over
    a store in which the console account [X] is properly quarantined,
    while the read of its record for the consistency check raises.  The
    claim wants the account counted as failed and kept for the next cycle,
    which is what the code does when the next call to the store, the update of
    [lastAutoRecoveryAttempt], raises.  Instead [_validateAccountData]
    turns the error into [false], and the branch meant for inconsistent
    data counts the account as cleaned and takes it out of the index, its
    record still quarantined.  From then on no cycle looks at the account
    and a manual recovery answers [not_auto_disabled]: it stays disabled. *)
Theorem failed_record_read_drops_quarantined_account :
  let svc := claudeConsoleAccountService in
  let run := runRecoveryCheck (faultyEnv 9 "record store unavailable") quarantinedX in
  let sibling := runRecoveryCheck (faultyEnv 11 "record store unavailable") quarantinedX in
  let next := runRecoveryCheck calmEnv run.2 in
  let manual := recoverAccountFromTest calmEnv "X" "claude-console" run.2 in
  (* the account is properly quarantined *)
  "X" ∈ smembersOf (indexKey "claude-console") quarantinedX
  /\ consistentOf quarantinedX "claude-console" "X" = true
  (* the read of the record raises: cleaned, not failed *)
  /\ (CGetAccount svc "X", false) ∈ added quarantinedX run.2
  /\ (exists duration, run.1 = Returned (mkTotals 1 0 0 1 duration))
  /\ ("X" ∉ smembersOf (indexKey "claude-console") run.2)
  /\ accounts run.2 = accounts quarantinedX
  /\ fieldOf run.2 svc "X" "schedulable" = Some (JBool false)
  (* the sibling path: the update that follows the read raises *)
  /\ (CUpdateAccount svc "X" [("lastAutoRecoveryAttempt", JStr "t1768478400010")], false)
     ∈ added quarantinedX sibling.2
  /\ (exists duration, sibling.1 = Returned (mkTotals 1 0 1 0 duration))
  /\ "X" ∈ smembersOf (indexKey "claude-console") sibling.2
  (* afterwards: a healthy cycle and a manual recovery *)
  /\ (exists duration, next.1 = Returned (mkTotals 0 0 0 0 duration))
  /\ fieldOf next.2 svc "X" "schedulable" = Some (JBool false)
  /\ manual.1 = Returned (mkTestRecovery false "not_auto_disabled" None)
  /\ fieldOf manual.2 svc "X" "schedulable" = Some (JBool false).
Proof.
  cbv zeta.
  split; [apply (bool_decide_unpack _); vm_compute; exact I|].
  split; [vm_compute; reflexivity|].
  split; [apply (bool_decide_unpack _); vm_compute; exact I|].
  split; [eexists; vm_compute; reflexivity|].
  split; [apply (bool_decide_unpack _); vm_compute; exact I|].
  split; [vm_compute; reflexivity|].
  split; [vm_compute; reflexivity|].
  split; [apply (bool_decide_unpack _); vm_compute; exact I|].
  split; [eexists; vm_compute; reflexivity|].
  split; [apply (bool_decide_unpack _); vm_compute; exact I|].
  split; [eexists; vm_compute; reflexivity|].
  split; [vm_compute; reflexivity|].
  split; [vm_compute; reflexivity|].
  vm_compute; reflexivity.
Qed.
End CycleProperties.

(** ** Re-admission and the manual recovery path *)

Section Readmission.
Import AutoRecoveryService.
Variable E : Env.

Lemma recovered_fields account t1 t2 :
  let r := applyUpdates (AutoRecoveryService.recoverUpdates t1 t2) account in
  r !! "autoDisabledAt" = None
  /\ r !! "autoDisabledReason" = None
  /\ r !! "autoDisabledDetails" = None
  /\ r !! "schedulable" = Some (JBool true)
  /\ r !! "lastAutoRecoveryAttempt" = Some (JStr t1)
  /\ r !! "autoRecoveredAt" = Some (JStr t2).
Proof.
  intros r. subst r. rewrite applyUpdates_recover. split_and!.
  - by rewrite !lookup_insert_ne, !lookup_delete_ne, lookup_delete_eq by done.
  - by rewrite !lookup_insert_ne, lookup_delete_ne, lookup_delete_eq by done.
  - by rewrite !lookup_insert_ne, lookup_delete_eq by done.
  - by rewrite !lookup_insert_ne, !lookup_delete_ne, lookup_insert_eq by done.
  - by rewrite lookup_insert_ne, lookup_insert_eq by done.
  - by rewrite lookup_insert_eq.
Qed.

Lemma _recoverAccount_success accountId accountType w w' :
  _recoverAccount E accountId accountType w = (Returned tt, w') ->
  exists svc,
    serviceByType accountType = Some svc
    /\ ticks w' = 5 + ticks w
    /\ reinstatedAt E svc accountId accountType (ticks w) w'.
Proof.
  destruct (serviceByType accountType) as [svc|] eqn:Hs.
  2: { rewrite _recoverAccount_unknown by assumption. discriminate. }
  pose proof (_recoverAccount_run E accountId accountType svc w Hs) as Hrun.
  simpl in Hrun. rewrite Hrun.
  destruct (fault E (S (S (ticks w)))) as [e|]; [discriminate|].
  destruct (fault E (S (S (S (ticks w))))) as [e|]; [discriminate|].
  destruct (fault E (S (S (S (S (ticks w)))))) as [e|]; [discriminate|].
  intros [= <-]. exists svc. split; [reflexivity|]. split; [reflexivity|].
  destruct (recovered_fields (default ∅ (accounts w !! (svc, accountId)))
              (isoAt E (ticks w)) (isoAt E (S (ticks w))))
    as (F1 & F2 & F3 & F4 & F5 & F6).
  unfold reinstatedAt. eexists. split_and!; [|exact F1|exact F2|exact F3|exact F4|exact F5|exact F6|..].
  - unfold afterRecordWrite, merged. cbn [accounts logCall setRedisSets setAccounts tick].
    apply lookup_insert_eq.
  - unfold smembersOf. cbn [redisSets logCall setRedisSets]. rewrite lookup_insert_eq.
    simpl. intros Hin.
    apply elem_of_difference in Hin as [_ Hin]. apply Hin. by apply elem_of_singleton.
  - unfold afterRecordWrite. cbn [trace logCall setRedisSets setAccounts tick].
    rewrite !elem_of_app. left. left. right. by apply list_elem_of_singleton.
Qed.

(** C2.  After a successful re-admission, reached directly through
    [_recoverAccount], through the manual path ([recoverAccountFromTest]
    reporting recovered) or through the scheduled path (the iteration of
    [checkAccountType] counting the account as recovered), the record has
    [autoDisabledAt], [autoDisabledReason] and [autoDisabledDetails] absent
    (they were written as [null], not as the empty string),
    [schedulable = true], [lastAutoRecoveryAttempt] and [autoRecoveredAt]
    set to clock readings taken during the call, and the account is out of
    the index of its provider type. *)
Theorem readmission_clears_quarantine accountId accountType w w' :
  (_recoverAccount E accountId accountType w = (Returned tt, w')
   \/ (exists reason,
         recoverAccountFromTest E accountId accountType w
         = (Returned (mkTestRecovery true reason None), w'))
   \/ (exists c c',
         checkAccount E accountType accountId c w = (Returned c', w')
         /\ nRecovered c' = S (nRecovered c))) ->
  exists svc n,
    serviceByType accountType = Some svc
    /\ ticks w <= n
    /\ S n < ticks w'
    /\ reinstatedAt E svc accountId accountType n w'.
Proof.
  intros [H|[(reason & H)|(c & c' & H & Hc)]].
  - apply _recoverAccount_success in H as (svc & Hs & Ht & Hr).
    exists svc, (ticks w). split; [done|]. split; [lia|]. split; [lia|done].
  - assert (wp (recoverAccountFromTest E accountId accountType)
              (fun o w2 => forall reason,
                 o = Returned (mkTestRecovery true reason None) ->
                 exists svc n,
                   serviceByType accountType = Some svc
                   /\ ticks w <= n /\ S n < ticks w2
                   /\ reinstatedAt E svc accountId accountType n w2) w) as Hwp.
    { unfold recoverAccountFromTest.
      repeat wp_step_to_recover.
      all: try (intros ? [=]; fail).
      match goal with
      | Hrec : _recoverAccount _ _ _ _ = _ |- _ =>
          apply _recoverAccount_success in Hrec as (svc & Hs & Ht & Hr)
      end.
      intros reason' _. exists svc. eexists. split; [congruence|].
      split; [|split; [|exact Hr]]; cbn [ticks logCall tick] in *; lia. }
    unfold wp in Hwp. rewrite H in Hwp. by eapply Hwp.
  - assert (wp (checkAccount E accountType accountId c)
              (fun o w2 => forall c',
                 o = Returned c' -> nRecovered c' = S (nRecovered c) ->
                 exists svc n,
                   serviceByType accountType = Some svc
                   /\ ticks w <= n /\ S n < ticks w2
                   /\ reinstatedAt E svc accountId accountType n w2) w) as Hwp.
    { unfold checkAccount.
      repeat wp_step_to_recover.
      all: try (intros ? [= <-] Hn; simpl in Hn; lia).
      all: match goal with
           | Hrec : _recoverAccount _ _ _ _ = _ |- _ =>
               apply _recoverAccount_success in Hrec as (svc & Hs & Ht & Hr)
           end;
        intros c'' _ _; exists svc; eexists; split; [congruence|];
        (split; [|split; [|exact Hr]]);
        cbn [ticks logCall tick setAccounts setRedisSets] in *; lia. }
    unfold wp in Hwp. rewrite H in Hwp. by eapply Hwp.
Qed.

(** C4.  For an account that is not in the index of its provider type,
    [recoverAccountFromTest] makes no write at all (every record and the
    whole index are as before, and the only external calls are the index
    look-up), and when that look-up answers it returns
    [{ recovered: false, reason: 'not_auto_disabled' }]. *)
Theorem recoverAccountFromTest_not_in_index accountId accountType w :
  accountId ∉ smembersOf (indexKey accountType) w ->
  let run := recoverAccountFromTest E accountId accountType w in
  accounts run.2 = accounts w
  /\ redisSets run.2 = redisSets w
  /\ Forall (fun ev => ev.1 = CGetClientSafe
                       \/ ev.1 = CSIsMember (indexKey accountType) accountId)
       (added w run.2)
  /\ (exists r, run.1 = Returned r /\ isRecovered r = false)
  /\ (fault E (ticks w) = None -> fault E (1 + ticks w) = None ->
      run.1 = Returned (mkTestRecovery false "not_auto_disabled" None)).
Proof.
  intros Hout run. subst run.
  assert (bool_decide
            (accountId ∈ smembersOf (indexKey accountType)
                           (tick (logCall CGetClientSafe true (tick w)))) = false) as Hb
    by (apply bool_decide_eq_false_2; exact Hout).
  unfold recoverAccountFromTest, try_catch, bind, getClientSafe, sIsMember, external.
  simpl in Hb |- *.
  destruct (fault E (ticks w)) as [e|].
  { cbn. split_and!; [reflexivity|reflexivity| |eexists; split; reflexivity|discriminate].
    erewrite added_app by reflexivity. apply Forall_singleton. by left. }
  simpl. destruct (fault E (S (ticks w))) as [e|].
  { cbn. split_and!;
      [reflexivity|reflexivity| |eexists; split; reflexivity|intros _; discriminate].
    erewrite added_app by (simpl; rewrite <- app_assoc; reflexivity).
    apply Forall_cons. split; [by left|]. apply Forall_singleton. by right. }
  rewrite Hb. cbn.
  split_and!; [reflexivity|reflexivity| |eexists; split; reflexivity|reflexivity].
  erewrite added_app by (simpl; rewrite <- app_assoc; reflexivity).
  apply Forall_cons. split; [by left|]. apply Forall_singleton. by right.
Qed.
End Readmission.

Section ReadmissionWitnesses.
Import AutoRecoveryService.

Lemma readmission_clears_quarantine_witness :
  let run := recoverAccountFromTest calmEnv "X" "claude-console" quarantinedX in
  run.1 = Returned (mkTestRecovery true "test_success" None)
  /\ exists svc n,
       serviceByType "claude-console" = Some svc
       /\ ticks quarantinedX <= n
       /\ S n < ticks run.2
       /\ reinstatedAt calmEnv svc "X" "claude-console" n run.2.
Proof.
  intros run.
  assert (run.1 = Returned (mkTestRecovery true "test_success" None)) as Ho
    by (vm_compute; reflexivity).
  split; [exact Ho|].
  apply (readmission_clears_quarantine calmEnv "X" "claude-console" quarantinedX run.2).
  right. left. exists "test_success". rewrite <- Ho. apply surjective_pairing.
Defined.

Lemma recoverAccountFromTest_not_in_index_witness :
  let run := recoverAccountFromTest calmEnv "X" "claude-console" worldX in
  accounts run.2 = accounts worldX
  /\ redisSets run.2 = redisSets worldX
  /\ run.1 = Returned (mkTestRecovery false "not_auto_disabled" None).
Proof.
  assert ("X" ∉ smembersOf (indexKey "claude-console") worldX) as Hout
    by (apply (bool_decide_unpack _); vm_compute; exact I).
  destruct (recoverAccountFromTest_not_in_index calmEnv "X" "claude-console" worldX Hout)
    as (Ha & Hr & _ & _ & Hna).
  split; [exact Ha|]. split; [exact Hr|]. apply Hna; reflexivity.
Defined.
End ReadmissionWitnesses.

(** ** The service life cycle *)

Section Lifecycle.
Import AutoRecoveryService.

Lemma try_catch_returns {A} (body : M A) (h : string -> M A) w :
  (forall e w1, exists a w', h e w1 = (Returned a, w')) ->
  exists a w', try_catch body h w = (Returned a, w').
Proof.
  intros Hh. unfold try_catch. destruct (body w) as [[a|e] w1]; [by eexists _, _|].
  apply Hh.
Qed.

Lemma cleanupTypes_returns E types n w :
  exists n' w', cleanupTypes E types n w = (Returned n', w').
Proof.
  revert n w. induction types as [|accountType rest IH]; intros n w.
  - by exists n, w.
  - simpl. unfold bind.
    destruct (try_catch_returns
                (await getClientSafe E in
                 let* disabledAccountIds := smembers E (indexKey accountType) in
                 if Nat.eqb (length disabledAccountIds) 0 then ret n
                 else cleanupAccounts E accountType disabledAccountIds n)
                (fun _ => ret n) w) as (n1 & w1 & H1).
    { intros e w0. by eexists _, _. }
    unfold cleanupType. rewrite H1. apply IH.
Qed.

(** The job [start] launches: it never raises, and after the start-up
    clean-up sweep it runs exactly one recovery cycle. *)
Lemma runJob_initial E w :
  runJob E InitialCleanupThenCheck w
  = (Returned tt, (runRecoveryCheck E (cleanupInconsistentData E w).2).2).
Proof.
  unfold runJob, try_catch, bind, cleanupInconsistentData.
  destruct (cleanupTypes_returns E accountTypes 0 w) as (n & w1 & Hc).
  rewrite Hc. cbn [snd].
  destruct (runRecoveryCheck_returns E w1) as (totals & w2 & Hr & _).
  rewrite Hr. reflexivity.
Qed.

Lemma runJob_scheduled E w :
  runJob E ScheduledCheck w = (Returned tt, (runRecoveryCheck E w).2).
Proof.
  unfold runJob, try_catch, bind.
  destruct (runRecoveryCheck_returns E w) as (totals & w2 & Hr & _).
  rewrite Hr. reflexivity.
Qed.

Lemma filter_fresh_handle (l : list Timer) n :
  Forall (fun t => handle t < n) l -> filter (fun t => handle t = n) l = [].
Proof.
  induction 1 as [|t l Ht _ IH]; [done|].
  rewrite filter_cons_False by lia. exact IH.
Qed.

(** C9.  The life cycle of the service: [start] changes nothing when the
    service is already running or when the configuration disables it;
    otherwise it marks the service running, hands one recovery cycle
    (preceded by the start-up clean-up sweep) to the event loop without
    running it itself, and arms a repeating timer whose delay is the
    configured interval, 60 minutes by default, and whose every firing
    launches one cycle.  [stop] disarms the timer and marks the service not
    running, and changes nothing when the service was not running. *)
Theorem service_lifecycle config this h :
  (isRunning this = true -> start config this h = (this, h))
  /\ (optional config enabled = Some false -> start config this h = (this, h))
  /\ (isRunning this = false ->
      optional config enabled <> Some false ->
      start config this h
      = (mkServiceState true (Some (nextHandle h)) (testInterval this) (testTimeout this),
         mkHost (timers h ++ [mkTimer (nextHandle h) (testInterval this) ScheduledCheck])
                (S (nextHandle h))
                (launched h ++ [InitialCleanupThenCheck])))
  /\ (forall E w,
        runJob E InitialCleanupThenCheck w
        = (Returned tt, (runRecoveryCheck E (cleanupInconsistentData E w).2).2)
        /\ runJob E ScheduledCheck w = (Returned tt, (runRecoveryCheck E w).2))
  /\ (Forall (fun t => handle t < nextHandle h) (timers h) ->
      isRunning this = false ->
      optional config enabled <> Some false ->
      let h' := (start config this h).2 in
      fire (nextHandle h) h' = launch ScheduledCheck h'
      /\ timers (fire (nextHandle h) h') = timers h')
  /\ (testInterval (new_AutoRecoveryService config)
      = (orElse (optional config intervalMinutes) 60 * 60 * 1000)%Z
      /\ (optional config intervalMinutes = None ->
          testInterval (new_AutoRecoveryService config) = (60 * 60 * 1000)%Z)
      /\ isRunning (new_AutoRecoveryService config) = false
      /\ intervalHandle (new_AutoRecoveryService config) = None)
  /\ (isRunning (stop this h).1 = false
      /\ intervalHandle (stop this h).1 = None
      /\ launched (stop this h).2 = launched h
      /\ forall id, intervalHandle this = Some id ->
           timers (stop this h).2 = filter (fun t => handle t ≠ id) (timers h)
           /\ forall t, t ∈ timers (stop this h).2 -> handle t <> id)
  /\ (isRunning this = false -> intervalHandle this = None -> stop this h = (this, h)).
Proof.
  split_and!.
  - intros Hr. unfold start. by rewrite Hr.
  - intros Hd. unfold start. destruct (isRunning this); [done|].
    by rewrite bool_decide_eq_true_2.
  - intros Hr Hd. unfold start. rewrite Hr.
    by rewrite bool_decide_eq_false_2.
  - intros E w. split; [apply runJob_initial|apply runJob_scheduled].
  - intros Hwf Hr Hd h'. subst h'. unfold start. rewrite Hr.
    rewrite bool_decide_eq_false_2 by done.
    cbn [snd setInterval launch fst timers nextHandle launched isRunning testInterval].
    unfold fire. cbn [timers].
    rewrite filter_app.
    rewrite (filter_fresh_handle _ _ Hwf).
    rewrite filter_cons_True by reflexivity. done.
  - reflexivity.
  - unfold new_AutoRecoveryService. cbn [testInterval]. by intros ->.
  - reflexivity.
  - reflexivity.
  - destruct this as [r [id|] ti tt]; reflexivity.
  - destruct this as [r [id|] ti tt]; reflexivity.
  - destruct this as [r [id|] ti tt]; reflexivity.
  - intros id Hh. unfold stop. rewrite Hh. cbn. split; [done|].
    intros t Ht. by apply list_elem_of_filter in Ht as [? _].
  - intros Hr Hh. unfold stop. rewrite Hh. destruct this. simpl in *. by subst.
Qed.

Lemma service_lifecycle_witness :
  let config := mkConfig (Some (mkAutoRecoveryConfig None None None)) in
  let this := new_AutoRecoveryService config in
  let h := mkHost [] 1 [] in
  start config this h
  = (mkServiceState true (Some 1) 3600000 30,
     mkHost [mkTimer 1 3600000 ScheduledCheck] 2 [InitialCleanupThenCheck])
  /\ start config (start config this h).1 (start config this h).2 = start config this h
  /\ start (mkConfig (Some (mkAutoRecoveryConfig (Some false) None None))) this h = (this, h)
  /\ fire 1 (start config this h).2 = launch ScheduledCheck (start config this h).2
  /\ testInterval this = (60 * 60 * 1000)%Z
  /\ timers (stop (start config this h).1 (start config this h).2).2 = []
  /\ stop this h = (this, h).
Proof.
  intros config this h. split_and!.
  - apply (proj1 (proj2 (proj2 (service_lifecycle config this h)))).
    + reflexivity.
    + discriminate.
  - apply (proj1 (service_lifecycle config (start config this h).1
                    (start config this h).2)).
    reflexivity.
  - apply (proj1 (proj2 (service_lifecycle
                           (mkConfig (Some (mkAutoRecoveryConfig (Some false) None None)))
                           this h))).
    reflexivity.
  - apply (proj1 (proj2 (proj2 (proj2 (proj2 (service_lifecycle config this h)))))).
    + apply Forall_nil_2.
    + reflexivity.
    + discriminate.
  - destruct (service_lifecycle config this h)
      as (_ & _ & _ & _ & _ & (_ & Hdefault & _) & _).
    apply Hdefault. reflexivity.
  - destruct (service_lifecycle config (start config this h).1 (start config this h).2)
      as (_ & _ & _ & _ & _ & _ & (_ & _ & _ & Hstop) & _).
    destruct (Hstop 1 eq_refl) as [Htimers _]. rewrite Htimers. reflexivity.
  - destruct (service_lifecycle config this h) as (_ & _ & _ & _ & _ & _ & _ & Hidle).
    apply Hidle; reflexivity.
Defined.
End Lifecycle.

(** * Further properties *)

Lemma consistent_inconsistent account :
  consistent account = false <-> inconsistent account.
Proof.
  destruct account as [a|]; simpl; [|done].
  rewrite andb_false_iff. done.
Qed.

Section Validation.
Import AutoRecoveryService.
Variable E : Env.

Lemma _validateAccountData_unknown accountId accountType w :
  serviceByType accountType = None ->
  _validateAccountData E accountId accountType w = (Returned false, w).
Proof.
  intros Hs. unfold _validateAccountData, try_catch, bind, _getAccountByType.
  by rewrite Hs.
Qed.

Lemma _validateAccountData_run svc accountId accountType w :
  serviceByType accountType = Some svc ->
  _validateAccountData E accountId accountType w
  = (Returned (match fault E (ticks w) with
               | Some _ => false
               | None => consistent (accounts w !! (svc, accountId))
               end),
     logCall (CGetAccount svc accountId) (bool_decide (fault E (ticks w) = None)) (tick w)).
Proof.
  intros Hs. unfold _validateAccountData, try_catch, bind, _getAccountByType.
  rewrite Hs. unfold getAccount, external. simpl.
  destruct (fault E (ticks w)) as [e|]; [done|]. simpl.
  destruct (accounts w !! (svc, accountId)) as [a|]; [|done]. simpl.
  by destruct (propTruthy a "autoDisabledAt"), (propTruthy a "autoDisabledReason").
Qed.
End Validation.

Section Pruned.
Lemma pruned_refl w : pruned w w.
Proof. split_and!; [done|done|]. exists []. by rewrite app_nil_r. Qed.

Lemma pruned_trans w1 w2 w3 : pruned w1 w2 -> pruned w2 w3 -> pruned w1 w3.
Proof.
  intros (Ha1 & Hi1 & evs1 & He1 & Hf1) (Ha2 & Hi2 & evs2 & He2 & Hf2).
  split_and!; [congruence|auto|].
  exists (evs1 ++ evs2). split; [by rewrite He2, He1, app_assoc|by apply Forall_app].
Qed.

Lemma pruned_tick w X : pruned w X -> pruned w (tick X).
Proof.
  intros H. eapply pruned_trans; [exact H|].
  split_and!; [done|done|]. exists []. simpl. by rewrite app_nil_r.
Qed.

Lemma pruned_log c ok w X : readOrRemove (c, ok) -> pruned w X -> pruned w (logCall c ok X).
Proof.
  intros Hc H. eapply pruned_trans; [exact H|].
  split_and!; [done|done|]. exists [(c, ok)]. split; [done|]. by apply Forall_singleton.
Qed.

Lemma pruned_srem k member w X :
  pruned w X ->
  pruned w (setRedisSets (<[k := smembersOf k X ∖ {[member]}]> (redisSets X)) X).
Proof.
  intros H. eapply pruned_trans; [exact H|].
  split_and!; [done| |exists []; simpl; by rewrite app_nil_r].
  intros key m. unfold smembersOf. simpl. destruct (decide (k = key)) as [->|Hne].
  - rewrite lookup_insert_eq. simpl. intros Hin. by apply elem_of_difference in Hin as [? _].
  - by rewrite lookup_insert_ne.
Qed.
End Pruned.

Ltac pruned_layers :=
  repeat
    lazymatch goal with
    | |- pruned ?w0 ?w0 => apply pruned_refl
    | |- pruned _ (tick _) => apply pruned_tick
    | |- pruned _ (setRedisSets _ _) => apply pruned_srem
    | |- pruned _ (logCall _ _ _) => apply pruned_log; [exact I|]
    end.

Section SweepSafety.
Import AutoRecoveryService.
Variable E : Env.

Lemma cleanupAccount_pruned accountType accountId n w :
  wp (cleanupAccount E accountType accountId n)
     (fun o w' => (exists n', o = Returned n' /\ n <= n' <= S n) /\ pruned w w') w.
Proof.
  unfold cleanupAccount. wp_go.
  all: split; [eexists; split; [reflexivity|lia]|].
  all: pruned_layers.
Qed.

Lemma cleanupAccounts_pruned accountType ids n w :
  exists n' w',
    cleanupAccounts E accountType ids n w = (Returned n', w')
    /\ n <= n' <= n + length ids /\ pruned w w'.
Proof.
  revert n w. induction ids as [|accountId rest IH]; intros n w.
  - exists n, w. simpl. split; [done|]. split; [lia|apply pruned_refl].
  - pose proof (cleanupAccount_pruned accountType accountId n w) as H1.
    unfold wp in H1.
    destruct (cleanupAccount E accountType accountId n w) as [o w1] eqn:Hrun.
    simpl in H1. destruct H1 as [(n1 & -> & Hn1) Hp1].
    destruct (IH n1 w1) as (n' & w' & Hr & Hn & Hp).
    exists n', w'. simpl. unfold bind. rewrite Hrun, Hr.
    split; [done|]. split; [lia|by eapply pruned_trans].
Qed.

Lemma cleanupType_pruned accountType n w :
  exists n' w',
    cleanupType E accountType n w = (Returned n', w')
    /\ n <= n' <= n + size (smembersOf (indexKey accountType) w) /\ pruned w w'.
Proof.
  unfold cleanupType, try_catch, bind, getClientSafe, smembers, external. simpl.
  destruct (fault E (ticks w)) as [e|].
  { eexists _, _. split; [reflexivity|]. split; [lia|]. pruned_layers. }
  simpl. destruct (fault E (S (ticks w))) as [e|].
  { eexists _, _. split; [reflexivity|]. split; [lia|]. pruned_layers. }
  simpl. unfold smembersOf at 1 2. simpl. fold (smembersOf (indexKey accountType) w).
  destruct (Nat.eqb _ 0).
  { eexists _, _. split; [reflexivity|]. split; [lia|]. pruned_layers. }
  match goal with
  | |- context [cleanupAccounts E ?t ?ids ?c ?w0] =>
      destruct (cleanupAccounts_pruned t ids c w0) as (n' & w' & -> & Hn & Hp)
  end.
  eexists _, _. split; [reflexivity|]. split.
  - unfold size, set_size. simpl. lia.
  - eapply pruned_trans; [|exact Hp]. pruned_layers.
Qed.
End SweepSafety.

Section SweepSafety2.
Import AutoRecoveryService.
Variable E : Env.

Lemma sum_list_cons x l : sum_list (x :: l) = x + sum_list l.
Proof. reflexivity. Qed.

Lemma filter_equiv {A} (P Q : A -> Prop) `{!forall x, Decision (P x)}
    `{!forall x, Decision (Q x)} (l : list A) :
  (forall x, P x <-> Q x) -> filter P l = filter Q l.
Proof.
  intros Heq. induction l as [|x l IH]; [done|].
  destruct (decide (P x)) as [HP|HP].
  - rewrite (filter_cons_True P) by done.
    rewrite (filter_cons_True Q) by (by apply Heq). by rewrite IH.
  - rewrite (filter_cons_False P) by done.
    rewrite (filter_cons_False Q) by (by rewrite <- Heq). exact IH.
Qed.

Lemma pruned_size key w w' :
  pruned w w' -> size (smembersOf key w') <= size (smembersOf key w).
Proof.
  intros (_ & Hi & _). apply subseteq_size. intros m. apply Hi.
Qed.

Lemma cleanupTypes_pruned types n w :
  exists n' w',
    cleanupTypes E types n w = (Returned n', w')
    /\ n <= n' <= n + sum_list ((fun t => size (smembersOf (indexKey t) w)) <$> types)
    /\ pruned w w'.
Proof.
  revert n w. induction types as [|accountType rest IH]; intros n w.
  - exists n, w. simpl. split; [done|]. split; [lia|apply pruned_refl].
  - destruct (cleanupType_pruned E accountType n w) as (n1 & w1 & Hr1 & Hn1 & Hp1).
    destruct (IH n1 w1) as (n' & w' & Hr & Hn & Hp).
    exists n', w'. cbn [cleanupTypes]. unfold bind. rewrite Hr1, Hr. split; [done|].
    split; [|by eapply pruned_trans].
    assert (sum_list ((fun t => size (smembersOf (indexKey t) w1)) <$> rest)
            <= sum_list ((fun t => size (smembersOf (indexKey t) w)) <$> rest)) as Hle.
    { clear -Hp1. induction rest as [|t rest IH]; [done|].
      rewrite !fmap_cons, !sum_list_cons.
      pose proof (pruned_size (indexKey t) w w1 Hp1). lia. }
    rewrite fmap_cons, sum_list_cons. lia.
Qed.
End SweepSafety2.

Section SweepExact.
Import AutoRecoveryService.
Variable E : Env.
Hypothesis Hd : dependable E.

Lemma _validateAccountData_dependable accountId accountType w :
  exists w',
    _validateAccountData E accountId accountType w
    = (Returned (consistentOf w accountType accountId), w')
    /\ accounts w' = accounts w /\ redisSets w' = redisSets w.
Proof.
  unfold consistentOf. destruct (serviceByType accountType) as [svc|] eqn:Hs.
  - rewrite (_validateAccountData_run E svc) by done. rewrite Hd. by eexists.
  - rewrite _validateAccountData_unknown by done. by eexists.
Qed.

(** One iteration of the sweep when every dependency answers. *)
Lemma cleanupAccount_dependable accountType accountId n w :
  exists w',
    cleanupAccount E accountType accountId n w
    = (Returned (if consistentOf w accountType accountId then n else S n), w')
    /\ accounts w' = accounts w
    /\ (forall key, key <> indexKey accountType -> smembersOf key w' = smembersOf key w)
    /\ (forall m, m ∈ smembersOf (indexKey accountType) w'
          <-> m ∈ smembersOf (indexKey accountType) w
              /\ (m = accountId -> consistentOf w accountType accountId = true)).
Proof.
  unfold cleanupAccount, try_catch, bind.
  destruct (_validateAccountData_dependable accountId accountType w) as (w1 & -> & Ha & Hr).
  destruct (consistentOf w accountType accountId) eqn:Hc; simpl.
  - exists w1. split; [done|]. split; [done|]. unfold smembersOf. rewrite Hr.
    split; [done|]. intros m. split; [by intros ?|by intros [? _]].
  - rewrite _cleanupInconsistentAccount_run. rewrite !Hd. cbv zeta.
    eexists. split; [reflexivity|]. simpl. split; [done|].
    unfold smembersOf. simpl. rewrite Hr. split.
    + intros key Hne. by rewrite lookup_insert_ne.
    + intros m. rewrite lookup_insert_eq. simpl. rewrite elem_of_difference, elem_of_singleton.
      split.
      * intros [Hm Hne]. split; [done|]. intros ->. done.
      * intros [Hm Himp]. split; [done|]. intros ->. by specialize (Himp eq_refl).
Qed.

Lemma consistentOf_same w w' accountType accountId :
  accounts w' = accounts w ->
  consistentOf w' accountType accountId = consistentOf w accountType accountId.
Proof. intros H. unfold consistentOf. by rewrite H. Qed.

Lemma cleanupAccounts_dependable accountType ids n w :
  exists w',
    cleanupAccounts E accountType ids n w
    = (Returned (n + length (filter (fun id => consistentOf w accountType id = false) ids)), w')
    /\ accounts w' = accounts w
    /\ (forall key, key <> indexKey accountType -> smembersOf key w' = smembersOf key w)
    /\ (forall m, m ∈ smembersOf (indexKey accountType) w'
          <-> m ∈ smembersOf (indexKey accountType) w
              /\ (m ∈ ids -> consistentOf w accountType m = true)).
Proof.
  revert n w. induction ids as [|accountId rest IH]; intros n w.
  - exists w. simpl. rewrite Nat.add_0_r. split_and!; [done..|].
    intros m. split; [intros H; split; [done|by intros ?%elem_of_nil]|by intros [? _]].
  - simpl. unfold bind.
    destruct (cleanupAccount_dependable accountType accountId n w) as (w1 & -> & Ha1 & Ho1 & Hi1).
    destruct (IH (if consistentOf w accountType accountId then n else S n) w1)
      as (w' & -> & Ha & Ho & Hi).
    exists w'. split.
    { f_equal. f_equal.
      rewrite (filter_equiv _ (fun id => consistentOf w accountType id = false) rest)
        by (intros ?; by rewrite (consistentOf_same w w1)).
      destruct (consistentOf w accountType accountId) eqn:Hc.
      - by rewrite filter_cons_False by (by rewrite Hc).
      - rewrite filter_cons_True by done. simpl. lia. }
    split; [congruence|]. split.
    { intros key Hne. by rewrite Ho, Ho1. }
    intros m. rewrite Hi, Hi1, elem_of_cons.
    rewrite (consistentOf_same w w1) by done.
    split.
    * intros [[Hm H1] H2]. split; [done|]. intros [->|Hin]; auto.
    * intros [Hm H]. split; [split; [done|]|].
      -- intros ->. apply H. by left.
      -- intros Hin. apply H. by right.
Qed.
End SweepExact.

Section SweepExact2.
Import AutoRecoveryService.
Variable E : Env.
Hypothesis Hd : dependable E.

Lemma strays_same w w' accountType :
  accounts w' = accounts w ->
  smembersOf (indexKey accountType) w' = smembersOf (indexKey accountType) w ->
  strays w' accountType = strays w accountType.
Proof.
  intros Ha Hi. unfold strays. rewrite Hi.
  apply filter_equiv. intros id. by rewrite (consistentOf_same w w').
Qed.

Lemma cleanupType_dependable accountType n w :
  exists w',
    cleanupType E accountType n w = (Returned (n + length (strays w accountType)), w')
    /\ accounts w' = accounts w
    /\ (forall key, key <> indexKey accountType -> smembersOf key w' = smembersOf key w)
    /\ (forall m, m ∈ smembersOf (indexKey accountType) w'
          <-> m ∈ smembersOf (indexKey accountType) w
              /\ consistentOf w accountType m = true).
Proof.
  unfold cleanupType, try_catch, bind, getClientSafe, smembers, external. simpl.
  rewrite !Hd. simpl.
  unfold smembersOf at 1 2. simpl. fold (smembersOf (indexKey accountType) w).
  set (w2 := logCall (CSmembers (indexKey accountType)) true
               (tick (logCall CGetClientSafe true (tick w)))).
  unfold strays.
  destruct (elements (smembersOf (indexKey accountType) w)) as [|x xs] eqn:Hel.
  - simpl. exists w2. rewrite Nat.add_0_r. split_and!; [done..|].
    intros m. change (smembersOf (indexKey accountType) w2)
      with (smembersOf (indexKey accountType) w).
    split; [|by intros [? _]].
    intros Hm. apply elem_of_elements in Hm. rewrite Hel in Hm. by apply elem_of_nil in Hm.
  - cbn [length Nat.eqb].
    destruct (cleanupAccounts_dependable E Hd accountType (x :: xs) n w2)
      as (w' & -> & Ha & Ho & Hi).
    exists w'. split.
    { rewrite (filter_equiv (fun id => consistentOf w2 accountType id = false)
                 (fun id => consistentOf w accountType id = false)); [done|].
      intros id. by rewrite (consistentOf_same w w2). }
    split; [done|]. split; [done|].
    intros m. rewrite Hi.
    change (smembersOf (indexKey accountType) w2) with (smembersOf (indexKey accountType) w).
    rewrite (consistentOf_same w w2) by done. rewrite <- Hel.
    split.
    + intros [Hm H]. split; [done|]. apply H. by apply elem_of_elements.
    + intros [Hm H]. split; [done|]. by intros _.
Qed.

Lemma indexKey_fmap_not_elem accountType (types : list string) :
  accountType ∉ types -> indexKey accountType ∉ (indexKey <$> types).
Proof.
  intros Hn Hin. apply list_elem_of_fmap in Hin as (t & Heq & Hin).
  apply indexKey_inj in Heq. by subst.
Qed.

Lemma cleanupTypes_dependable types n w :
  NoDup types ->
  exists w',
    cleanupTypes E types n w
    = (Returned (n + sum_list ((fun t => length (strays w t)) <$> types)), w')
    /\ accounts w' = accounts w
    /\ (forall key, key ∉ (indexKey <$> types) -> smembersOf key w' = smembersOf key w)
    /\ (forall t m, t ∈ types ->
          m ∈ smembersOf (indexKey t) w'
          <-> m ∈ smembersOf (indexKey t) w /\ consistentOf w t m = true).
Proof.
  intros Hnd. revert n w. induction Hnd as [|accountType rest Hnotin Hnd IH]; intros n w.
  - exists w. simpl. rewrite Nat.add_0_r. split_and!; [done..|].
    intros t m Hin. by apply elem_of_nil in Hin.
  - cbn [cleanupTypes]. unfold bind.
    destruct (cleanupType_dependable accountType n w) as (w1 & -> & Ha1 & Ho1 & Hi1).
    destruct (IH (n + length (strays w accountType)) w1) as (w' & -> & Ha & Ho & Hi).
    exists w'. split.
    { f_equal. f_equal. rewrite fmap_cons, sum_list_cons, Nat.add_assoc. f_equal.
      f_equal. apply list_fmap_ext. intros i t Hlook.
      apply list_elem_of_lookup_2 in Hlook.
      rewrite (strays_same w w1); [done|done|].
      apply Ho1. intros Heq. apply indexKey_inj in Heq. by subst. }
    split; [congruence|]. split.
    { intros key Hkey. rewrite fmap_cons, not_elem_of_cons in Hkey.
      destruct Hkey as [Hne Hkey]. by rewrite Ho, Ho1. }
    intros t m Hin. apply elem_of_cons in Hin as [->|Hin].
    + rewrite Ho by (by apply indexKey_fmap_not_elem). apply Hi1.
    + rewrite (Hi t m Hin). rewrite (consistentOf_same w w1) by done.
      rewrite Ho1; [done|]. intros Heq. apply indexKey_inj in Heq. by subst.
Qed.
End SweepExact2.

Lemma filter_none {A} (P : A -> Prop) `{!forall x, Decision (P x)} (l : list A) :
  (forall x, x ∈ l -> ~ P x) -> filter P l = [].
Proof.
  induction l as [|x l IH]; intros Hn; [done|].
  rewrite filter_cons_False by (apply Hn; by left).
  apply IH. intros y Hy. apply Hn. by right.
Qed.

Lemma sum_list_zero {A} (f : A -> nat) (l : list A) :
  (forall x, x ∈ l -> f x = 0) -> sum_list (f <$> l) = 0.
Proof.
  induction l as [|x l IH]; intros Hz; [done|].
  rewrite fmap_cons, sum_list_cons, (Hz x) by (by left).
  apply IH. intros y Hy. apply Hz. by right.
Qed.

Lemma accountTypes_NoDup : NoDup accountTypes.
Proof. apply (bool_decide_unpack _). vm_compute. exact I. Qed.

Section SweepTheorems.
Import AutoRecoveryService.

(** X8.  [cleanupInconsistentData] never raises, whatever fails
    underneath.  It changes no record, adds no member to any set, does not
    even attempt a record update or an index add, and reports at most as
    many removals as the eight indexes had members. *)
Theorem cleanupInconsistentData_only_prunes E w :
  exists totalCleaned w',
    cleanupInconsistentData E w = (Returned totalCleaned, w')
    /\ accounts w' = accounts w
    /\ (forall key member, member ∈ smembersOf key w' -> member ∈ smembersOf key w)
    /\ Forall readOrRemove (added w w')
    /\ totalCleaned
       <= sum_list ((fun t => size (smembersOf (indexKey t) w)) <$> accountTypes).
Proof.
  unfold cleanupInconsistentData.
  destruct (cleanupTypes_pruned E accountTypes 0 w) as (n & w' & Hr & Hn & Ha & Hi & evs & He & Hf).
  exists n, w'. split; [done|]. split; [done|]. split; [done|].
  split; [by rewrite (added_app _ _ _ He)|]. lia.
Qed.

(** X9.  With a dependable store, [cleanupInconsistentData] returns the
    number of index members whose record does not pass the validation,
    leaves the records alone, and afterwards the index of each of the eight
    provider types holds exactly the former members whose record passes;
    other sets are unchanged, and a second sweep finds nothing to clean. *)
Theorem cleanupInconsistentData_restores_index E w :
  dependable E ->
  exists w',
    cleanupInconsistentData E w
    = (Returned (sum_list ((fun t => length (strays w t)) <$> accountTypes)), w')
    /\ accounts w' = accounts w
    /\ (forall accountType accountId,
          accountType ∈ accountTypes ->
          accountId ∈ smembersOf (indexKey accountType) w'
          <-> accountId ∈ smembersOf (indexKey accountType) w
              /\ consistentOf w accountType accountId = true)
    /\ (forall key, key ∉ (indexKey <$> accountTypes) -> smembersOf key w' = smembersOf key w)
    /\ (cleanupInconsistentData E w').1 = Returned 0.
Proof.
  intros Hd. unfold cleanupInconsistentData.
  destruct (cleanupTypes_dependable E Hd accountTypes 0 w accountTypes_NoDup)
    as (w' & Hr & Ha & Ho & Hi).
  exists w'. split; [exact Hr|]. split; [done|]. split; [done|]. split; [done|].
  destruct (cleanupTypes_dependable E Hd accountTypes 0 w' accountTypes_NoDup)
    as (w'' & -> & _).
  cbn [fst]. f_equal. apply sum_list_zero. intros t Ht.
  unfold strays. rewrite filter_none; [done|].
  intros m Hm. apply elem_of_elements in Hm. apply (Hi t m Ht) in Hm as [_ Hc].
  rewrite (consistentOf_same w w') by done. by rewrite Hc.
Qed.

Lemma cleanupInconsistentData_restores_index_witness :
  dependable calmEnv
  /\ exists w',
       cleanupInconsistentData calmEnv strayY
       = (Returned (sum_list ((fun t => length (strays strayY t)) <$> accountTypes)), w')
       /\ accounts w' = accounts strayY
       /\ (forall accountType accountId,
             accountType ∈ accountTypes ->
             accountId ∈ smembersOf (indexKey accountType) w'
             <-> accountId ∈ smembersOf (indexKey accountType) strayY
                 /\ consistentOf strayY accountType accountId = true)
       /\ (forall key, key ∉ (indexKey <$> accountTypes) ->
             smembersOf key w' = smembersOf key strayY)
       /\ (cleanupInconsistentData calmEnv w').1 = Returned 0.
Proof.
  assert (dependable calmEnv) as Hd by (intros n; reflexivity).
  split; [exact Hd|]. exact (cleanupInconsistentData_restores_index calmEnv strayY Hd).
Defined.
End SweepTheorems.

Section NonMembers.
Import AutoRecoveryService.
Variable E : Env.

(** The loop over a list that does not hold [accountId] (or is for another
    provider type) leaves the record and the index entry of
    [(accountType, accountId)] alone. *)
Lemma checkAccounts_others svc accountType accountId accountType' ids c w :
  serviceByType accountType = Some svc ->
  (accountType' = accountType -> accountId ∉ ids) ->
  undisturbed svc accountId (indexKey accountType) w
    (checkAccounts E accountType' ids c w).2.
Proof.
  intros Hs. revert c w. induction ids as [|accountId' rest IH]; intros c w Hne.
  - apply undisturbed_refl.
  - simpl. unfold bind.
    assert ((accountType', accountId') <> (accountType, accountId)) as Hne'.
    { intros [= -> ->]. apply Hne; [done|]. by left. }
    pose proof (checkAccount_other E svc accountType accountId accountType' accountId' c w
                  Hs Hne') as H1.
    unfold wp in H1.
    destruct (checkAccount_returns E accountType' accountId' c w) as (c1 & w1 & Hr & _).
    rewrite Hr in H1 |- *. simpl in H1.
    eapply undisturbed_trans; [exact H1|]. apply IH.
    intros Heq Hin. apply Hne; [done|]. by right.
Qed.

Lemma checkAccountType_non_member svc accountType accountId accountType' w :
  serviceByType accountType = Some svc ->
  accountId ∉ smembersOf (indexKey accountType) w ->
  undisturbed svc accountId (indexKey accountType) w (checkAccountType E accountType' w).2.
Proof.
  intros Hs Hout. rewrite checkAccountType_run. simpl.
  destruct (fault E (ticks w)) as [e|].
  { simpl. apply undisturbed_log; [done|]. apply undisturbed_tick, undisturbed_refl. }
  assert (undisturbed svc accountId (indexKey accountType) w
            (logCall CGetClientSafe true (tick w))) as H1.
  { apply undisturbed_log; [done|]. apply undisturbed_tick, undisturbed_refl. }
  destruct (fault E (S (ticks w))) as [e|].
  { simpl. apply undisturbed_log; [done|]. by apply undisturbed_tick. }
  assert (undisturbed svc accountId (indexKey accountType) w
            (logCall (CSmembers (indexKey accountType')) true
               (tick (logCall CGetClientSafe true (tick w))))) as H2.
  { apply undisturbed_log; [done|]. by apply undisturbed_tick. }
  destruct (Nat.eqb _ 0); [exact H2|].
  match goal with
  | |- context [checkAccounts E ?t ?ids ?c ?w0] =>
      assert (t = accountType -> accountId ∉ ids) as Hids
        by (intros ->; by rewrite elem_of_elements);
      pose proof (checkAccounts_others svc accountType accountId t ids c w0 Hs Hids) as H3;
      destruct (checkAccounts_counts E t ids c w0) as (c' & w3 & Hr & _)
  end.
  rewrite Hr in H3 |- *. simpl in H3 |- *. by eapply undisturbed_trans.
Qed.

Lemma checkTypes_non_member svc accountType accountId types t w :
  serviceByType accountType = Some svc ->
  accountId ∉ smembersOf (indexKey accountType) w ->
  undisturbed svc accountId (indexKey accountType) w (checkTypes E types t w).2.
Proof.
  intros Hs. revert t w. induction types as [|accountType' rest IH]; intros t w Hout.
  - apply undisturbed_refl.
  - simpl. unfold bind.
    destruct (checkType_returns E accountType' t w) as (t1 & w1 & -> & -> & _).
    pose proof (checkAccountType_non_member svc accountType accountId accountType' w Hs Hout)
      as H1.
    eapply undisturbed_trans; [exact H1|].
    apply IH. intros Hin. apply Hout. by apply H1.
Qed.

Lemma runRecoveryCheck_world w :
  (runRecoveryCheck E w).2 = tick (checkTypes E accountTypes (mkSums 0 0 0 0) (tick w)).2.
Proof. by destruct (runRecoveryCheck_returns E w) as (totals & w' & -> & -> & _). Qed.
End NonMembers.

Section NonMemberTheorem.
Import AutoRecoveryService.

(** X11.  A recovery cycle leaves alone every account that is not in the
    index of its provider type: its record is unchanged, it is still not in
    the index, and no update of it is attempted.  A record that is
    quarantined but missing from the index is therefore never re-admitted by
    the cycle. *)
Theorem runRecoveryCheck_ignores_non_members E svc accountType accountId w :
  serviceByType accountType = Some svc ->
  accountId ∉ smembersOf (indexKey accountType) w ->
  let w' := (runRecoveryCheck E w).2 in
  accounts w' !! (svc, accountId) = accounts w !! (svc, accountId)
  /\ (accountId ∉ smembersOf (indexKey accountType) w')
  /\ Forall (noUpdateOf svc accountId) (added w w').
Proof.
  intros Hs Hout w'.
  assert (undisturbed svc accountId (indexKey accountType) w w') as [Hu Hk].
  { subst w'. rewrite runRecoveryCheck_world. apply undisturbed_tick.
    eapply undisturbed_trans; [apply undisturbed_tick, undisturbed_refl|].
    by apply checkTypes_non_member. }
  split; [by destruct Hu as (_ & Ha & _)|].
  split; [|by eapply added_untouched].
  intros Hin. apply Hout. by apply Hu.
Qed.
End NonMemberTheorem.

Section Settles.
Import AutoRecoveryService.
Variable E : Env.
Hypothesis Hd : dependable E.

Lemma _recoverAccount_dependable accountId accountType svc w :
  serviceByType accountType = Some svc ->
  exists w', _recoverAccount E accountId accountType w = (Returned tt, w').
Proof.
  intros Hs. rewrite (_recoverAccount_run E accountId accountType svc w Hs).
  cbv zeta. rewrite !Hd. by eexists.
Qed.

Lemma consistent_stamped a v :
  consistent (Some (applyUpdates [("lastAutoRecoveryAttempt", JStr v)] a))
  = consistent (Some a).
Proof.
  unfold applyUpdates, consistent, propTruthy. simpl. unfold applyField. simpl.
  by rewrite !lookup_insert_ne by done.
Qed.


Lemma checkAccount_settles svc accountType accountId c w :
  serviceByType accountType = Some svc ->
  wp (checkAccount E accountType accountId c)
     (fun _ w' => settled svc accountType accountId w') w.
Proof.
  intros Hs. unfold checkAccount, _validateAccountData, _getAccountByType,
    _updateLastRecoveryAttempt, _updateAccountByType.
  rewrite Hs.
  repeat wp_step_to_recover.
  all: try match goal with
       | H : fault E _ = Some _ |- _ => rewrite Hd in H; discriminate H
       end.
  all: try match goal with
       | H : _recoverAccount E _ _ _ = (Thrown _, _) |- _ =>
           let w0 := fresh "w0" in
           let Hx := fresh "Hx" in
           match type of H with
           | _recoverAccount E ?i ?t ?x = _ =>
               destruct (_recoverAccount_dependable i t svc x Hs) as (w0 & Hx);
               rewrite Hx in H; discriminate H
           end
       | H : _recoverAccount E _ _ _ = (Returned tt, _) |- _ =>
           apply _recoverAccount_success in H as (? & _ & _ & (? & _ & _ & _ & _ & _ & _ & _ & ? & _));
           by left
       end.
  all: try (left; unfold smembersOf; cbn [redisSets logCall setRedisSets];
            rewrite lookup_insert_eq; simpl; intros Hin;
            apply elem_of_difference in Hin as [_ Hin]; apply Hin;
            by apply elem_of_singleton).
  all: right; cbn [accounts logCall tick setAccounts] in *;
       rewrite lookup_insert_eq;
       match goal with
       | H : accounts _ !! _ = Some _ |- _ => rewrite H
       end;
       cbn [default from_option]; rewrite consistent_stamped; simpl;
       match goal with
       | H : negb _ || negb _ = false |- _ =>
           apply orb_false_iff in H as [->%negb_false_iff ->%negb_false_iff]
       end; reflexivity.
Qed.
End Settles.

Section SettledLoops.
Import AutoRecoveryService.
Variable E : Env.
Hypothesis Hd : dependable E.

Lemma settled_undisturbed svc accountType accountId w w' :
  undisturbed svc accountId (indexKey accountType) w w' ->
  settled svc accountType accountId w -> settled svc accountType accountId w'.
Proof.
  intros [(_ & Ha & Hi & _) _] [Hout|Hc].
  - left. intros Hin. apply Hout. by apply Hi.
  - right. by rewrite Ha.
Qed.

Lemma checkAccounts_settled svc accountType accountId ids c w :
  serviceByType accountType = Some svc ->
  accountId ∈ ids \/ settled svc accountType accountId w ->
  settled svc accountType accountId (checkAccounts E accountType ids c w).2.
Proof.
  intros Hs. revert c w. induction ids as [|accountId' rest IH]; intros c w Hor.
  - destruct Hor as [Hin|H]; [by apply elem_of_nil in Hin|exact H].
  - simpl. unfold bind.
    destruct (checkAccount_returns E accountType accountId' c w) as (c1 & w1 & Hr & _).
    rewrite Hr. apply IH.
    destruct (decide (accountId' = accountId)) as [->|Hne].
    + right. pose proof (checkAccount_settles E Hd svc accountType accountId c w Hs) as H.
      unfold wp in H. by rewrite Hr in H.
    + destruct Hor as [Hin|H].
      * left. apply elem_of_cons in Hin as [Heq|Hin]; [congruence|done].
      * right. eapply settled_undisturbed; [|exact H].
        assert ((accountType, accountId') <> (accountType, accountId)) as Hne' by congruence.
        pose proof (checkAccount_other E svc accountType accountId accountType accountId' c w
                      Hs Hne') as Hu.
        unfold wp in Hu. by rewrite Hr in Hu.
Qed.

Lemma checkAccountType_settled svc accountType accountId w :
  serviceByType accountType = Some svc ->
  settled svc accountType accountId (checkAccountType E accountType w).2.
Proof.
  intros Hs. rewrite checkAccountType_run. simpl. rewrite !Hd.
  set (key := indexKey accountType).
  set (w2 := logCall (CSmembers key) true (tick (logCall CGetClientSafe true (tick w)))).
  assert (accountId ∈ elements (smembersOf key w) \/ settled svc accountType accountId w2)
    as Hor.
  { destruct (decide (accountId ∈ smembersOf key w)) as [Hin|Hout].
    - left. by apply elem_of_elements.
    - right. left. exact Hout. }
  destruct (elements (smembersOf key w)) as [|x xs] eqn:Hel.
  - simpl. destruct Hor as [Hin|H]; [by apply elem_of_nil in Hin|exact H].
  - cbn [length Nat.eqb].
    pose proof (checkAccounts_settled svc accountType accountId (x :: xs) (mkTally 0 0 0) w2
                  Hs Hor) as H.
    destruct (checkAccounts_counts E accountType (x :: xs) (mkTally 0 0 0) w2)
      as (c' & w3 & Hr & _).
    rewrite Hr in H |- *. exact H.
Qed.

Lemma checkTypes_settled svc accountType accountId types t w :
  serviceByType accountType = Some svc ->
  accountType ∈ types \/ settled svc accountType accountId w ->
  settled svc accountType accountId (checkTypes E types t w).2.
Proof.
  intros Hs. revert t w. induction types as [|accountType' rest IH]; intros t w Hor.
  - destruct Hor as [Hin|H]; [by apply elem_of_nil in Hin|exact H].
  - simpl. unfold bind.
    destruct (checkType_returns E accountType' t w) as (t1 & w1 & -> & -> & _).
    apply IH.
    destruct (decide (accountType' = accountType)) as [->|Hne].
    + right. by apply checkAccountType_settled.
    + destruct Hor as [Hin|H].
      * left. apply elem_of_cons in Hin as [Heq|Hin]; [congruence|done].
      * right. eapply settled_undisturbed; [|exact H].
        by apply checkAccountType_other.
Qed.
End SettledLoops.

Section SettledTheorem.
Import AutoRecoveryService.

(** X10.  With a dependable store, after a recovery cycle every member of
    the index of one of the eight provider types was a member before and has
    a record that passes the validation (both quarantine attributes
    present): the cycle restores the agreement of index and records. *)
Theorem runRecoveryCheck_leaves_consistent_index E w :
  dependable E ->
  let w' := (runRecoveryCheck E w).2 in
  forall accountType accountId,
    accountType ∈ accountTypes ->
    accountId ∈ smembersOf (indexKey accountType) w' ->
    accountId ∈ smembersOf (indexKey accountType) w
    /\ consistentOf w' accountType accountId = true.
Proof.
  intros Hd w' accountType accountId Hty Hin.
  apply serviceByType_recognized in Hty as [svc Hs].
  split.
  - destruct (decide (accountId ∈ smembersOf (indexKey accountType) w)) as [|Hout]; [done|].
    exfalso. revert Hin. subst w'. rewrite runRecoveryCheck_world.
    change (smembersOf (indexKey accountType) (tick ?x))
      with (smembersOf (indexKey accountType) x).
    pose proof (checkTypes_non_member E svc accountType accountId accountTypes
                  (mkSums 0 0 0 0) (tick w) Hs Hout) as [(_ & _ & Hi & _) _].
    intros Hin. apply Hout. by apply Hi.
  - unfold consistentOf. rewrite Hs.
    assert (settled svc accountType accountId w') as [Hout|Hc]; [|done|done].
    subst w'. rewrite runRecoveryCheck_world.
    assert (accountType ∈ accountTypes) as Hty by (apply serviceByType_recognized; eauto).
    pose proof (checkTypes_settled E Hd svc accountType accountId accountTypes
                  (mkSums 0 0 0 0) (tick w) Hs (or_introl Hty)) as H.
    exact H.
Qed.
End SettledTheorem.

Section Stamped.
Lemma stampedOnly_refl w : stampedOnly w w.
Proof. by intros svc accountId f _. Qed.

Lemma stampedOnly_trans w1 w2 w3 :
  stampedOnly w1 w2 -> stampedOnly w2 w3 -> stampedOnly w1 w3.
Proof. intros H1 H2 svc accountId f Hf. by rewrite H2, H1. Qed.

Lemma stampedOnly_tick w X : stampedOnly w X -> stampedOnly w (tick X).
Proof. intros H. eapply stampedOnly_trans; [exact H|]. by intros ? ? ? _. Qed.

Lemma stampedOnly_log c ok w X : stampedOnly w X -> stampedOnly w (logCall c ok X).
Proof. intros H. eapply stampedOnly_trans; [exact H|]. by intros ? ? ? _. Qed.

Lemma stampedOnly_setRedisSets r w X : stampedOnly w X -> stampedOnly w (setRedisSets r X).
Proof. intros H. eapply stampedOnly_trans; [exact H|]. by intros ? ? ? _. Qed.

Lemma stampedOnly_stamp svc accountId v w X :
  stampedOnly w X ->
  stampedOnly w
    (setAccounts
       (<[(svc, accountId) :=
            applyUpdates [("lastAutoRecoveryAttempt", JStr v)]
              (default ∅ (accounts X !! (svc, accountId)))]> (accounts X)) X).
Proof.
  intros H. eapply stampedOnly_trans; [exact H|].
  intros svc' accountId' f Hf. unfold fieldOf. cbn [accounts setAccounts].
  destruct (decide ((svc, accountId) = (svc', accountId'))) as [<-|Hne].
  - rewrite lookup_insert_eq. cbn. unfold applyField. cbn.
    rewrite lookup_insert_ne by done.
    by destruct (accounts X !! (svc, accountId)).
  - by rewrite lookup_insert_ne.
Qed.
End Stamped.

Ltac stamped_layers :=
  repeat
    lazymatch goal with
    | |- stampedOnly ?w0 ?w0 => apply stampedOnly_refl
    | |- stampedOnly _ (tick _) => apply stampedOnly_tick
    | |- stampedOnly _ (setRedisSets _ _) => apply stampedOnly_setRedisSets
    | |- stampedOnly _ (setAccounts _ _) => apply stampedOnly_stamp
    | |- stampedOnly _ (logCall _ _ _) => apply stampedOnly_log
    end.

Section WithoutProbe.
Import AutoRecoveryService.
Variable E : Env.
Variable accountType : string.
Hypothesis Hconsole : accountType <> "claude-console".
Hypothesis Hbedrock : accountType <> "bedrock".

Lemma _testAccountConnection_unsupported accountId w :
  _testAccountConnection E accountId accountType w
  = (Returned (mkProbe false (Some ("Test not implemented for " ++ accountType)%string)), w).
Proof.
  unfold _testAccountConnection, try_catch.
  destruct (String.eqb_spec accountType "claude-console") as [?|_]; [done|].
  destruct (String.eqb_spec accountType "bedrock") as [?|_]; [done|]. done.
Qed.

Lemma checkAccount_without_probe accountId c w :
  wp (checkAccount E accountType accountId c)
     (fun o w' =>
        (exists c', o = Returned c' /\ nRecovered c' = nRecovered c)
        /\ stampedOnly w w') w.
Proof.
  unfold checkAccount, _testAccountConnection.
  destruct (String.eqb_spec accountType "claude-console") as [?|_]; [done|].
  destruct (String.eqb_spec accountType "bedrock") as [?|_]; [done|].
  wp_go.
  all: split; [by eexists|].
  all: stamped_layers.
Qed.

Lemma checkAccounts_without_probe ids c w :
  exists c' w',
    checkAccounts E accountType ids c w = (Returned c', w')
    /\ nRecovered c' = nRecovered c /\ stampedOnly w w'.
Proof.
  revert c w. induction ids as [|accountId rest IH]; intros c w.
  - exists c, w. split; [done|]. split; [done|apply stampedOnly_refl].
  - pose proof (checkAccount_without_probe accountId c w) as H1. unfold wp in H1.
    destruct (checkAccount E accountType accountId c w) as [o w1] eqn:Hrun.
    simpl in H1. destruct H1 as [(c1 & -> & Hc1) Hp1].
    destruct (IH c1 w1) as (c' & w' & Hr & Hc & Hp).
    exists c', w'. simpl. unfold bind. rewrite Hrun, Hr.
    split; [done|]. split; [congruence|by eapply stampedOnly_trans].
Qed.
End WithoutProbe.

Section WithoutProbeTheorem.
Import AutoRecoveryService.

(** X7.  For a provider type other than [claude-console] and [bedrock]
    the periodic check never re-admits an account: [checkAccountType]
    reports no recovered account, no attribute of any record changes except
    [lastAutoRecoveryAttempt], and the check of one account never raises the
    recovered count. *)
Theorem checkAccountType_without_probe E accountType w :
  accountType <> "claude-console" ->
  accountType <> "bedrock" ->
  let run := checkAccountType E accountType w in
  (forall r, run.1 = Returned r -> recovered r = 0)
  /\ (forall svc accountId f,
        f <> "lastAutoRecoveryAttempt" ->
        fieldOf run.2 svc accountId f = fieldOf w svc accountId f)
  /\ (forall accountId c w0,
        exists c', (checkAccount E accountType accountId c w0).1 = Returned c'
                   /\ nRecovered c' = nRecovered c).
Proof.
  intros Hc Hb run. subst run. rewrite checkAccountType_run. cbv zeta.
  split_and!.
  - destruct (fault E (ticks w)) as [e|]; [done|].
    destruct (fault E (1 + ticks w)) as [e|]; [done|].
    destruct (Nat.eqb _ 0); [by intros r [= <-]|].
    match goal with
    | |- context [checkAccounts E ?t ?ids ?c ?w0] =>
        destruct (checkAccounts_without_probe E t Hc Hb ids c w0) as (c' & w' & -> & Hn & _)
    end.
    simpl. intros r [= <-]. exact Hn.
  - enough (stampedOnly w
              (match fault E (ticks w) with
               | Some e => (@Thrown Counters e, logCall CGetClientSafe false (tick w))
               | None => _ end).2) as Hen by exact Hen.
    destruct (fault E (ticks w)) as [e|]; [simpl; stamped_layers|].
    destruct (fault E (1 + ticks w)) as [e|]; [simpl; stamped_layers|].
    destruct (Nat.eqb _ 0); [simpl; stamped_layers|].
    match goal with
    | |- context [checkAccounts E ?t ?ids ?c ?w0] =>
        destruct (checkAccounts_without_probe E t Hc Hb ids c w0) as (c' & w' & -> & _ & Hp)
    end.
    simpl. eapply stampedOnly_trans; [|exact Hp]. stamped_layers.
  - intros accountId c w0.
    pose proof (checkAccount_without_probe E accountType Hc Hb accountId c w0) as H.
    unfold wp in H. by destruct H as [H _].
Qed.
End WithoutProbeTheorem.

(** ** Strings *)

Lemma string_length_app (s1 s2 : string) :
  String.length (s1 ++ s2) = String.length s1 + String.length s2.
Proof. induction s1 as [|c s1 IH]; simpl; [done|]. by rewrite IH. Qed.

Lemma substring_0_length n s :
  String.length (String.substring 0 n s) = Nat.min n (String.length s).
Proof.
  revert s. induction n as [|n IH]; intros s.
  - by destruct s.
  - destruct s as [|c s]; simpl; [done|]. by rewrite IH.
Qed.

Lemma substring_0_short n s :
  String.length s <= n -> String.substring 0 n s = s.
Proof.
  revert s. induction n as [|n IH]; intros s Hl.
  - destruct s; [done|]. simpl in Hl. lia.
  - destruct s as [|c s]; simpl; [done|]. rewrite IH; [done|]. simpl in Hl. lia.
Qed.

Lemma substring_0_idemp n s :
  String.substring 0 n (String.substring 0 n s) = String.substring 0 n s.
Proof. apply substring_0_short. rewrite substring_0_length. lia. Qed.

Lemma pretty_status_length (statusCode : Z) :
  (400 <= statusCode <= 599)%Z -> String.length (pretty statusCode) = 3.
Proof.
  intros Hr.
  assert (Forall (fun z : Z => String.length (pretty z) = 3) (seqZ 400 200)) as Hall
    by (apply (bool_decide_unpack _); vm_compute; exact I).
  rewrite Forall_forall in Hall. apply Hall. apply elem_of_seqZ. lia.
Qed.

Section DisableExtras.
Import AccountAutoDisableService.

Lemma handleErrorResponse_cases E accountId accountType statusCode errorMessage apiUrl triggerType w :
  exists r w',
    handleErrorResponse E accountId accountType statusCode errorMessage apiUrl triggerType w
    = (Returned r, w')
    /\ (disabled r = true ->
        (400 <= statusCode <= 599)%Z
        /\ reason r = Some (reasonText statusCode errorMessage)
        /\ error r = None
        /\ accountId ∈ smembersOf (indexKey accountType) w'
        /\ exists svc,
             serviceByType accountType = Some svc
             /\ accounts w' !! (svc, accountId)
                = Some (merged svc accountId
                          (disableUpdates statusCode errorMessage apiUrl triggerType
                             (isoAt E (ticks w)) (isoAt E (1 + ticks w))) w))
    /\ (disabled r = false -> redisSets w' = redisSets w /\ reason r = None)
    /\ (disabled r = false /\ error r = None <-> (statusCode < 400 \/ 599 < statusCode)%Z).
Proof.
  destruct (decide (400 <= statusCode <= 599)%Z) as [Hr|Hr].
  - destruct (serviceByType accountType) as [svc|] eqn:Hs.
    + pose proof (handleErrorResponse_run E accountId accountType svc statusCode
                    errorMessage apiUrl triggerType w Hr Hs) as Hrun.
      simpl in Hrun. rewrite Hrun.
      destruct (fault E (S (S (ticks w)))) as [e|].
      { eexists _, _. split; [reflexivity|]. simpl. split_and!; try done.
        split; [by intros [_ [=]]|lia]. }
      destruct (fault E (S (S (S (ticks w))))) as [e|].
      { eexists _, _. split; [reflexivity|]. simpl. split_and!; try done.
        split; [by intros [_ [=]]|lia]. }
      eexists _, _. split; [reflexivity|]. simpl. split_and!; try done.
      * intros _. split; [lia|]. split; [done|]. split; [done|]. split.
        -- unfold smembersOf. simpl. rewrite lookup_insert_eq. simpl.
           apply elem_of_union. left. by apply elem_of_singleton.
        -- exists svc. split; [done|]. unfold afterRecordWrite. simpl.
           by rewrite lookup_insert_eq.
      * split; [by intros [[=] _]|lia].
    + rewrite handleErrorResponse_unknown by assumption.
      eexists _, _. split; [reflexivity|]. simpl. split_and!; try done.
      split; [by intros [_ [=]]|lia].
  - rewrite handleErrorResponse_closed by lia.
    eexists _, _. split; [reflexivity|]. simpl. split_and!; try done.
    split; [lia|done].
Qed.


(** X2.  For a status code in 400..599 the stored reason is the ten
    characters of [HTTP <status>: ] followed by the first 200 characters of
    the message, so it never exceeds 210 characters; a message of at most
    200 characters is kept whole, and cutting the message beforehand gives
    the same reason. *)
Theorem autoDisabledReason_is_bounded statusCode errorMessage :
  (400 <= statusCode <= 599)%Z ->
  String.length (reasonText statusCode errorMessage)
  = 10 + Nat.min 200 (String.length errorMessage)
  /\ (String.length errorMessage <= 200 ->
      reasonText statusCode errorMessage
      = ("HTTP " ++ pretty statusCode ++ ": " ++ errorMessage)%string)
  /\ reasonText statusCode (String.substring 0 200 errorMessage)
     = reasonText statusCode errorMessage.
Proof.
  intros Hr. unfold reasonText. split_and!.
  - rewrite !string_length_app, substring_0_length, (pretty_status_length _ Hr).
    reflexivity.
  - intros Hl. by rewrite substring_0_short.
  - by rewrite substring_0_idemp.
Qed.

Lemma autoDisabledReason_is_bounded_witness :
  (400 <= 404 <= 599)%Z
  /\ String.length (reasonText 404 "not found")
     = 10 + Nat.min 200 (String.length "not found")
  /\ (String.length "not found" <= 200 ->
      reasonText 404 "not found" = ("HTTP " ++ pretty 404%Z ++ ": " ++ "not found")%string)
  /\ reasonText 404 (String.substring 0 200 "not found") = reasonText 404 "not found".
Proof.
  split; [lia|]. apply (autoDisabledReason_is_bounded 404 "not found"). lia.
Defined.

(** X1.  [handleErrorResponse] never raises, whatever the provider type,
    the status code and the failures of the record store and the index: it
    always returns a result.  It reports [disabled: true] only when the
    record then holds [schedulable = false] and the reason text and the
    account is in the index of its type; when it reports [disabled: false]
    no index set has changed; and [disabled: false] without an [error] is
    returned exactly for a status code outside 400..599. *)
Theorem handleErrorResponse_never_raises
    E accountId accountType statusCode errorMessage apiUrl triggerType w :
  exists r w',
    handleErrorResponse E accountId accountType statusCode errorMessage apiUrl triggerType w
    = (Returned r, w')
    /\ (disabled r = true ->
        reason r = Some (reasonText statusCode errorMessage)
        /\ accountId ∈ smembersOf (indexKey accountType) w'
        /\ exists svc,
             serviceByType accountType = Some svc
             /\ fieldOf w' svc accountId "schedulable" = Some (JBool false)
             /\ fieldOf w' svc accountId "autoDisabledReason"
                = Some (JStr (reasonText statusCode errorMessage)))
    /\ (disabled r = false -> redisSets w' = redisSets w)
    /\ (disabled r = false /\ error r = None <-> (statusCode < 400 \/ 599 < statusCode)%Z).
Proof.
  destruct (handleErrorResponse_cases E accountId accountType statusCode errorMessage
              apiUrl triggerType w) as (r & w' & Hrun & Hon & Hoff & Hgate).
  exists r, w'. split; [exact Hrun|]. split; [|split; [|exact Hgate]].
  - intros Hdis. destruct (Hon Hdis) as (_ & Hreason & _ & Hin & svc & Hs & Ha).
    split; [exact Hreason|]. split; [exact Hin|]. exists svc. split; [exact Hs|].
    unfold fieldOf. rewrite Ha. unfold merged. rewrite applyUpdates_disable. cbn.
    split.
    + by rewrite !lookup_insert_ne, lookup_insert_eq by done.
    + by rewrite lookup_insert_ne, lookup_insert_eq by done.
  - intros Hdis. by destruct (Hoff Hdis).
Qed.
End DisableExtras.

Section Quarantined.
Import AccountAutoDisableService.

Lemma consistent_disabled a statusCode errorMessage apiUrl triggerType t1 t2 :
  t1 <> EmptyString ->
  consistent (Some (applyUpdates
                      (disableUpdates statusCode errorMessage apiUrl triggerType t1 t2) a))
  = true.
Proof.
  intros Ht. rewrite applyUpdates_disable. unfold consistent, propTruthy.
  rewrite !lookup_insert_ne, lookup_insert_eq by done.
  rewrite lookup_insert_ne, lookup_insert_eq by done. simpl.
  apply andb_true_iff. split; [|done].
  apply negb_true_iff. by apply String.eqb_neq.
Qed.

(** X3.  When [handleErrorResponse] reports [disabled: true] (the
    timestamp text not being empty), the account is in the index of its
    type and its record is one that [_validateAccountData] accepts, so the
    recovery service will probe it rather than clean it away. *)
Theorem quarantined_account_passes_validation
    E E' accountId accountType statusCode errorMessage apiUrl triggerType w r w' :
  isoAt E (ticks w) <> EmptyString ->
  handleErrorResponse E accountId accountType statusCode errorMessage apiUrl triggerType w
  = (Returned r, w') ->
  disabled r = true ->
  accountId ∈ smembersOf (indexKey accountType) w'
  /\ consistentOf w' accountType accountId = true
  /\ (fault E' (ticks w') = None ->
      (AutoRecoveryService._validateAccountData E' accountId accountType w').1
      = Returned true).
Proof.
  intros Ht Hrun Hdis.
  destruct (handleErrorResponse_cases E accountId accountType statusCode errorMessage
              apiUrl triggerType w) as (r0 & w0 & Hrun0 & Hon & _).
  rewrite Hrun in Hrun0. injection Hrun0 as <- <-.
  destruct (Hon Hdis) as (_ & _ & _ & Hin & svc & Hs & Ha).
  assert (consistent (accounts w' !! (svc, accountId)) = true) as Hc.
  { rewrite Ha. unfold merged. by apply consistent_disabled. }
  split; [exact Hin|]. split.
  - unfold consistentOf. by rewrite Hs.
  - intros Hf. rewrite (_validateAccountData_run E' svc) by done.
    by rewrite Hf, Hc.
Qed.

Lemma quarantined_account_passes_validation_witness :
  let run := handleErrorResponse calmEnv "X" "claude-console" 404
               "not found" "https://relay.example/v1/messages" "request" worldX in
  isoAt calmEnv (ticks worldX) <> EmptyString
  /\ disabled (AccountAutoDisableService.mkResult true (Some "HTTP 404: not found") None) = true
  /\ "X" ∈ smembersOf (indexKey "claude-console") run.2
  /\ consistentOf run.2 "claude-console" "X" = true
  /\ (fault calmEnv (ticks run.2) = None ->
      (AutoRecoveryService._validateAccountData calmEnv "X" "claude-console" run.2).1
      = Returned true).
Proof.
  intros run.
  assert (isoAt calmEnv (ticks worldX) <> EmptyString) as Ht by (vm_compute; discriminate).
  split; [exact Ht|]. split; [reflexivity|].
  apply (quarantined_account_passes_validation calmEnv calmEnv "X" "claude-console" 404
           "not found" "https://relay.example/v1/messages" "request" worldX
           (AccountAutoDisableService.mkResult true (Some "HTTP 404: not found") None)
           run.2 Ht).
  - assert (run.1 = Returned (AccountAutoDisableService.mkResult true
                                (Some "HTTP 404: not found") None)) as Ho
      by (vm_compute; reflexivity).
    rewrite <- Ho. apply surjective_pairing.
  - reflexivity.
Defined.
End Quarantined.

Section ValidationTheorems.
Import AutoRecoveryService.

(** X5.  [_validateAccountData] never raises and writes nothing.  It
    returns [true] exactly when the read of the record succeeds and the
    record exists with truthy [autoDisabledAt] and [autoDisabledReason]; for
    an unknown provider type it returns [false] without any external
    call. *)
Theorem _validateAccountData_is_exact E accountId accountType w :
  let run := _validateAccountData E accountId accountType w in
  accounts run.2 = accounts w
  /\ redisSets run.2 = redisSets w
  /\ exists valid,
       run.1 = Returned valid
       /\ (valid = true
           <-> fault E (ticks w) = None /\ consistentOf w accountType accountId = true)
       /\ (serviceByType accountType = None -> run = (Returned false, w)).
Proof.
  intros run. subst run. unfold consistentOf.
  destruct (serviceByType accountType) as [svc|] eqn:Hs.
  - rewrite (_validateAccountData_run E svc) by done. cbn [fst snd].
    split; [done|]. split; [done|]. eexists. split; [reflexivity|].
    split; [|done].
    destruct (fault E (ticks w)) as [e|].
    + split; [done|]. by intros [? _].
    + split; [by intros ->|by intros [_ ->]].
  - rewrite _validateAccountData_unknown by done. cbn [fst snd].
    split; [done|]. split; [done|]. exists false. split; [done|].
    split; [|done]. split; [done|]. by intros [_ ?].
Qed.

(** X6.  [_testAccountConnection] never raises and changes neither a
    record nor the index.  It reports success only for [claude-console] and
    [bedrock], and only when the probe of that account service succeeded;
    for every other provider type it answers [success: false] with
    [Test not implemented for <type>], without any external call. *)
Theorem _testAccountConnection_is_contained E accountId accountType w :
  (exists r w',
     _testAccountConnection E accountId accountType w = (Returned r, w')
     /\ accounts w' = accounts w
     /\ redisSets w' = redisSets w
     /\ (success r = true ->
         exists svc,
           (accountType = "claude-console" /\ svc = claudeConsoleAccountService
            \/ accountType = "bedrock" /\ svc = bedrockAccountService)
           /\ exists r0, probe E (ticks w) svc accountId = Returned r0 /\ success r0 = true))
  /\ (accountType <> "claude-console" ->
      accountType <> "bedrock" ->
      _testAccountConnection E accountId accountType w
      = (Returned (mkProbe false (Some ("Test not implemented for " ++ accountType)%string)),
         w)).
Proof.
  split; [|intros Hc Hb; by apply _testAccountConnection_unsupported].
  unfold _testAccountConnection, try_catch, bind, testAccountConnection.
  destruct (String.eqb_spec accountType "claude-console") as [->|Hc].
  { destruct (probe E (ticks w) claudeConsoleAccountService accountId) as [r0|e] eqn:Hp.
    - eexists _, _. split; [reflexivity|]. split; [done|]. split; [done|].
      cbn. intros Hs. exists claudeConsoleAccountService. split; [by left|].
      exists r0. by rewrite Hp.
    - eexists _, _. split; [reflexivity|]. split; [done|]. split; [done|]. done. }
  destruct (String.eqb_spec accountType "bedrock") as [->|Hb].
  { destruct (probe E (ticks w) bedrockAccountService accountId) as [r0|e] eqn:Hp.
    - eexists _, _. split; [reflexivity|]. split; [done|]. split; [done|].
      cbn. intros Hs. exists bedrockAccountService. split; [by right|].
      exists r0. by rewrite Hp.
    - eexists _, _. split; [reflexivity|]. split; [done|]. split; [done|]. done. }
  eexists _, _. split; [reflexivity|]. split; [done|]. split; [done|]. done.
Qed.
End ValidationTheorems.

Section RoundTrip.
Import AccountAutoDisableService AutoRecoveryService.
Variable E : Env.
Hypothesis Hd : dependable E.

(** The manual recovery of an index member when every dependency
    answers. *)
Lemma recoverAccountFromTest_member svc accountId accountType w :
  serviceByType accountType = Some svc ->
  accountId ∈ smembersOf (indexKey accountType) w ->
  let w2 := logCall (CSIsMember (indexKey accountType) accountId) true
              (tick (logCall CGetClientSafe true (tick w))) in
  let updates := recoverUpdates (isoAt E (ticks w2)) (isoAt E (1 + ticks w2)) in
  let w3 := afterRecordWrite svc accountId updates w2 in
  let w4 := logCall CGetClientSafe true (tick w3) in
  recoverAccountFromTest E accountId accountType w
  = (Returned (mkTestRecovery true "test_success" None),
     logCall (CSrem (indexKey accountType) accountId) true
       (setRedisSets
          (<[indexKey accountType :=
               smembersOf (indexKey accountType) w ∖ {[accountId]}]> (redisSets w))
          (tick w4))).
Proof.
  intros Hs Hin. cbv zeta.
  unfold recoverAccountFromTest, try_catch, bind, getClientSafe, sIsMember, external.
  rewrite !Hd. cbn [fst snd].
  rewrite bool_decide_eq_true_2 by exact Hin. cbn [negb].
  rewrite (_recoverAccount_run E accountId accountType svc _ Hs). cbv zeta.
  rewrite !Hd. reflexivity.
Qed.
End RoundTrip.

Section RoundTripTheorem.
Import AccountAutoDisableService AutoRecoveryService.

(** X4.  Round trip.  With a dependable store, quarantining an account
    (status code in 400..599, recognized provider type) and then calling
    [recoverAccountFromTest] reports [recovered: true] with reason
    [test_success],
    takes the account out of the index, leaves every other index entry and
    every other record as before the quarantine, removes the three
    quarantine attributes, and leaves every other attribute of the record as
    it was, except [lastAutoRecoveryAttempt], [autoRecoveredAt] and
    [schedulable], which is [true] whatever it was before. *)
Theorem quarantine_then_manual_recovery
    E accountId accountType svc statusCode errorMessage apiUrl triggerType w :
  dependable E ->
  (400 <= statusCode <= 599)%Z ->
  serviceByType accountType = Some svc ->
  let w1 := (handleErrorResponse E accountId accountType statusCode errorMessage
               apiUrl triggerType w).2 in
  let run := recoverAccountFromTest E accountId accountType w1 in
  run.1 = Returned (mkTestRecovery true "test_success" None)
  /\ (accountId ∉ smembersOf (indexKey accountType) run.2)
  /\ (forall key member,
        (key, member) <> (indexKey accountType, accountId) ->
        member ∈ smembersOf key run.2 <-> member ∈ smembersOf key w)
  /\ (forall k, k <> (svc, accountId) -> accounts run.2 !! k = accounts w !! k)
  /\ fieldOf run.2 svc accountId "schedulable" = Some (JBool true)
  /\ fieldOf run.2 svc accountId "autoDisabledAt" = None
  /\ fieldOf run.2 svc accountId "autoDisabledReason" = None
  /\ fieldOf run.2 svc accountId "autoDisabledDetails" = None
  /\ (forall f,
        f ∉ ["schedulable"; "autoDisabledAt"; "autoDisabledReason"; "autoDisabledDetails";
             "lastAutoRecoveryAttempt"; "autoRecoveredAt"] ->
        fieldOf run.2 svc accountId f = fieldOf w svc accountId f).
Proof.
  intros Hd Hr Hs w1 run. subst run w1.
  pose proof (handleErrorResponse_run E accountId accountType svc statusCode
                errorMessage apiUrl triggerType w Hr Hs) as Hrun.
  cbv zeta in Hrun. rewrite !Hd in Hrun. rewrite Hrun. cbn [snd].
  match goal with
  | |- context [recoverAccountFromTest E accountId accountType ?x] =>
      set (w1 := x);
      assert (accountId ∈ smembersOf (indexKey accountType) w1) as Hin
  end.
  { unfold smembersOf. simpl. rewrite lookup_insert_eq. simpl.
    apply elem_of_union. left. by apply elem_of_singleton. }
  rewrite (recoverAccountFromTest_member E Hd svc accountId accountType w1 Hs Hin).
  cbv zeta. cbn [fst snd].
  split; [reflexivity|].
  assert (forall key member X c,
            member ∈ smembersOf key
                       (logCall c true
                          (setRedisSets
                             (<[indexKey accountType :=
                                  smembersOf (indexKey accountType) w1 ∖ {[accountId]}]>
                                (redisSets w1)) X))
            <-> member ∈ smembersOf key w /\ (key, member) <> (indexKey accountType, accountId))
    as Hmem.
  { intros key member X c. unfold smembersOf. subst w1. cbn [redisSets setRedisSets logCall].
    destruct (decide (key = indexKey accountType)) as [->|Hne].
    - rewrite !lookup_insert_eq. cbn [default from_option]. unfold id.
      change (default ∅ (redisSets w !! indexKey accountType))
        with (smembersOf (indexKey accountType) w).
      rewrite elem_of_difference, elem_of_union, !elem_of_singleton.
      split.
      + intros [[->|Hm] Hn]; [done|]. split; [done|]. intros [= ->]. done.
      + intros [Hm Hn]. split; [by right|]. intros ->. done.
    - rewrite !lookup_insert_ne by done. split; [|by intros [? _]].
      intros Hm. split; [done|]. intros [= -> _]. done. }
  split.
  { intros Hm. apply Hmem in Hm as [_ Hn]. done. }
  split.
  { intros key member Hne. rewrite Hmem. split; [by intros [? _]|done]. }
  set (t3 := isoAt E _). set (t4 := isoAt E _).
  assert (forall k,
            accounts (afterRecordWrite svc accountId (recoverUpdates t3 t4)
                        (logCall (CSIsMember (indexKey accountType) accountId) true
                           (tick (logCall CGetClientSafe true (tick w1))))) !! k
            = if decide (k = (svc, accountId))
              then Some (applyUpdates (recoverUpdates t3 t4)
                           (applyUpdates
                              (disableUpdates statusCode errorMessage apiUrl triggerType
                                 (isoAt E (ticks w)) (isoAt E (S (ticks w))))
                              (default ∅ (accounts w !! (svc, accountId)))))
              else accounts w !! k) as Hacc.
  { intros k. unfold afterRecordWrite, merged. subst w1.
    cbn [accounts setAccounts setRedisSets logCall tick afterRecordWrite].
    unfold afterRecordWrite, merged. cbn [accounts setAccounts setRedisSets logCall tick].
    destruct (decide (k = (svc, accountId))) as [->|Hne].
    - rewrite !lookup_insert_eq. reflexivity.
    - by rewrite !lookup_insert_ne. }
  split.
  { intros k Hne. cbn [accounts setRedisSets logCall tick]. rewrite Hacc.
    by rewrite decide_False. }
  destruct (recovered_fields
              (applyUpdates
                 (disableUpdates statusCode errorMessage apiUrl triggerType
                    (isoAt E (ticks w)) (isoAt E (S (ticks w))))
                 (default ∅ (accounts w !! (svc, accountId)))) t3 t4)
    as (F1 & F2 & F3 & F4 & _ & _).
  unfold fieldOf. cbn [accounts setRedisSets logCall tick]. rewrite Hacc.
  rewrite decide_True by done. cbn [mbind option_bind].
  split; [exact F4|]. split; [exact F1|]. split; [exact F2|]. split; [exact F3|].
  intros f Hf. rewrite !elem_of_cons, elem_of_nil in Hf.
  rewrite applyUpdates_recover, applyUpdates_disable.
  rewrite !lookup_insert_ne, !lookup_delete_ne, !lookup_insert_ne by (intros <-; tauto).
  by destruct (accounts w !! (svc, accountId)).
Qed.
End RoundTripTheorem.

Section FailedRemoval.
Import AutoRecoveryService.

Lemma consistent_recovered a t1 t2 :
  consistent (Some (applyUpdates (recoverUpdates t1 t2) a)) = false.
Proof.
  destruct (recovered_fields a t1 t2) as (F1 & _).
  unfold consistent, propTruthy. cbv zeta in F1. by rewrite F1.
Qed.

(** X12.  When in a manual recovery the record update succeeds but the
    removal from the index raises, [recoverAccountFromTest] reports
    [recovered: false] with reason [error] although the record is already
    re-enabled and the account is still in the index; the next recovery
    cycle over a dependable store takes it out of the index as inconsistent
    (counting it as cleaned) and leaves the record as it is. *)
Theorem failed_index_removal_is_repaired E E' svc accountId accountType e w :
  serviceByType accountType = Some svc ->
  accountId ∈ smembersOf (indexKey accountType) w ->
  (forall n, n < 6 -> fault E (n + ticks w) = None) ->
  fault E (6 + ticks w) = Some e ->
  dependable E' ->
  let run := recoverAccountFromTest E accountId accountType w in
  let cycle := runRecoveryCheck E' run.2 in
  run.1 = Returned (mkTestRecovery false "error" (Some e))
  /\ fieldOf run.2 svc accountId "schedulable" = Some (JBool true)
  /\ fieldOf run.2 svc accountId "autoDisabledAt" = None
  /\ accountId ∈ smembersOf (indexKey accountType) run.2
  /\ (accountId ∉ smembersOf (indexKey accountType) cycle.2)
  /\ accounts cycle.2 !! (svc, accountId) = accounts run.2 !! (svc, accountId)
  /\ exists totals, cycle.1 = Returned totals /\ 1 <= totalCleaned totals.
Proof.
  intros Hs Hin Hok Hfail Hd' run cycle.
  assert (run = (Returned (mkTestRecovery false "error" (Some e)),
                 let w2 := logCall (CSIsMember (indexKey accountType) accountId) true
                             (tick (logCall CGetClientSafe true (tick w))) in
                 let updates := recoverUpdates (isoAt E (ticks w2)) (isoAt E (1 + ticks w2)) in
                 let w3 := afterRecordWrite svc accountId updates w2 in
                 let w4 := logCall CGetClientSafe true (tick w3) in
                 logCall (CSrem (indexKey accountType) accountId) false (tick w4))) as Hrun.
  { subst run.
    pose proof (Hok 0 ltac:(lia)) as H0. pose proof (Hok 1 ltac:(lia)) as H1.
    pose proof (Hok 4 ltac:(lia)) as H4. pose proof (Hok 5 ltac:(lia)) as H5.
    cbn [Nat.add] in H0, H1, H4, H5, Hfail.
    unfold recoverAccountFromTest, try_catch, bind, getClientSafe, sIsMember, external.
    cbn [ticks logCall tick]. rewrite H0. cbn [fst snd ticks logCall tick].
    rewrite H1. cbn [fst snd].
    rewrite bool_decide_eq_true_2 by exact Hin. cbn [negb].
    rewrite (_recoverAccount_run E accountId accountType svc _ Hs). cbv zeta.
    cbn [ticks logCall tick Nat.add].
    rewrite H4, H5, Hfail. reflexivity. }
  subst cycle. rewrite Hrun. cbv zeta. cbn [fst snd].
  match goal with
  | |- context [runRecoveryCheck E' ?x] => set (w1 := x)
  end.
  assert (accounts w1 !! (svc, accountId)
          = Some (applyUpdates
                    (recoverUpdates (isoAt E (2 + ticks w)) (isoAt E (3 + ticks w)))
                    (default ∅ (accounts w !! (svc, accountId))))) as Ha.
  { subst w1. unfold afterRecordWrite, merged.
    cbn [accounts setAccounts logCall tick ticks]. by rewrite lookup_insert_eq. }
  assert (accountId ∈ smembersOf (indexKey accountType) w1) as Hin1 by exact Hin.
  assert (inconsistent (accounts w1 !! (svc, accountId))) as Hi.
  { apply consistent_inconsistent. rewrite Ha. apply consistent_recovered. }
  destruct (recovered_fields (default ∅ (accounts w !! (svc, accountId)))
              (isoAt E (2 + ticks w)) (isoAt E (3 + ticks w))) as (F1 & _ & _ & F4 & _).
  split; [reflexivity|].
  split; [unfold fieldOf; rewrite Ha; exact F4|].
  split; [unfold fieldOf; rewrite Ha; exact F1|].
  split; [exact Hin1|].
  rewrite runRecoveryCheck_run. cbv zeta.
  assert (accountType ∈ accountTypes) as Hty by (apply serviceByType_recognized; eauto).
  pose proof (checkTypes_untouched E' svc accountType accountId accountTypes (mkSums 0 0 0 0)
                (tick w1) Hs Hi) as Hu.
  destruct (checkTypes_cleans E' svc accountType accountId accountTypes (mkSums 0 0 0 0)
              (tick w1) Hd' Hs Hi Hty Hin1) as (t' & w' & Hr & Hc & Hout & _).
  rewrite Hr in Hu |- *. cbn [fst snd] in Hu |- *.
  split; [exact Hout|]. split.
  - destruct Hu as (_ & Hacc & _). exact Hacc.
  - eexists. split; [reflexivity|]. simpl in Hc |- *. lia.
Qed.
End FailedRemoval.

Section LifecycleExtras.
Import AutoRecoveryService.

Lemma orElse_nonzero x d : d <> 0%Z -> orElse x d <> 0%Z.
Proof.
  intros Hd. unfold orElse. destruct x as [n|]; [|done].
  by destruct (Z.eqb_spec n 0).
Qed.

(** X13.  The constructor never yields a zero interval or a zero
    timeout: a configured [intervalMinutes] of 0 gives the default of 60
    minutes and a configured [testTimeoutSeconds] of 0 the default of 30,
    while every other configured number of minutes is multiplied by
    60000. *)
Theorem testInterval_is_never_zero config :
  testInterval (new_AutoRecoveryService config) <> 0%Z
  /\ testTimeout (new_AutoRecoveryService config) <> 0%Z
  /\ (optional config intervalMinutes = Some 0%Z ->
      testInterval (new_AutoRecoveryService config) = 3600000%Z)
  /\ (optional config testTimeoutSeconds = Some 0%Z ->
      testTimeout (new_AutoRecoveryService config) = 30%Z)
  /\ forall minutes,
       optional config intervalMinutes = Some minutes ->
       minutes <> 0%Z ->
       testInterval (new_AutoRecoveryService config) = (minutes * 60000)%Z.
Proof.
  unfold new_AutoRecoveryService. cbn [testInterval testTimeout].
  split_and!.
  - pose proof (orElse_nonzero (optional config intervalMinutes) 60). lia.
  - by apply orElse_nonzero.
  - by intros ->.
  - by intros ->.
  - intros minutes -> Hm. unfold orElse. destruct (Z.eqb_spec minutes 0); lia.
Qed.

Lemma filter_old_handles (l : list Timer) id :
  Forall (fun t => handle t < id) l -> filter (fun t => handle t ≠ id) l = l.
Proof.
  induction 1 as [|t l Ht _ IH]; [done|].
  rewrite filter_cons_True by lia. by rewrite IH.
Qed.

Lemma step_wellArmed config others sh op :
  wellArmed others sh ->
  wellArmed others (step config sh op)
  /\ testInterval (step config sh op).1 = testInterval sh.1
  /\ length (launched sh.2) <= length (launched (step config sh op).2).
Proof.
  destruct sh as [s h]. intros Hw. pose proof Hw as (Hfresh & Hrun & Htimers & Hold).
  cbn [fst snd] in *.
  destruct op; cbn [step fst snd].
  - unfold start. destruct (isRunning s) eqn:Hr; [by split|].
    destruct (bool_decide _); [by split|].
    assert (intervalHandle s = None) as Hnone.
    { destruct (intervalHandle s) eqn:Hh; [|done].
      assert (false = true) as Hbad by (apply Hrun; eauto). discriminate Hbad. }
    unfold armed in Htimers. rewrite Hnone, app_nil_r in Htimers.
    unfold wellArmed, armed.
    cbn [setInterval launch fst snd timers nextHandle launched isRunning intervalHandle
         testInterval testTimeout].
    split; [split_and!|split; [done|]].
    + apply Forall_app. split.
      * eapply Forall_impl; [exact Hfresh|]. simpl. lia.
      * apply Forall_singleton. simpl. lia.
    + split; [eauto|done].
    + by rewrite Htimers.
    + intros id [= <-]. by rewrite <- Htimers.
    + rewrite length_app. lia.
  - unfold stop. destruct (intervalHandle s) as [id|] eqn:Hh.
    + clear Hw. unfold wellArmed, armed in *. rewrite Hh in Htimers.
      cbn [clearInterval fst snd timers nextHandle launched isRunning intervalHandle
           testInterval testTimeout].
      split; [split_and!|done].
      * rewrite Htimers, filter_app, (filter_old_handles _ _ (Hold id eq_refl)).
        rewrite filter_cons_False by (simpl; intros Hn; by apply Hn).
        rewrite filter_nil, app_nil_r. rewrite Htimers in Hfresh.
        by apply Forall_app in Hfresh as [? _].
      * split; [done|]. by intros [? [=]].
      * rewrite Htimers, filter_app, (filter_old_handles _ _ (Hold id eq_refl)).
        by rewrite filter_cons_False by (simpl; intros Hn; by apply Hn).
      * by intros ? [=].
    + clear Hw. unfold wellArmed, armed in *. rewrite Hh in Htimers |- *.
      cbn [fst snd timers nextHandle launched isRunning intervalHandle testInterval].
      split; [|done]. split; [done|]. split; [|done].
      split; [done|]. by intros [? [=]].
  - destruct (intervalHandle s) as [id|] eqn:Hh; cbn [fst snd].
    + assert (timers (fire id h) = timers h
              /\ nextHandle (fire id h) = nextHandle h
              /\ length (launched h) <= length (launched (fire id h))) as (Ht & Hn & Hl).
      { unfold fire. destruct (filter _ _); cbn; [done|]. rewrite length_app. split_and!; [done..|lia]. }
      split; [|split; [done|exact Hl]].
      unfold wellArmed in *. cbn [fst snd] in *. rewrite Ht, Hn. exact Hw.
    + by split.
Qed.

Lemma steps_wellArmed config others ops sh :
  wellArmed others sh ->
  wellArmed others (foldl (step config) sh ops)
  /\ testInterval (foldl (step config) sh ops).1 = testInterval sh.1.
Proof.
  revert sh. induction ops as [|op ops IH]; intros sh Hw; [done|].
  cbn [foldl]. destruct (step_wellArmed config others sh op Hw) as (Hw1 & Ht1 & _).
  destruct (IH _ Hw1) as [Hw' Ht']. split; [done|congruence].
Qed.

(** X14.  Whatever sequence of [start], [stop] and firings of its timer
    the instance goes through, the host holds, besides the timers of the
    rest of the process, at most one timer of the instance: the one whose
    handle the instance holds, set to the configured interval.  The instance
    holds a handle exactly when [isRunning] is true, and that handle is none
    of the others. *)
Theorem instance_holds_at_most_one_timer config others n ops :
  Forall (fun t => handle t < n) others ->
  let sh := foldl (step config) (new_AutoRecoveryService config, mkHost others n []) ops in
  timers sh.2
  = others ++ match intervalHandle sh.1 with
              | Some id =>
                  [mkTimer id (testInterval (new_AutoRecoveryService config)) ScheduledCheck]
              | None => []
              end
  /\ (isRunning sh.1 = true <-> is_Some (intervalHandle sh.1))
  /\ (forall id, intervalHandle sh.1 = Some id -> Forall (fun t => handle t <> id) others).
Proof.
  intros Hfresh sh.
  assert (wellArmed others (new_AutoRecoveryService config, mkHost others n [])) as Hw0.
  { unfold wellArmed, armed. cbn. split_and!; [done| |by rewrite app_nil_r|by intros ? [=]].
    split; [done|]. by intros [? [=]]. }
  destruct (steps_wellArmed config others ops _ Hw0) as [(_ & Hrun & Htimers & Hold) Hint].
  fold sh in Hrun, Htimers, Hold, Hint. cbn [fst] in Hint.
  split; [|split; [exact Hrun|]].
  - rewrite Htimers. unfold armed. by rewrite Hint.
  - intros id Hid. eapply Forall_impl; [exact (Hold id Hid)|]. simpl. lia.
Qed.
End LifecycleExtras.

Section ExtraWitnesses.
Import AccountAutoDisableService AutoRecoveryService.

Lemma calmEnv_dependable : dependable calmEnv.
Proof. intros n. reflexivity. Qed.

Lemma quarantine_then_manual_recovery_witness :
  let w1 := (handleErrorResponse calmEnv "X" "claude-console" 404 "not found"
               "https://relay.example/v1/messages" "request" worldX).2 in
  let run := recoverAccountFromTest calmEnv "X" "claude-console" w1 in
  dependable calmEnv
  /\ (400 <= 404 <= 599)%Z
  /\ run.1 = Returned (mkTestRecovery true "test_success" None)
  /\ ("X" ∉ smembersOf (indexKey "claude-console") run.2)
  /\ fieldOf run.2 claudeConsoleAccountService "X" "schedulable" = Some (JBool true)
  /\ fieldOf run.2 claudeConsoleAccountService "X" "autoDisabledAt" = None
  /\ fieldOf run.2 claudeConsoleAccountService "X" "name"
     = fieldOf worldX claudeConsoleAccountService "X" "name".
Proof.
  assert (400 <= 404 <= 599)%Z as Hr by lia.
  destruct (quarantine_then_manual_recovery calmEnv "X" "claude-console"
              claudeConsoleAccountService 404 "not found"
              "https://relay.example/v1/messages" "request" worldX
              calmEnv_dependable Hr eq_refl)
    as (H1 & H2 & _ & _ & H5 & H6 & _ & _ & H9).
  split; [exact calmEnv_dependable|]. split; [exact Hr|].
  split; [exact H1|]. split; [exact H2|]. split; [exact H5|]. split; [exact H6|].
  apply H9. rewrite !elem_of_cons, elem_of_nil.
  intros [H|[H|[H|[H|[H|[H|[]]]]]]]; discriminate H.
Defined.

Lemma checkAccountType_without_probe_witness :
  let w := (handleErrorResponse calmEnv "G" "gemini" 500 "upstream failure"
              "https://relay.example/v1/models" "request" emptyWorld).2 in
  let run := checkAccountType calmEnv "gemini" w in
  "gemini" <> "claude-console"
  /\ "gemini" <> "bedrock"
  /\ (forall r, run.1 = Returned r -> recovered r = 0)
  /\ (forall svc accountId f,
        f <> "lastAutoRecoveryAttempt" ->
        fieldOf run.2 svc accountId f = fieldOf w svc accountId f)
  /\ (forall accountId c w0,
        exists c', (checkAccount calmEnv "gemini" accountId c w0).1 = Returned c'
                   /\ nRecovered c' = nRecovered c).
Proof.
  assert ("gemini" <> "claude-console") as Hc by discriminate.
  assert ("gemini" <> "bedrock") as Hb by discriminate.
  split; [exact Hc|]. split; [exact Hb|].
  exact (checkAccountType_without_probe calmEnv "gemini" _ Hc Hb).
Defined.

Lemma runRecoveryCheck_leaves_consistent_index_witness :
  dependable calmEnv
  /\ "claude-console" ∈ accountTypes
  /\ forall accountId,
       accountId ∈ smembersOf (indexKey "claude-console") (runRecoveryCheck calmEnv strayY).2 ->
       accountId ∈ smembersOf (indexKey "claude-console") strayY
       /\ consistentOf (runRecoveryCheck calmEnv strayY).2 "claude-console" accountId = true.
Proof.
  assert ("claude-console" ∈ accountTypes) as Hty
    by (apply (bool_decide_unpack _); vm_compute; exact I).
  split; [exact calmEnv_dependable|]. split; [exact Hty|].
  intros accountId.
  exact (runRecoveryCheck_leaves_consistent_index calmEnv strayY calmEnv_dependable
           "claude-console" accountId Hty).
Defined.

Lemma runRecoveryCheck_ignores_non_members_witness :
  let w := (handleErrorResponse (faultyEnv 3 "Redis unavailable") "X" "claude-console" 404
              "not found" "https://relay.example/v1/messages" "request" worldX).2 in
  let w' := (runRecoveryCheck calmEnv w).2 in
  fieldOf w claudeConsoleAccountService "X" "schedulable" = Some (JBool false)
  /\ accounts w' !! (claudeConsoleAccountService, "X")
     = accounts w !! (claudeConsoleAccountService, "X")
  /\ ("X" ∉ smembersOf (indexKey "claude-console") w')
  /\ Forall (noUpdateOf claudeConsoleAccountService "X") (added w w').
Proof.
  intros w w'. split; [vm_compute; reflexivity|].
  assert ("X" ∉ smembersOf (indexKey "claude-console") w) as Hout
    by (apply (bool_decide_unpack _); vm_compute; exact I).
  exact (runRecoveryCheck_ignores_non_members calmEnv claudeConsoleAccountService
           "claude-console" "X" w eq_refl Hout).
Defined.

Lemma failed_index_removal_is_repaired_witness :
  let run := recoverAccountFromTest (faultyEnv 10 "Redis unavailable") "X" "claude-console"
               quarantinedX in
  let cycle := runRecoveryCheck calmEnv run.2 in
  "X" ∈ smembersOf (indexKey "claude-console") quarantinedX
  /\ run.1 = Returned (mkTestRecovery false "error" (Some "Redis unavailable"))
  /\ fieldOf run.2 claudeConsoleAccountService "X" "schedulable" = Some (JBool true)
  /\ fieldOf run.2 claudeConsoleAccountService "X" "autoDisabledAt" = None
  /\ "X" ∈ smembersOf (indexKey "claude-console") run.2
  /\ ("X" ∉ smembersOf (indexKey "claude-console") cycle.2)
  /\ accounts cycle.2 !! (claudeConsoleAccountService, "X")
     = accounts run.2 !! (claudeConsoleAccountService, "X")
  /\ exists totals, cycle.1 = Returned totals /\ 1 <= totalCleaned totals.
Proof.
  assert ("X" ∈ smembersOf (indexKey "claude-console") quarantinedX) as Hin
    by (apply (bool_decide_unpack _); vm_compute; exact I).
  assert (ticks quarantinedX = 4) as Ht by (vm_compute; reflexivity).
  assert (forall n, n < 6 ->
            fault (faultyEnv 10 "Redis unavailable") (n + ticks quarantinedX) = None) as Hok.
  { intros n Hn. rewrite Ht. unfold faultyEnv. cbn [fault].
    destruct (Nat.eqb_spec (n + 4) 10); [lia|reflexivity]. }
  assert (fault (faultyEnv 10 "Redis unavailable") (6 + ticks quarantinedX)
          = Some "Redis unavailable") as Hfail by (rewrite Ht; reflexivity).
  split; [exact Hin|].
  exact (failed_index_removal_is_repaired (faultyEnv 10 "Redis unavailable") calmEnv
           claudeConsoleAccountService "X" "claude-console" "Redis unavailable" quarantinedX
           eq_refl Hin Hok Hfail calmEnv_dependable).
Defined.

Lemma instance_holds_at_most_one_timer_witness :
  let config := mkConfig None in
  let others := [mkTimer 0 1000 ScheduledCheck] in
  let sh := foldl (step config) (new_AutoRecoveryService config, mkHost others 1 [])
              [OpStart; OpStart; OpFire; OpStop; OpStop; OpStart] in
  Forall (fun t => handle t < 1) others
  /\ timers sh.2 = others ++ [mkTimer 2 3600000 ScheduledCheck]
  /\ intervalHandle sh.1 = Some 2
  /\ (isRunning sh.1 = true <-> is_Some (intervalHandle sh.1)).
Proof.
  intros config others sh.
  assert (Forall (fun t => handle t < 1) others) as Hfresh
    by (apply Forall_singleton; simpl; lia).
  destruct (instance_holds_at_most_one_timer config others 1
              [OpStart; OpStart; OpFire; OpStop; OpStop; OpStart] Hfresh)
    as (Htimers & Hrun & _).
  split; [exact Hfresh|].
  assert (intervalHandle sh.1 = Some 2) as Hid by reflexivity.
  split; [|split; [exact Hid|exact Hrun]].
  fold sh in Htimers. rewrite Htimers, Hid. reflexivity.
Defined.
End ExtraWitnesses.

(** ** Splitting text into lines *)

Section Split.
Import TestPayloadHelper.

Lemma split_nonempty c s : split c s <> [].
Proof.
  destruct s as [|a s]; simpl; [done|].
  destruct (Ascii.eqb a c); [done|]. by destruct (split c s).
Qed.

Lemma removelast_cons_ne {A} (x : A) l : l <> [] -> removelast (x :: l) = x :: removelast l.
Proof. by destruct l. Qed.

Lemma last_cons_ne {A} (x : A) l d : l <> [] -> List.last (x :: l) d = List.last l d.
Proof. by destruct l. Qed.

Lemma split_app c s t :
  split c (s ++ t)
  = removelast (split c s) ++ split c (List.last (split c s) EmptyString ++ t).
Proof.
  induction s as [|a s IH]; [done|].
  change (String a s +:+ t) with (String a (s +:+ t)).
  cbn [split]. destruct (Ascii.eqb a c) eqn:Hac.
  - rewrite IH. rewrite removelast_cons_ne, last_cons_ne by apply split_nonempty. done.
  - rewrite IH. destruct (split c s) as [|f o] eqn:Hs; [by apply split_nonempty in Hs|].
    destruct o as [|g o].
    + cbn [removelast List.last app].
      change (String a f +:+ t) with (String a (f +:+ t)). cbn [split]. by rewrite Hac.
    + rewrite (removelast_cons_ne f (g :: o)) by done.
      rewrite (last_cons_ne f (g :: o)) by done.
      rewrite (removelast_cons_ne (String a f) (g :: o)) by done.
      rewrite (last_cons_ne (String a f) (g :: o)) by done. done.
Qed.

Lemma removelast_app_ne {A} (l1 l2 : list A) :
  l2 <> [] -> removelast (l1 ++ l2) = l1 ++ removelast l2.
Proof. intros H. by apply removelast_app. Qed.

Lemma last_app_ne {A} (l1 l2 : list A) d :
  l2 <> [] -> List.last (l1 ++ l2) d = List.last l2 d.
Proof.
  intros H. induction l1 as [|x l1 IH]; [done|].
  cbn [app]. rewrite last_cons_ne; [done|]. by destruct l1, l2.
Qed.

Lemma split_app_lines c s t :
  removelast (split c (s ++ t))
  = removelast (split c s)
    ++ removelast (split c (List.last (split c s) EmptyString ++ t)).
Proof. rewrite split_app. apply removelast_app_ne, split_nonempty. Qed.

Lemma split_app_rest c s t :
  List.last (split c (s ++ t)) EmptyString
  = List.last (split c (List.last (split c s) EmptyString ++ t)) EmptyString.
Proof. rewrite split_app. apply last_app_ne, split_nonempty. Qed.

Lemma split_absent c s : occurs c s = false -> split c s = [s].
Proof.
  induction s as [|a s IH]; [done|].
  cbn [occurs split]. intros H. apply orb_false_iff in H as [Hac Hs].
  by rewrite Hac, IH.
Qed.
End Split.

(** ** What a test writes *)

Section Reported.
Import TestPayloadHelper.
Variable R : Runtime.

Lemma reported_refl s : reported R s s.
Proof.
  exists [], []. rewrite !app_nil_r. split_and!; [done|done|by left| |done].
  split; [by left|]. by intros [?|?].
Qed.

Lemma reported_same s0 s s' :
  written s' = written s -> writableEnded s' = writableEnded s ->
  reported R s0 s -> reported R s0 s'.
Proof.
  intros Hw He (progress & final & H1 & H2 & H3 & H4 & H5).
  exists progress, final. rewrite Hw, He. done.
Qed.

Lemma reported_sendSSE type data s0 s :
  type ∈ ["test_start"; "content"; "message_stop"; "error"] ->
  reported R s0 s -> reported R s0 (sendSSE R type data s).
Proof.
  intros Hty Hr. unfold sendSSE, writable.
  destruct (destroyed s) eqn:Hd; [exact Hr|].
  destruct (writableEnded s) eqn:He; [exact Hr|]. cbn [negb andb].
  unfold write. destruct (writeThrows R (writeCalls s)).
  { by apply (reported_same s0 s). }
  cbn [snd]. destruct Hr as (progress & final & H1 & H2 & H3 & H4 & H5).
  assert (writableEnded s0 = false /\ final = []) as [He0 ->].
  { destruct (writableEnded s0) eqn:He0.
    - assert (false = true) as Hbad by (rewrite <- He; apply H4; by left). discriminate Hbad.
    - split; [done|]. destruct final; [done|].
      assert (false = true) as Hbad by (rewrite <- He; apply H4; by right). discriminate Hbad. }
  exists (progress ++ [frame R (VObject (("type", VString type) :: data))]), [].
  cbn [written writableEnded]. rewrite H1, !app_nil_r, <- app_assoc.
  split_and!; [done| |by left| |by rewrite He0].
  - apply Forall_app. split; [done|]. apply Forall_singleton. by exists type, data.
  - rewrite He, He0. split; [done|]. by intros [?|?].
Qed.

Lemma reported_endTest success error s0 s :
  reported R s0 s -> reported R s0 (endTest R success error s).
Proof.
  intros Hr. unfold endTest, writable.
  destruct (destroyed s) eqn:Hd; [exact Hr|].
  destruct (writableEnded s) eqn:He; [exact Hr|]. cbn [negb andb].
  unfold write. destruct (writeThrows R (writeCalls s)).
  { by apply (reported_same s0 s). }
  destruct Hr as (progress & final & H1 & H2 & H3 & H4 & H5).
  assert (writableEnded s0 = false /\ final = []) as [He0 ->].
  { destruct (writableEnded s0) eqn:He0.
    - assert (false = true) as Hbad by (rewrite <- He; apply H4; by left). discriminate Hbad.
    - split; [done|]. destruct final; [done|].
      assert (false = true) as Hbad by (rewrite <- He; apply H4; by right). discriminate Hbad. }
  exists progress, [frame R (completion success error)].
  cbn [end_ written writableEnded]. rewrite H1, !app_nil_r.
  split_and!; [by rewrite <- app_assoc|done|right; by eexists _, _| |by rewrite He0].
  split; [by right|done].
Qed.

Lemma reported_destroy s0 s : reported R s0 s -> reported R s0 (destroy s).
Proof. by apply reported_same. Qed.

Lemma reported_writeHead status headers s0 s :
  reported R s0 s -> reported R s0 (writeHead status headers s).
Proof. by apply reported_same. Qed.

Lemma reported_onLine line s0 s : reported R s0 s -> reported R s0 (onLine R s line).
Proof.
  intros Hr. unfold onLine.
  destruct (negb (startsWith "data:" line)); [done|].
  destruct (_ || _); [done|].
  destruct (JSON_parse R _) as [data|]; [|done].
  destruct (nullish data); [done|].
  assert (forall type, type ∈ ["content"; "message_stop"; "error"] ->
            type ∈ ["test_start"; "content"; "message_stop"; "error"]) as Hsub
    by (intros type H; by right).
  repeat match goal with
         | |- context [if ?b then _ else _] => destruct b
         end;
  repeat (apply reported_sendSSE;
          [apply Hsub; first [by left | by right; left | by right; right; left]|]);
  exact Hr.
Qed.

Lemma reported_lines lines s0 s :
  reported R s0 s -> reported R s0 (foldl (onLine R) s lines).
Proof.
  revert s. induction lines as [|line lines IH]; intros s Hr; [done|].
  cbn [foldl]. by apply IH, reported_onLine.
Qed.

Lemma reported_happen o status s0 r h :
  reported R s0 (responseStream r) ->
  reported R s0 (responseStream (happen R o status r h)).
Proof.
  intros Hr. destruct h; cbn [happen].
  - destruct (status =? 200)%Z; cbn [onData onErrorData responseStream]; [|done].
    by apply reported_lines.
  - destruct (status =? 200)%Z; cbn [onEnd onErrorEnd responseStream].
    + destruct (writable _); [by apply reported_endTest|done].
    + by apply reported_endTest.
  - cbn [onBodyError responseStream]. by apply reported_endTest.
  - cbn [onClientGone responseStream]. by apply reported_destroy.
Qed.

Lemma reported_happenings o status s0 body r :
  reported R s0 (responseStream r) ->
  reported R s0 (responseStream (foldl (happen R o status) r body)).
Proof.
  revert r. induction body as [|h body IH]; intros r Hr; [done|].
  cbn [foldl]. by apply IH, reported_happen.
Qed.
End Reported.

Section Runs.
Import TestPayloadHelper.
Variable R : Runtime.

Lemma payloadSent_returns o : exists p, payloadSent R o = Returned p
  /\ (payload o <> VUndefined -> p = payload o).
Proof.
  unfold payloadSent. destruct (payload o); eexists; (split; [reflexivity|done]).
Qed.

(** [sendStreamTestRequest], step by step. *)
Lemma sendStreamTestRequest_run o s :
  exists p,
    payloadSent R o = Returned p
    /\ sendStreamTestRequest R o s
       = Returned
           (match axios R (requestConfig o p) with
            | Rejected message clientGone =>
                mkRun (endTest R false (VString message)
                         (if clientGone then destroy (started R s) else started R s))
                  (Some (requestConfig o p)) [] true [] EmptyString
            | Response status body =>
                foldl (happen R o status)
                  (mkRun (started R s) (Some (requestConfig o p)) [] false [] EmptyString)
                  body
            end).
Proof.
  destruct (payloadSent_returns o) as (p & Hp & _). exists p. split; [exact Hp|].
  unfold sendStreamTestRequest. fold (payloadSent R o). rewrite Hp.
  fold (started R s). by destruct (axios R (requestConfig o p)).
Qed.

Lemma happen_request o status r h : request (happen R o status r h) = request r.
Proof. destruct h; cbn [happen]; try done; by destruct (status =? 200)%Z. Qed.

Lemma happenings_request o status r body :
  request (foldl (happen R o status) r body) = request r.
Proof.
  revert r. induction body as [|h body IH]; intros r; [done|].
  cbn [foldl]. by rewrite IH, happen_request.
Qed.

Lemma happen_resolved o status r h :
  resolved (happen R o status r h) = resolved r || isEnd h || isBodyError h.
Proof.
  destruct h; cbn [happen isEnd isBodyError]; rewrite ?orb_false_r, ?orb_true_r; try done;
    by destruct (status =? 200)%Z.
Qed.

Lemma happenings_resolved o status r body :
  resolved (foldl (happen R o status) r body) = true
  <-> resolved r = true \/ End ∈ body \/ exists message, Error message ∈ body.
Proof.
  revert r. induction body as [|h body IH]; intros r.
  - cbn [foldl]. split; [by left|]. intros [?|[H|[m H]]]; [done|..]; by apply elem_of_nil in H.
  - cbn [foldl]. rewrite IH, happen_resolved, !orb_true_iff. split.
    + intros [[[Hr|He]|Hb]|[Hin|[m Hin]]].
      * by left.
      * right; left. destruct h; try discriminate He. by left.
      * right; right. destruct h; try discriminate Hb. eexists. by left.
      * right; left. by right.
      * right; right. exists m. by right.
    + intros [Hr|[Hin|[m Hin]]].
      * by left; left; left.
      * apply elem_of_cons in Hin as [<-|Hin]; [by left; left; right|by right; left].
      * apply elem_of_cons in Hin as [<-|Hin]; [by left; right|]. right; right. by exists m.
Qed.
End Runs.

Section RunTheorems.
Import TestPayloadHelper.

(** X15.  Called with an options object that carries a response stream,
    [sendStreamTestRequest] never rejects.  It always makes the request, to
    [apiUrl] and with the payload given (if one is given), and its promise
    resolves exactly when axios rejects or the body stream of the response
    emits [end] or [error]; on a body that does neither it stays pending. *)
Theorem sendStreamTestRequest_settles R o s :
  exists run config,
    sendStreamTestRequest R o s = Returned run
    /\ request run = Some config
    /\ url config = apiUrl o
    /\ (payload o <> VUndefined -> data config = payload o)
    /\ (resolved run = true
        <-> match axios R config with
            | Rejected _ _ => True
            | Response _ body => End ∈ body \/ exists message, Error message ∈ body
            end).
Proof.
  destruct (sendStreamTestRequest_run R o s) as (p & Hp & ->).
  destruct (payloadSent_returns R o) as (p' & Hp' & Hgiven).
  rewrite Hp in Hp'. injection Hp' as <-.
  eexists _, (requestConfig o p). split; [reflexivity|].
  destruct (axios R (requestConfig o p)) as [message gone|status body].
  - cbn [request resolved]. split_and!; done.
  - rewrite happenings_request, happenings_resolved. cbn [request resolved].
    split_and!; [done|done|done|]. split; [intros [?|?]; done|by right].
Qed.

(** X16.  What a test writes to the response stream is a sequence of
    progress frames ([test_start], [content], [message_stop], [error])
    followed by at most one [test_complete] frame; that frame is the last
    thing written and is written exactly when the test ends the stream, and
    nothing is written to a stream that had already ended. *)
Theorem sendStreamTestRequest_reports_once R o s run :
  sendStreamTestRequest R o s = Returned run ->
  reported R s (responseStream run).
Proof.
  destruct (sendStreamTestRequest_run R o s) as (p & _ & ->). intros [= <-].
  assert (reported R s (started R s)) as Hs.
  { unfold started. apply reported_sendSSE; [by left|].
    destruct (headersSent s); [apply reported_refl|].
    apply reported_writeHead, reported_refl. }
  destruct (axios R (requestConfig o p)) as [message gone|status body].
  - cbn [responseStream]. apply reported_endTest.
    destruct gone; [by apply reported_destroy|done].
  - by apply reported_happenings.
Qed.
End RunTheorems.

Section ErrorMessage.
Import TestPayloadHelper.

Lemma or_truthy a b : toBoolean b = true -> toBoolean (or a b) = true.
Proof. intros Hb. unfold or. by destruct (toBoolean a) eqn:Ha. Qed.

Lemma or_first a b : toBoolean a = true -> or a b = a.
Proof. intros Ha. unfold or. by rewrite Ha. Qed.

Lemma or_second a b : toBoolean a = false -> or a b = b.
Proof. intros Ha. unfold or. by rewrite Ha. Qed.

Lemma apiError_truthy (status : Z) : toBoolean (VString ("API Error: " ++ pretty status)) = true.
Proof. reflexivity. Qed.

Lemma errorMessageOf_truthy R status errorData :
  toBoolean (errorMessageOf R status errorData) = true.
Proof.
  unfold errorMessageOf.
  assert (toBoolean (if Nat.ltb (String.length errorData) 200
                     then or (VString errorData) (VString ("API Error: " ++ pretty status))
                     else VString ("API Error: " ++ pretty status)) = true) as Hc.
  { destruct (Nat.ltb _ 200); [by apply or_truthy|done]. }
  destruct (JSON_parse R errorData) as [json|]; [|exact Hc].
  destruct (nullish json); [exact Hc|]. by apply or_truthy.
Qed.

(** X19.  The error message extracted from the body of a failed test is
    always truthy.  For a body that parses it is [json.message], else
    [json.error.message], else [json.error], else [API Error: <status>]; for
    a body that does not parse (or parses to [null]) it is the body itself
    when that is not empty and shorter than 200 characters, and
    [API Error: <status>] otherwise. *)
Theorem errorMessageOf_is_never_empty R status errorData :
  toBoolean (errorMessageOf R status errorData) = true
  /\ (forall json,
        JSON_parse R errorData = Some json ->
        (toBoolean (get json "message") = true ->
         errorMessageOf R status errorData = get json "message")
        /\ (toBoolean (get json "message") = false ->
            toBoolean (optGet (get json "error") "message") = true ->
            errorMessageOf R status errorData = optGet (get json "error") "message")
        /\ (nullish json = false ->
            toBoolean (get json "message") = false ->
            toBoolean (optGet (get json "error") "message") = false ->
            errorMessageOf R status errorData
            = or (get json "error") (VString ("API Error: " ++ pretty status))))
  /\ (JSON_parse R errorData = None \/ JSON_parse R errorData = Some VNull ->
      errorMessageOf R status errorData
      = if Nat.ltb (String.length errorData) 200 && negb (String.eqb errorData EmptyString)
        then VString errorData
        else VString ("API Error: " ++ pretty status)).
Proof.
  split; [apply errorMessageOf_truthy|]. split.
  - intros json Hj. unfold errorMessageOf. rewrite Hj.
    destruct (nullish json) eqn:Hn.
    { assert (get json "message" = VUndefined /\ get json "error" = VUndefined) as [-> ->]
        by (by destruct json).
      cbn. split_and!; done. }
    split_and!.
    + intros Hm. by rewrite (or_first (get json "message")), !or_first by
        (rewrite ?or_first; done).
    + intros Hm He. rewrite (or_second (get json "message")) by done.
      by rewrite !or_first by (rewrite ?or_first; done).
    + intros _ Hm He. by rewrite (or_second (get json "message")), (or_second _ (get json "error")) by done.
  - intros Hj. unfold errorMessageOf.
    assert ((if Nat.ltb (String.length errorData) 200
             then or (VString errorData) (VString ("API Error: " ++ pretty status))
             else VString ("API Error: " ++ pretty status))
            = if Nat.ltb (String.length errorData) 200
                 && negb (String.eqb errorData EmptyString)
              then VString errorData
              else VString ("API Error: " ++ pretty status)) as Hc.
    { destruct (Nat.ltb _ 200); [|done]. unfold or. cbn [toBoolean andb].
      by destruct (negb _). }
    destruct Hj as [-> | ->]; exact Hc.
Qed.
End ErrorMessage.

Section Launches.
Import TestPayloadHelper.
Variable R : Runtime.

(** How many calls a happening launches. *)
Lemma happen_launches o status r h :
  exists launched,
    launches (happen R o status r h) = launches r ++ launched
    /\ Forall (launchOf o status) launched
    /\ length launched
       = if isEnd h
            && bool_decide (is_Some (accountGiven o))
            && ((status =? 200)%Z || ((400 <=? status)%Z && (status <? 600)%Z))
         then 1 else 0.
Proof.
  destruct h; cbn [happen isEnd andb].
  - exists []. rewrite app_nil_r. split; [by destruct (status =? 200)%Z|done].
  - destruct (Z.eqb_spec status 200) as [->|Hne]; cbn [onEnd onErrorEnd launches orb].
    + destruct (accountGiven o) as [[id type]|] eqn:Hg.
      * eexists. split; [reflexivity|]. split; [|done].
        apply Forall_singleton. by split.
      * exists []. done.
    + destruct (400 <=? status)%Z eqn:Hlo, (status <? 600)%Z eqn:Hhi; cbn [andb].
      2-4: exists []; split; [done|]; split; [done|]; by rewrite andb_false_r.
      destruct (accountGiven o) as [[id type]|] eqn:Hg.
      * eexists. split; [reflexivity|]. split; [|done].
        apply Forall_singleton. cbn. split_and!; try done; try lia.
        apply errorMessageOf_truthy.
      * exists []. done.
  - exists []. by rewrite app_nil_r.
  - exists []. by rewrite app_nil_r.
Qed.

Lemma happenings_launches o status r body :
  exists launched,
    launches (foldl (happen R o status) r body) = launches r ++ launched
    /\ Forall (launchOf o status) launched
    /\ length launched
       = if bool_decide (is_Some (accountGiven o))
            && ((status =? 200)%Z || ((400 <=? status)%Z && (status <? 600)%Z))
         then length (filter (fun h => isEnd h = true) body) else 0.
Proof.
  revert r. induction body as [|h body IH]; intros r.
  - exists []. rewrite app_nil_r. split; [done|]. split; [done|]. by destruct (_ && _).
  - cbn [foldl]. destruct (happen_launches o status r h) as (l1 & H1 & F1 & L1).
    destruct (IH (happen R o status r h)) as (l2 & H2 & F2 & L2).
    exists (l1 ++ l2). rewrite H2, H1, app_assoc. split; [done|].
    split; [by apply Forall_app|]. rewrite length_app, L1, L2.
    destruct (isEnd h) eqn:He.
    + rewrite filter_cons_True by done. cbn [andb length]. by destruct (_ && _).
    + rewrite filter_cons_False by (by rewrite He). done.
Qed.
End Launches.

Section LaunchTheorem.
Import TestPayloadHelper.

(** X17.  The test calls the account-health services only when both
    [accountId] and [accountType] are given and not empty:
    [handleErrorResponse] only for a response status in 400..599, with that
    status, a truthy message, the URL of the test and the trigger [test];
    [recoverAccountFromTest] only for status 200.  It makes one such call
    per [end] event of the body and none when the request itself fails. *)
Theorem sendStreamTestRequest_launch_conditions R o s run :
  sendStreamTestRequest R o s = Returned run ->
  exists config,
    request run = Some config
    /\ match axios R config with
       | Rejected _ _ => launches run = []
       | Response status body =>
           Forall (launchOf o status) (launches run)
           /\ length (launches run)
              = (if bool_decide (is_Some (accountGiven o))
                    && ((status =? 200)%Z || ((400 <=? status)%Z && (status <? 600)%Z))
                 then length (filter (fun h => isEnd h = true) body) else 0)
       end.
Proof.
  destruct (sendStreamTestRequest_run R o s) as (p & _ & ->). intros [= <-].
  exists (requestConfig o p).
  destruct (axios R (requestConfig o p)) as [message gone|status body]; [done|].
  rewrite happenings_request. split; [done|].
  match goal with
  | |- context [foldl (happen R o status) ?r0 body] =>
      destruct (happenings_launches R o status r0 body) as (l & -> & Hf & Hl)
  end.
  done.
Qed.
End LaunchTheorem.

Section Chunks.
Import TestPayloadHelper.
Variable R : Runtime.

Lemma string_app_nil_r (s : string) : (s ++ EmptyString)%string = s.
Proof.
  induction s as [|a s IH]; [done|].
  change (String a s +:+ EmptyString) with (String a (s +:+ EmptyString)). by rewrite IH.
Qed.

Lemma string_app_assoc (s t u : string) : ((s ++ t) ++ u)%string = (s ++ (t ++ u))%string.
Proof.
  induction s as [|a s IH]; [done|].
  change ((String a s +:+ t) +:+ u) with (String a ((s +:+ t) +:+ u)).
  change (String a s +:+ (t +:+ u)) with (String a (s +:+ (t +:+ u))). by rewrite IH.
Qed.

Lemma split_last_absent c s : occurs c (List.last (split c s) EmptyString) = false.
Proof.
  induction s as [|a s IH]; [done|].
  cbn [split]. destruct (Ascii.eqb a c) eqn:Hac.
  - by rewrite last_cons_ne by apply split_nonempty.
  - destruct (split c s) as [|f o] eqn:Hs; [by apply split_nonempty in Hs|].
    destruct o as [|g o].
    + cbn [List.last occurs] in *. by rewrite Hac, IH.
    + by rewrite (last_cons_ne (String a f) (g :: o)), <- (last_cons_ne f (g :: o)) by done.
Qed.

Lemma happen_buffer o status r h :
  occurs LF (buffer r) = false -> occurs LF (buffer (happen R o status r h)) = false.
Proof.
  intros Hb. destruct h; cbn [happen]; try done.
  - destruct (status =? 200)%Z; cbn [onData onErrorData buffer]; [|done].
    apply split_last_absent.
  - by destruct (status =? 200)%Z.
Qed.

Lemma happenings_buffer o status r body :
  occurs LF (buffer r) = false ->
  occurs LF (buffer (foldl (happen R o status) r body)) = false.
Proof.
  revert r. induction body as [|h body IH]; intros r Hb; [done|].
  cbn [foldl]. by apply IH, happen_buffer.
Qed.

(** The data of a 200 body, received in any chunks, is handled as if its
    text had arrived at once. *)
Lemma data_200 o cs r :
  occurs LF (buffer r) = false ->
  foldl (happen R o 200) r (Data <$> cs)
  = mkRun (foldl (onLine R) (responseStream r)
             (removelast (split LF (buffer r ++ textOf R cs))))
      (request r) (launches r) (resolved r) (chunks r)
      (List.last (split LF (buffer r ++ textOf R cs)) EmptyString).
Proof.
  revert r. induction cs as [|c cs IH]; intros r Hb.
  - cbn [fmap list_fmap foldl textOf]. rewrite string_app_nil_r, split_absent by done.
    by destruct r.
  - rewrite fmap_cons. cbn [foldl happen textOf]. change (200 =? 200)%Z with true.
    cbn match. rewrite IH by (cbn [onData buffer]; apply split_last_absent).
    cbn [onData responseStream request launches resolved chunks buffer].
    rewrite <- string_app_assoc.
    rewrite (split_app_lines LF (buffer r ++ Buffer_toString R c) (textOf R cs)).
    rewrite (split_app_rest LF (buffer r ++ Buffer_toString R c) (textOf R cs)).
    by rewrite foldl_app.
Qed.

(** The data of any other body is only collected. *)
Lemma data_error o status cs r :
  status <> 200%Z ->
  foldl (happen R o status) r (Data <$> cs)
  = mkRun (responseStream r) (request r) (launches r) (resolved r)
      (chunks r ++ cs) (buffer r).
Proof.
  intros Hne. revert r. induction cs as [|c cs IH]; intros r.
  - cbn. rewrite app_nil_r. by destruct r.
  - rewrite fmap_cons. cbn [foldl happen].
    destruct (Z.eqb_spec status 200) as [?|_]; [done|].
    rewrite IH. cbn [onErrorData responseStream request launches resolved chunks buffer].
    by rewrite <- app_assoc.
Qed.
End Chunks.

Section ChunkTheorems.
Import TestPayloadHelper.

Lemma sendStreamTestRequest_answering R outcome o s :
  exists p,
    payloadSent R o = Returned p
    /\ sendStreamTestRequest (answering R outcome) o s
       = Returned
           (match outcome with
            | Rejected message clientGone =>
                mkRun (endTest R false (VString message)
                         (if clientGone then destroy (started R s) else started R s))
                  (Some (requestConfig o p)) [] true [] EmptyString
            | Response status body =>
                foldl (happen R o status)
                  (mkRun (started R s) (Some (requestConfig o p)) [] false [] EmptyString)
                  body
            end).
Proof.
  destruct (sendStreamTestRequest_run (answering R outcome) o s) as (p & Hp & ->).
  exists p. split; [exact Hp|]. cbn [axios answering]. reflexivity.
Qed.

(** X18.  For a 200 response the outcome of the test depends only on the
    text the data chunks decode to, not on where the chunk boundaries fall:
    two runs of chunks with the same decoded text give the same result,
    whatever comes before and after them. *)
Theorem sendStreamTestRequest_rechunked R o s before cs1 cs2 after :
  textOf R cs1 = textOf R cs2 ->
  sendStreamTestRequest (answering R (Response 200 (before ++ (Data <$> cs1) ++ after))) o s
  = sendStreamTestRequest (answering R (Response 200 (before ++ (Data <$> cs2) ++ after))) o s.
Proof.
  intros Htext.
  destruct (sendStreamTestRequest_answering R
              (Response 200 (before ++ (Data <$> cs1) ++ after)) o s) as (p1 & Hp1 & ->).
  destruct (sendStreamTestRequest_answering R
              (Response 200 (before ++ (Data <$> cs2) ++ after)) o s) as (p2 & Hp2 & ->).
  rewrite Hp1 in Hp2. injection Hp2 as <-.
  rewrite !foldl_app. f_equal. f_equal.
  rewrite !data_200 by (by apply happenings_buffer). by rewrite Htext.
Qed.
End ChunkTheorems.

Section Healthy.
Import TestPayloadHelper.
Variable R : Runtime.
Hypothesis Hw : forall n, writeThrows R n = false.

Lemma sendSSE_healthy type data s :
  destroyed s = false -> writableEnded s = false ->
  destroyed (sendSSE R type data s) = false
  /\ writableEnded (sendSSE R type data s) = false
  /\ written (sendSSE R type data s)
     = written s ++ [frame R (VObject (("type", VString type) :: data))].
Proof.
  intros Hd He. unfold sendSSE, writable, write. rewrite Hd, He, Hw. done.
Qed.

Lemma endTest_healthy success error s :
  destroyed s = false -> writableEnded s = false ->
  writableEnded (endTest R success error s) = true
  /\ written (endTest R success error s) = written s ++ [frame R (completion success error)].
Proof.
  intros Hd He. unfold endTest, writable, write. rewrite Hd, He, Hw. done.
Qed.

Lemma started_healthy s :
  destroyed s = false -> writableEnded s = false ->
  destroyed (started R s) = false
  /\ writableEnded (started R s) = false
  /\ written (started R s)
     = written s ++ [frame R (VObject [("type", VString "test_start");
                                       ("message", VString "Test started")])].
Proof.
  intros Hd He. unfold started.
  destruct (sendSSE_healthy "test_start" [("message", VString "Test started")]
              (if headersSent s then s else writeHead 200 sseHeaders s))
    as (H1 & H2 & H3); [by destruct (headersSent s)..|].
  split; [done|]. split; [done|]. rewrite H3. by destruct (headersSent s).
Qed.

Lemma onLine_healthy line s :
  destroyed s = false -> writableEnded s = false ->
  destroyed (onLine R s line) = false
  /\ writableEnded (onLine R s line) = false
  /\ exists forwarded,
       written (onLine R s line) = written s ++ forwarded
       /\ Forall (progressFrame R) forwarded.
Proof.
  intros Hd He.
  assert (forall s', s' = s -> destroyed s' = false /\ writableEnded s' = false
            /\ exists forwarded, written s' = written s ++ forwarded
                 /\ Forall (progressFrame R) forwarded) as Hsame.
  { intros s' ->. split; [done|]. split; [done|]. exists []. by rewrite app_nil_r. }
  assert (forall type data s1,
            type ∈ ["content"; "message_stop"; "error"] ->
            (destroyed s1 = false /\ writableEnded s1 = false
             /\ exists forwarded, written s1 = written s ++ forwarded
                  /\ Forall (progressFrame R) forwarded) ->
            destroyed (sendSSE R type data s1) = false
            /\ writableEnded (sendSSE R type data s1) = false
            /\ exists forwarded, written (sendSSE R type data s1) = written s ++ forwarded
                 /\ Forall (progressFrame R) forwarded) as Hsend.
  { intros type data s1 Hty (Hd1 & He1 & fw & Hw1 & Hf1).
    destruct (sendSSE_healthy type data s1 Hd1 He1) as (H1 & H2 & H3).
    split; [done|]. split; [done|]. eexists. rewrite H3, Hw1, <- app_assoc.
    split; [reflexivity|]. apply Forall_app. split; [done|].
    apply Forall_singleton. exists type, data. split; [by right|done]. }
  unfold onLine.
  destruct (negb (startsWith "data:" line)); [by apply Hsame|].
  destruct (_ || _); [by apply Hsame|].
  destruct (JSON_parse R _) as [data|]; [|by apply Hsame].
  destruct (nullish data); [by apply Hsame|].
  repeat match goal with
         | |- context [if ?b then _ else _] => destruct b
         end;
  repeat (apply Hsend; [first [by left | by right; left | by right; right; left]|]);
  by apply Hsame.
Qed.

Lemma lines_healthy lines s :
  destroyed s = false -> writableEnded s = false ->
  destroyed (foldl (onLine R) s lines) = false
  /\ writableEnded (foldl (onLine R) s lines) = false
  /\ exists forwarded,
       written (foldl (onLine R) s lines) = written s ++ forwarded
       /\ Forall (progressFrame R) forwarded.
Proof.
  revert s. induction lines as [|line lines IH]; intros s Hd He.
  - split; [done|]. split; [done|]. exists []. by rewrite app_nil_r.
  - cbn [foldl]. destruct (onLine_healthy line s Hd He) as (Hd1 & He1 & f1 & Hw1 & Hf1).
    destruct (IH _ Hd1 He1) as (Hd2 & He2 & f2 & Hw2 & Hf2).
    split; [done|]. split; [done|]. exists (f1 ++ f2).
    rewrite Hw2, Hw1, <- app_assoc. split; [done|]. by apply Forall_app.
Qed.
End Healthy.

Section PathTheorems.
Import TestPayloadHelper.

(** X20.  A 200 response whose body ends is a success whatever the body
    carried: the promise resolves, [recoverAccountFromTest] is launched when
    the account is given, and on a stream that can be written the report is
    [test_start], the forwarded progress frames and a final [test_complete]
    with [success: true].  Only complete lines are forwarded: a body without
    a line feed forwards nothing. *)
Theorem successful_test_completes R o s cs :
  exists run,
    sendStreamTestRequest (answering R (Response 200 ((Data <$> cs) ++ [End]))) o s
    = Returned run
    /\ launches run
       = match accountGiven o with
         | Some (id, type) => [LaunchRecover id type]
         | None => []
         end
    /\ resolved run = true
    /\ (let forwarding := foldl (onLine R) (started R s)
                            (removelast (split LF (textOf R cs))) in
        responseStream run
        = if writable forwarding then endTest R true VNull forwarding else forwarding)
    /\ (healthy R s ->
        writableEnded (responseStream run) = true
        /\ exists forwarded,
             written (responseStream run)
             = written s
               ++ [frame R (VObject [("type", VString "test_start");
                                     ("message", VString "Test started")])]
               ++ forwarded ++ [frame R (completion true VNull)]
             /\ Forall (progressFrame R) forwarded)
    /\ (occurs LF (textOf R cs) = false ->
        responseStream run
        = if writable (started R s) then endTest R true VNull (started R s)
          else started R s).
Proof.
  destruct (sendStreamTestRequest_answering R (Response 200 ((Data <$> cs) ++ [End])) o s)
    as (p & _ & ->).
  eexists. split; [reflexivity|].
  rewrite foldl_app, data_200 by done.
  cbn [foldl happen]. change (200 =? 200)%Z with true. cbn match.
  cbn [onEnd launches resolved responseStream buffer app].
  change (EmptyString +:+ textOf R cs) with (textOf R cs).
  split; [by destruct (accountGiven o) as [[id type]|]|].
  split; [done|]. split; [done|]. split.
  - intros (Hd & He & Hw).
    destruct (started_healthy R Hw s Hd He) as (Hd1 & He1 & Hw1).
    destruct (lines_healthy R Hw (removelast (split LF (textOf R cs))) (started R s) Hd1 He1)
      as (Hd2 & He2 & forwarded & Hw2 & Hf).
    assert (writable (foldl (onLine R) (started R s)
                        (removelast (split LF (textOf R cs)))) = true) as ->
      by (unfold writable; by rewrite Hd2, He2).
    destruct (endTest_healthy R Hw true VNull _ Hd2 He2) as (He3 & Hw3).
    split; [done|]. exists forwarded. rewrite Hw3, Hw2, Hw1, <- !app_assoc. done.
  - intros Hno. by rewrite split_absent.
Qed.

(** X21.  A response with another status than 200 whose body ends is a
    failure: the body is read as a whole, the report is [test_start] followed
    by a [test_complete] frame with [success: false] and the extracted error
    message, the promise resolves, and [handleErrorResponse] is launched
    exactly when the status is in 400..599 and the account is given. *)
Theorem failed_test_completes R o s status cs :
  status <> 200%Z ->
  exists run,
    sendStreamTestRequest (answering R (Response status ((Data <$> cs) ++ [End]))) o s
    = Returned run
    /\ (let errorMsg := errorMessageOf R status (Buffer_toString R (concat cs)) in
        responseStream run = endTest R false errorMsg (started R s)
        /\ launches run
           = (if (400 <=? status)%Z && (status <? 600)%Z then
                match accountGiven o with
                | Some (id, type) =>
                    [LaunchDisable id type status errorMsg (apiUrl o) "test"]
                | None => []
                end
              else [])
        /\ (healthy R s ->
            written (responseStream run)
            = written s
              ++ [frame R (VObject [("type", VString "test_start");
                                    ("message", VString "Test started")]);
                  frame R (completion false errorMsg)]))
    /\ resolved run = true.
Proof.
  intros Hne.
  destruct (sendStreamTestRequest_answering R (Response status ((Data <$> cs) ++ [End])) o s)
    as (p & _ & ->).
  eexists. split; [reflexivity|].
  rewrite foldl_app, data_error by done.
  cbn [foldl happen]. destruct (Z.eqb_spec status 200) as [?|_]; [done|].
  cbn [onErrorEnd launches resolved responseStream chunks app].
  split; [|done]. split; [done|]. split; [done|].
  intros (Hd & He & Hw).
  destruct (started_healthy R Hw s Hd He) as (Hd1 & He1 & Hw1).
  destruct (endTest_healthy R Hw false
              (errorMessageOf R status (Buffer_toString R (concat cs))) _ Hd1 He1)
    as (_ & Hw2).
  rewrite Hw2, Hw1, <- app_assoc. done.
Qed.

(** X22.  When the request itself fails, the test launches no call to
    the account-health services, resolves, and reports [test_start] followed
    by a [test_complete] frame with [success: false] and the message of the
    error; when the client has left meanwhile nothing more is written. *)
Theorem rejected_request_fails_the_test R o s message gone :
  exists run,
    sendStreamTestRequest (answering R (Rejected message gone)) o s = Returned run
    /\ launches run = []
    /\ resolved run = true
    /\ responseStream run
       = endTest R false (VString message)
           (if gone then destroy (started R s) else started R s)
    /\ (healthy R s -> gone = false ->
        writableEnded (responseStream run) = true
        /\ written (responseStream run)
           = written s
             ++ [frame R (VObject [("type", VString "test_start");
                                   ("message", VString "Test started")]);
                 frame R (completion false (VString message))])
    /\ (gone = true -> written (responseStream run) = written (started R s)).
Proof.
  destruct (sendStreamTestRequest_answering R (Rejected message gone) o s) as (p & _ & ->).
  eexists. split; [reflexivity|]. cbn [launches resolved responseStream].
  split; [done|]. split; [done|]. split; [done|]. split.
  - intros (Hd & He & Hw) ->.
    destruct (started_healthy R Hw s Hd He) as (Hd1 & He1 & Hw1).
    destruct (endTest_healthy R Hw false (VString message) _ Hd1 He1) as (He2 & Hw2).
    split; [done|]. by rewrite Hw2, Hw1, <- app_assoc.
  - intros ->. unfold endTest, writable, destroy. cbn. done.
Qed.
End PathTheorems.

Section EndToEnd.
Import TestPayloadHelper.

Lemma launched_after_error_body R o s status cs id type :
  (400 <= status < 600)%Z ->
  accountGiven o = Some (id, type) ->
  exists run,
    sendStreamTestRequest (answering R (Response status ((Data <$> cs) ++ [End]))) o s
    = Returned run
    /\ launches run
       = [LaunchDisable id type status
            (errorMessageOf R status (Buffer_toString R (concat cs))) (apiUrl o) "test"].
Proof.
  intros Hr Hg.
  destruct (sendStreamTestRequest_answering R (Response status ((Data <$> cs) ++ [End])) o s)
    as (p & _ & ->).
  eexists. split; [reflexivity|].
  rewrite foldl_app, data_error by lia.
  cbn [foldl happen]. destruct (Z.eqb_spec status 200) as [?|_]; [lia|].
  cbn [onErrorEnd launches chunks app]. rewrite Hg.
  destruct (Z.leb_spec 400 status); [|lia]. destruct (Z.ltb_spec status 600); [|lia]. done.
Qed.

(** X23.  When the body of a failed test (status in 400..599, account
    given) is a JSON object without a truthy [message] whose [error] is an
    object without a truthy [message], the message handed to
    [handleErrorResponse] is that object, not a string; the call then raises
    at [errorMessage.substring] before any write, the rejection is swallowed
    by the [catch] of the call site, and the account is not quarantined:
    records, index and trace are unchanged. *)
Theorem structured_error_is_not_quarantined R o s status cs json members id type :
  (400 <= status < 600)%Z ->
  accountGiven o = Some (id, type) ->
  JSON_parse R (Buffer_toString R (concat cs)) = Some json ->
  toBoolean (get json "message") = false ->
  get json "error" = VObject members ->
  toBoolean (member "message" members) = false ->
  exists run,
    sendStreamTestRequest (answering R (Response status ((Data <$> cs) ++ [End]))) o s
    = Returned run
    /\ launches run
       = [LaunchDisable id type status (VObject members) (apiUrl o) "test"]
    /\ forall E w,
         (exists e,
            handleErrorResponse_of E id type status (VObject members) (apiUrl o) "test" w
            = (Thrown e, w))
         /\ runLaunch E (LaunchDisable id type status (VObject members) (apiUrl o) "test") w
            = (Returned tt, w).
Proof.
  intros Hr Hg Hj Hm He Hem.
  destruct (launched_after_error_body R o s status cs id type Hr Hg) as (run & Hrun & Hl).
  exists run. split; [exact Hrun|].
  assert (errorMessageOf R status (Buffer_toString R (concat cs)) = VObject members) as Hmsg.
  { unfold errorMessageOf. rewrite Hj.
    assert (nullish json = false) as -> by (destruct json; done).
    rewrite (or_second (get json "message")) by done.
    rewrite He. cbn [optGet nullish get]. rewrite (or_second (member "message" members)) by done.
    by rewrite or_first. }
  rewrite Hmsg in Hl. split; [exact Hl|].
  intros E w.
  assert (handleErrorResponse_of E id type status (VObject members) (apiUrl o) "test" w
          = (Thrown "errorMessage.substring is not a function", w)) as Hthrow.
  { unfold handleErrorResponse_of. rewrite gate_open by lia. done. }
  split; [by eexists|]. unfold runLaunch, try_catch, bind. by rewrite Hthrow.
Qed.

(** X24.  End to end.  When a test of a given account of a recognized
    provider type fails with a status in 400..599 and the extracted message
    is a string, and the record store and the index accept the two writes,
    the launched call quarantines the account: it is added to the index of
    its type, [schedulable] becomes [false], [autoDisabledReason] is
    [HTTP <status>: <first 200 characters of the message>] and
    [autoDisabledAt] is the time of the call. *)
Theorem failed_test_quarantines_the_account R E o s status cs message id type svc w :
  (400 <= status < 600)%Z ->
  accountGiven o = Some (id, type) ->
  serviceByType type = Some svc ->
  errorMessageOf R status (Buffer_toString R (concat cs)) = VString message ->
  fault E (2 + ticks w) = None ->
  fault E (3 + ticks w) = None ->
  exists run launch,
    sendStreamTestRequest (answering R (Response status ((Data <$> cs) ++ [End]))) o s
    = Returned run
    /\ launches run = [launch]
    /\ (runLaunch E launch w).1 = Returned tt
    /\ id ∈ smembersOf (indexKey type) (runLaunch E launch w).2
    /\ fieldOf (runLaunch E launch w).2 svc id "schedulable" = Some (JBool false)
    /\ fieldOf (runLaunch E launch w).2 svc id "autoDisabledReason"
       = Some (JStr (AccountAutoDisableService.reasonText status message))
    /\ fieldOf (runLaunch E launch w).2 svc id "autoDisabledAt"
       = Some (JStr (isoAt E (ticks w))).
Proof.
  intros Hr Hg Hs Hmsg Hf2 Hf3.
  destruct (launched_after_error_body R o s status cs id type Hr Hg) as (run & Hrun & Hl).
  rewrite Hmsg in Hl. eexists run, _. split; [exact Hrun|]. split; [exact Hl|].
  unfold runLaunch, try_catch, bind, handleErrorResponse_of.
  rewrite gate_open by lia.
  assert (400 <= status <= 599)%Z as Hr' by lia.
  pose proof (handleErrorResponse_run E id type svc status message (apiUrl o) "test" w
                Hr' Hs) as Hrun'.
  cbv zeta in Hrun'. rewrite Hf2, Hf3 in Hrun'. rewrite Hrun'. cbn [fst snd ret].
  split; [done|]. split.
  { unfold smembersOf. cbn [redisSets logCall setRedisSets]. rewrite lookup_insert_eq.
    cbn. apply elem_of_union. left. by apply elem_of_singleton. }
  unfold fieldOf, afterRecordWrite, merged.
  cbn [accounts logCall setRedisSets setAccounts tick]. rewrite lookup_insert_eq.
  cbn [mbind option_bind]. rewrite applyUpdates_disable.
  split_and!.
  - by rewrite !lookup_insert_ne, lookup_insert_eq by done.
  - by rewrite lookup_insert_ne, lookup_insert_eq by done.
  - by rewrite !lookup_insert_ne, lookup_insert_eq by done.
Qed.
End EndToEnd.

Section Session.
Import TestPayloadHelper.

Lemma hexDigit_isHex n : n < 16 -> isHex (String (hexDigit n) EmptyString) = true.
Proof.
  intros Hn. do 16 (destruct n as [|n]; [reflexivity|]). lia.
Qed.

Lemma isHex_app s t : isHex (s ++ t) = isHex s && isHex t.
Proof.
  induction s as [|a s IH]; [done|].
  change (String a s +:+ t) with (String a (s +:+ t)). cbn [isHex].
  by rewrite IH, andb_assoc.
Qed.

Lemma toHex_spec bytes :
  String.length (toHex bytes) = 2 * length bytes /\ isHex (toHex bytes) = true.
Proof.
  induction bytes as [|b bytes [IHl IHh]]; [done|].
  cbn [toHex]. unfold hexByte.
  change (String ?a (String ?b EmptyString) +:+ ?t) with (String a (String b t)).
  split.
  - cbn [String.length length]. rewrite IHl. lia.
  - change (String ?a (String ?b ?t))
      with ((String a EmptyString +:+ String b EmptyString) +:+ t).
    rewrite !isHex_app, IHh, !hexDigit_isHex; [done|..].
    + apply Nat.mod_upper_bound. lia.
    + apply Nat.Div0.div_lt_upper_bound.
      pose proof (Byte.to_nat_bounded b). lia.
Qed.

(** X25.  When the random source returns the 32 bytes asked for, the
    session string is [user_] followed by 64 lower-case hexadecimal digits,
    [_account__session_] and the UUID; the digits are those of
    [randomHex()] with its default length. *)
Theorem generateSessionString_format R :
  length (crypto_randomBytes R 32) = 32 ->
  exists hex,
    generateSessionString R
    = ("user_" ++ hex ++ "_account__session_" ++ crypto_randomUUID R)%string
    /\ String.length hex = 64
    /\ isHex hex = true
    /\ randomHex R None = hex.
Proof.
  intros Hlen. exists (toHex (crypto_randomBytes R 32)).
  destruct (toHex_spec (crypto_randomBytes R 32)) as [Hl Hh].
  split; [reflexivity|]. split; [by rewrite Hl, Hlen|]. split; [exact Hh|reflexivity].
Qed.
End Session.

Section HelperWitnesses.
Import TestPayloadHelper.

Lemma sendStreamTestRequest_reports_once_witness :
  exists run,
    sendStreamTestRequest plainRuntime testOfX freshStream = Returned run
    /\ reported plainRuntime freshStream (responseStream run).
Proof.
  eexists. split; [reflexivity|].
  apply (sendStreamTestRequest_reports_once plainRuntime testOfX freshStream).
  reflexivity.
Defined.

Lemma sendStreamTestRequest_launch_conditions_witness :
  let R := answering plainRuntime
             (Response 503 [Data (String.list_byte_of_string "busy"); End]) in
  exists run,
    sendStreamTestRequest R testOfX freshStream = Returned run
    /\ exists config,
         request run = Some config
         /\ Forall (launchOf testOfX 503) (launches run)
         /\ length (launches run) = 1.
Proof.
  intros R. eexists. split; [reflexivity|].
  destruct (sendStreamTestRequest_launch_conditions R testOfX freshStream _ eq_refl)
    as (config & Hc & Hl).
  exists config. split; [exact Hc|]. exact Hl.
Defined.

Lemma sendStreamTestRequest_rechunked_witness :
  let whole := [String.list_byte_of_string "data: {}"] in
  let pieces := [String.list_byte_of_string "da"; String.list_byte_of_string "ta: {}"] in
  textOf plainRuntime whole = textOf plainRuntime pieces
  /\ sendStreamTestRequest
       (answering plainRuntime (Response 200 ([] ++ (Data <$> whole) ++ [End])))
       testOfX freshStream
     = sendStreamTestRequest
         (answering plainRuntime (Response 200 ([] ++ (Data <$> pieces) ++ [End])))
         testOfX freshStream.
Proof.
  intros whole pieces.
  assert (textOf plainRuntime whole = textOf plainRuntime pieces) as Ht by reflexivity.
  split; [exact Ht|].
  exact (sendStreamTestRequest_rechunked plainRuntime testOfX freshStream [] whole pieces
           [End] Ht).
Defined.

Lemma failed_test_completes_witness :
  (404 <> 200)%Z
  /\ exists run,
       sendStreamTestRequest
         (answering plainRuntime
            (Response 404 ((Data <$> [String.list_byte_of_string "not found"]) ++ [End])))
         testOfX freshStream
       = Returned run
       /\ launches run
          = [LaunchDisable "X" "claude-console" 404 (VString "not found")
               "https://relay.example/v1/messages" "test"]
       /\ resolved run = true.
Proof.
  assert (404 <> 200)%Z as Hs by lia.
  split; [exact Hs|].
  destruct (failed_test_completes plainRuntime testOfX freshStream 404
              [String.list_byte_of_string "not found"] Hs)
    as (run & Hrun & (_ & Hl & _) & Hres).
  exists run. split; [exact Hrun|]. split; [exact Hl|exact Hres].
Defined.

Lemma structured_error_is_not_quarantined_witness :
  let body := [String.list_byte_of_string overloadedBody] in
  let error := VObject [("type", VString "overloaded_error")] in
  (400 <= 529 < 600)%Z
  /\ accountGiven testOfX = Some ("X", "claude-console")
  /\ exists run,
       sendStreamTestRequest
         (answering plainRuntime (Response 529 ((Data <$> body) ++ [End])))
         testOfX freshStream
       = Returned run
       /\ launches run
          = [LaunchDisable "X" "claude-console" 529 error
               "https://relay.example/v1/messages" "test"]
       /\ runLaunch calmEnv
            (LaunchDisable "X" "claude-console" 529 error
               "https://relay.example/v1/messages" "test") worldX
          = (Returned tt, worldX).
Proof.
  intros body error.
  assert (400 <= 529 < 600)%Z as Hr by lia.
  split; [exact Hr|]. split; [reflexivity|].
  destruct (structured_error_is_not_quarantined plainRuntime testOfX freshStream 529 body
              (VObject [("error", error)]) [("type", VString "overloaded_error")]
              "X" "claude-console" Hr eq_refl eq_refl eq_refl eq_refl eq_refl)
    as (run & Hrun & Hl & Hn).
  exists run. split; [exact Hrun|]. split; [exact Hl|].
  exact (proj2 (Hn calmEnv worldX)).
Defined.

Lemma failed_test_quarantines_the_account_witness :
  (400 <= 404 < 600)%Z
  /\ exists run launch,
       sendStreamTestRequest
         (answering plainRuntime
            (Response 404 ((Data <$> [String.list_byte_of_string "not found"]) ++ [End])))
         testOfX freshStream
       = Returned run
       /\ launches run = [launch]
       /\ "X" ∈ smembersOf (indexKey "claude-console") (runLaunch calmEnv launch worldX).2
       /\ fieldOf (runLaunch calmEnv launch worldX).2 claudeConsoleAccountService "X"
            "autoDisabledReason"
          = Some (JStr "HTTP 404: not found").
Proof.
  assert (400 <= 404 < 600)%Z as Hr by lia.
  split; [exact Hr|].
  destruct (failed_test_quarantines_the_account plainRuntime calmEnv testOfX freshStream 404
              [String.list_byte_of_string "not found"] "not found" "X" "claude-console"
              claudeConsoleAccountService worldX Hr eq_refl eq_refl eq_refl eq_refl eq_refl)
    as (run & launch & Hrun & Hl & _ & Hm & _ & Hreason & _).
  exists run, launch. split; [exact Hrun|]. split; [exact Hl|]. split; [exact Hm|].
  exact Hreason.
Defined.

Lemma generateSessionString_format_witness :
  length (crypto_randomBytes plainRuntime 32) = 32
  /\ exists hex,
       generateSessionString plainRuntime
       = ("user_" ++ hex ++ "_account__session_" ++ crypto_randomUUID plainRuntime)%string
       /\ String.length hex = 64
       /\ isHex hex = true.
Proof.
  split; [reflexivity|].
  destruct (generateSessionString_format plainRuntime eq_refl) as (hex & H1 & H2 & H3 & _).
  exists hex. split; [exact H1|]. split; [exact H2|exact H3].
Defined.
End HelperWitnesses.
